(** * Similarity-to-embedding engine of the scent blender

    A shallow embedding of the numerical core of the repository:
    - [llmScentEmbeddings.js]: the similarity cache, the pair key, the
      similarity-matrix generation with its fallback, the distance matrix and
      the classical-MDS reducer (centering, power iteration, deflation);
    - [generateFastAIDemo.js]: the rule-based fallback similarity, the reader
      of the comparison subprocess, the similarity table and the
      force-directed layout;
    - [testAISimilarity.js]: the similarity table, the reader of the
      comparison subprocess, the distance builder, the centering of
      [simpleMDS] and the perfumery-notes visualization;
    - [scentEmbeddings.js]: the vocabulary, the TF-IDF feature vectors and the
      centering and normalizing steps of the PCA;
    - [llmService.js]: the score extraction, the queue of a service that is
      not loaded and the batch comparison;
    - the blend server: the selection of the fallback blend.

    Two readings of a JavaScript number are used.  Statements quantified over
    all inputs read numbers as real numbers ([R]): rounding, overflow and
    underflow are left out, and a computation whose JavaScript result is not a
    number has no value there.
    Concrete runs of the MDS path, where NaN matters, are evaluated on IEEE
    binary64 floats ([PrimFloat]), the number type of JavaScript itself. *)

From Stdlib Require Import Reals Lra Lia.
From Stdlib Require Import Ascii.
From Stdlib Require PrimFloat Uint63.
From stdpp Require Import gmap strings list.
From stdpp Require Import pretty.

Open Scope R_scope.

(* ===================================================================== *)
(** * Loops and arrays *)
(* ===================================================================== *)

(** [for (let i = lo; i < hi; i++) body], threading the mutated state. *)
Definition forLoop {S : Type} (lo hi : nat) (body : nat → S → S) (s : S) : S :=
  fold_left (λ acc i, body i acc) (seq lo (hi - lo)) s.

(** [m[i][j] = v] on an array of arrays.  Every write of the modelled code is
    in range; out of range stdpp's [alter] and insert leave the list as it is,
    where JavaScript would extend the array. *)
Definition set2 {A : Type} (m : list (list A)) (i j : nat) (v : A) : list (list A) :=
  alter (λ row, <[j := v]> row) i m.

(** [m[i][j]] as a partial read. *)
Definition get2 {A : Type} (m : list (list A)) (i j : nat) : option A :=
  m !! i ≫= λ row, row !! j.

(** [Array(n).fill().map(() => Array(n).fill(z))] *)
Definition newMatrix {A : Type} (n : nat) (z : A) : list (list A) :=
  replicate n (replicate n z).

(** An n-by-n array of arrays. *)
Definition square {A : Type} (n : nat) (m : list (list A)) : Prop :=
  length m = n ∧ Forall (λ row, length row = n) m.

(** [for (...) { body }] where the body may throw: [None] is the exception,
    which leaves the loop. *)
Definition forLoopM {S : Type} (lo hi : nat) (body : nat → S → option S) (s : S)
    : option S :=
  fold_left (λ acc i, acc ≫= body i) (seq lo (hi - lo)) (Some s).

(** [x || d] on numbers: a number is falsy when it is 0. *)
Definition orNum (x d : R) : R := if Req_dec_T x 0 then d else x.

(* ===================================================================== *)
(** * The catalog ([essentialOils.js]) *)
(* ===================================================================== *)

(** The ordinal of the catalog's [intensity] field. *)
Inductive Intensity := light | medium | strong | heavy.

(** One record of [essentialOils]. *)
Record OilData := {
  notes : list string;
  intensity : Intensity;
  category : string;
  description : string
}.

(** The catalog object, as its entries in enumeration order
    ([Object.entries]); the keys of an object are distinct. *)
Abbreviation Catalog := (list (string * OilData)).

(** [Object.keys(essentialOils)] *)
Definition catalogKeys (oils : Catalog) : list string := oils.*1.

(** [essentialOils[name]]; [None] is [undefined]. *)
Fixpoint lookupOil (oils : Catalog) (name : string) : option OilData :=
  match oils with
  | [] => None
  | (k, d) :: rest => if decide (k = name) then Some d else lookupOil rest name
  end.

(* ===================================================================== *)
(** * Sums, characters and note types *)
(* ===================================================================== *)

(** A read outside an array of numbers.  The modelled code reads inside its
    arrays whenever the matrix is square, which the statements below assume;
    JavaScript would read [undefined] there. *)
#[export] Instance R_inhabited : Inhabited R := populate 0.

(** [xs.reduce((sum, val) => sum + val, 0)] *)
Definition sumOf (xs : list R) : R :=
  fold_left (λ sum val, sum + val) xs 0.

(** [s.includes(c)] for a single character [c]. *)
Fixpoint includesChar (c : Ascii.ascii) (s : string) : bool :=
  match s with
  | EmptyString => false
  | String x rest => if decide (x = c) then true else includesChar c rest
  end.

(** The three perfumery note types. *)
Inductive NoteType := TOP | MIDDLE | BASE.

#[export] Instance NoteType_eq_dec : EqDecision NoteType.
Proof. solve_decision. Defined.

(* ===================================================================== *)
(** * [llmScentEmbeddings.js]: cache, similarity matrix, distance matrix *)
(* ===================================================================== *)

Module LLMScentEmbeddings.

(** A value of [this.similarityMatrix]. *)
Record SimEntry := {
  oil1 : string;
  oil2 : string;
  similarity : R;
  reasoning : string;
  timestamp : string
}.

(** What [this.similarityMatrix] can hold.  The constructor sets it to [{}];
    [loadCache] sets it to whatever truthy value the parsed file has under
    [similarityMatrix].
    - [ObjectValue entries]: an object.  [entries] are the keys that hold a
      truthy value; a key that holds [null], [false], [0] or the empty string
      reads as absent at both places where the code reads a key (the test at
      the head of [getSimilarityScore], and [?.similarity || 50]).  A truthy
      value is read through its field [similarity] only; that field is taken
      to be a number, a value without it reading like one with similarity 0
      (both give 50).
    - [ArrayValue entries]: an array.  Stores under pair keys become
      properties of the array object and are read back like those of an
      object; a pair key contains [|] and so is no index and not [length].
    - [PrimitiveValue]: a non-empty string, a non-zero number or [true].
      Reading a key gives [undefined]; a store throws [TypeError], the body
      of a class being strict code. *)
Inductive Matrix :=
  | ObjectValue (entries : gmap string SimEntry)
  | ArrayValue (entries : gmap string SimEntry)
  | PrimitiveValue.

(** The entries that reads of [this.similarityMatrix[key]] find. *)
Definition entriesOf (m : Matrix) : gmap string SimEntry :=
  match m with
  | ObjectValue entries | ArrayValue entries => entries
  | PrimitiveValue => ∅
  end.

Coercion entriesOf : Matrix >-> gmap.

(** [this.similarityMatrix[key]] *)
#[export] Instance matrix_lookup : Lookup string SimEntry Matrix :=
  λ key m, entriesOf m !! key.

(** [{}] *)
#[export] Instance matrix_empty : Empty Matrix := ObjectValue ∅.

(** [this.similarityMatrix[key] = entry]; [None] when the store throws. *)
Definition store (key : string) (entry : SimEntry) (m : Matrix) : option Matrix :=
  match m with
  | ObjectValue entries => Some (ObjectValue (<[key := entry]> entries))
  | ArrayValue entries => Some (ArrayValue (<[key := entry]> entries))
  | PrimitiveValue => None
  end.

(** The matrix takes a store: it is an object or an array. *)
Definition acceptsStores (m : Matrix) : bool :=
  match m with
  | ObjectValue _ | ArrayValue _ => true
  | PrimitiveValue => false
  end.

(** The matrix is an object, as the constructor makes it. *)
Definition isObject (m : Matrix) : bool :=
  match m with
  | ObjectValue _ => true
  | ArrayValue _ | PrimitiveValue => false
  end.

(** The value under [similarityMatrix] in the cache file, as JSON has it:
    an object with its truthy entries, an array (its elements are never read:
    no pair key is an index), or a truthy primitive. *)
Inductive CachedValue :=
  | CachedObject (entries : gmap string SimEntry)
  | CachedArray
  | CachedPrimitive.

(** What [JSON.stringify] writes for [this.similarityMatrix]: of an array it
    writes the elements only, so the entries stored as properties are left
    out. *)
Definition written (m : Matrix) : CachedValue :=
  match m with
  | ObjectValue entries => CachedObject entries
  | ArrayValue _ => CachedArray
  | PrimitiveValue => CachedPrimitive
  end.

(** The value that [JSON.parse] builds. *)
Definition parsed (v : CachedValue) : Matrix :=
  match v with
  | CachedObject entries => ObjectValue entries
  | CachedArray => ArrayValue ∅
  | CachedPrimitive => PrimitiveValue
  end.

(** The object written to [similarity_cache.json].  In a file read back the
    field [similarityMatrix] may be missing or falsy ([None]). *)
Record CacheFile := {
  cachedSimilarityMatrix : option CachedValue;
  cachedTimestamp : string;
  cachedOilCount : nat
}.

(** [[oil1, oil2].sort()]: the default sort compares strings code unit by code
    unit and is stable, so the pair is swapped exactly when the second string
    is smaller than the first. *)
Definition sortPair (a b : string) : string * string :=
  if String.ltb b a then (b, a) else (a, b).

(** [getSimilarityKey(oil1, oil2)]: [[oil1, oil2].sort().join('|')] *)
Definition getSimilarityKey (a b : string) : string :=
  let p := sortPair a b in (p.1 +:+ "|" +:+ p.2)%string.

(** The lookup at the head of [getSimilarityScore]:
    [this.similarityMatrix[key]], among the entries that hold a truthy
    value. *)
Definition cacheLookup (similarityMatrix : gmap string SimEntry) (a b : string)
    : option SimEntry :=
  similarityMatrix !! getSimilarityKey a b.

(** What the subprocess of [getSimilarityScore] does, as the two handlers
    that settle the promise see it: the [close] event with the exit code
    ([None]: ended by a signal, the code is [null]) and the collected output,
    the [error] event, or neither.  The call sets no timer. *)
Inductive ProcessRun :=
  | Exits (code : option Z) (stdout : string)
  | FailsToStart
  | NeverExits.

(** The promise of the request, up to the store of the answer. *)
Inductive Comparison :=
  | Answers (e : SimEntry)
  | Fails
  | Pending.

Section Comparison.

(** The entry built from the output: the match of [/\{[\s\S]*\}/] parsed by
    [JSON.parse], its five fields read; [None] when nothing matches or the
    parse throws. *)
Variable readJson : string → option SimEntry.

(** The handlers of [close] and [error] in [getSimilarityScore]. *)
Definition comparison (run : ProcessRun) : Comparison :=
  match run with
  | Exits code stdout =>
      if decide (code = Some 0%Z) then
        match readJson stdout with
        | Some e => Answers e
        | None => Fails
        end
      else Fails
  | FailsToStart => Fails
  | NeverExits => Pending
  end.

End Comparison.

Section Instance.

(** The bytes of the cache file, with [JSON.stringify] and [JSON.parse]
    ([None]: the parse, or the read of a field of the result, throws). *)
Context {Blob : Type}.
Variable stringify : CacheFile → Blob.
Variable parse : Blob → option CacheFile.

(** [new Date().toISOString()] *)
Variable now : string.

(** The outcome of the subprocess behind [getSimilarityScore] once it is
    settled: the entry built from its JSON ([Answers] of [comparison]), or
    [None] when the comparison fails ([Fails]: exit code, spawn error, no
    JSON, parse error).  A comparison that stays [Pending] has no value
    here: the request never returns to [generateSimilarityMatrix]. *)
Variable oracle : string → string → option SimEntry.

(** [essentialOils] *)
Variable oils : Catalog.

(** The cache file on disk: absent or some bytes; [writable] tells whether
    [fs.writeFileSync] succeeds. *)
Record Disk := {
  content : option Blob;
  writable : bool
}.

(** The instance field [this.similarityMatrix] and the disk it works on. *)
Record State := {
  similarityMatrix : Matrix;
  disk : Disk
}.

Definition oilNames : list string := catalogKeys oils.

(** [loadCache()]: the state after the call and the returned boolean.
    [cached.similarityMatrix || {}] keeps any truthy value, of whatever
    shape. *)
Definition loadCache (st : State) : State * bool :=
  match content (disk st) with
  | Some bytes =>
      match parse bytes with
      | Some cached =>
          ({| similarityMatrix :=
                match cachedSimilarityMatrix cached with
                | Some value => parsed value
                | None => ∅
                end;
              disk := disk st |}, true)
      | None => (st, false)
      end
  | None => (st, false)
  end.

(** [saveCache()]: a failed write is caught and only logged. *)
Definition saveCache (st : State) : State :=
  let cache := {| cachedSimilarityMatrix := Some (written (similarityMatrix st));
                  cachedTimestamp := now;
                  cachedOilCount := length oilNames |} in
  if writable (disk st)
  then {| similarityMatrix := similarityMatrix st;
          disk := {| content := Some (stringify cache);
                     writable := writable (disk st) |} |}
  else st.

(** [getSimilarityScore(oil1, oil2)]: the state after the call and the
    entry the promise resolves to, [None] when it is rejected.  The store of
    the answer stands inside the [try] of the [close] handler: when it
    throws, the promise is rejected. *)
Definition getSimilarityScore (st : State) (oil1 oil2 : string)
    : State * option SimEntry :=
  let key := getSimilarityKey oil1 oil2 in
  match similarityMatrix st !! key with
  | Some e => (st, Some e)
  | None =>
      match oracle oil1 oil2 with
      | Some e =>
          match store key e (similarityMatrix st) with
          | Some matrix => ({| similarityMatrix := matrix; disk := disk st |}, Some e)
          | None => (st, None)
          end
      | None => (st, None)
      end
  end.

(** The entry built in the [catch] branch of [generateSimilarityMatrix];
    [None] when [this.oils[oil].category] reads a field of [undefined]. *)
Definition fallbackEntry (oil1 oil2 : string) : option SimEntry :=
  d1 ← lookupOil oils oil1;
  d2 ← lookupOil oils oil2;
  let sameCategory := bool_decide (category d1 = category d2) in
  Some {| oil1 := oil1;
          oil2 := oil2;
          similarity := if sameCategory then 60 else 30;
          reasoning := ("Fallback score: " +:+
                        (if sameCategory then "same category"
                         else "different categories"))%string;
          timestamp := now |}.

(** The body of the inner loop of [generateSimilarityMatrix], on the state
    and the local counter [processedPairs]; [None] is an exception that
    nothing catches: a read or a store in the [catch] branch that throws. *)
Definition pairStep (i j : nat) (s : State * nat) : option (State * nat) :=
  let '(st, processedPairs) := s in
  let oil1 := oilNames !!! i in
  let oil2 := oilNames !!! j in
  match getSimilarityScore st oil1 oil2 with
  | (st, Some _) =>
      let processedPairs := S processedPairs in
      Some (if (processedPairs mod 5 =? 0)%nat then saveCache st else st,
            processedPairs)
  | (st, None) =>
      e ← fallbackEntry oil1 oil2;
      let key := getSimilarityKey oil1 oil2 in
      matrix ← store key e (similarityMatrix st);
      Some ({| similarityMatrix := matrix; disk := disk st |}, processedPairs)
  end.

(** [generateSimilarityMatrix()]; [None] when the call throws. *)
Definition generateSimilarityMatrix (st : State) : option State :=
  let st := (loadCache st).1 in
  let n := length oilNames in
  s ← forLoopM 0 n (λ i s, forLoopM (i + 1) n (λ j s, pairStep i j s) s) (st, 0%nat);
  Some (saveCache s.1).

(** The index pairs in the order in which the two loops visit them. *)
Definition pairsInOrder (n : nat) : list (nat * nat) :=
  flat_map (λ i, map (pair i) (seq (i + 1) (n - (i + 1)))) (seq 0 n).

(** The loop body run over a list of index pairs. *)
Definition runPairs (pairs : list (nat * nat)) (s : option (State * nat))
    : option (State * nat) :=
  fold_left (λ acc p, acc ≫= pairStep p.1 p.2) pairs s.

End Instance.

(** A call of [generateSimilarityMatrix] under way: at work on a state with
    its counter, or waiting on a request that does not settle. *)
Inductive Progress {Blob : Type} :=
  | Working (s : State (Blob := Blob) * nat)
  | Waiting (s : State (Blob := Blob) * nat).

(** What becomes of a call of [generateSimilarityMatrix] that does not throw:
    it returns, or it waits without end, with the state reached until
    then. *)
Inductive Generation {Blob : Type} :=
  | Returns (final : State (Blob := Blob))
  | Waits (st : State (Blob := Blob)).

Section Processes.

Context {Blob : Type}.
Variable stringify : CacheFile → Blob.
Variable parse : Blob → option CacheFile.
Variable now : string.
Variable oils : Catalog.

(** The reader of the output, and what the process started for a pair
    does. *)
Variable readJson : string → option SimEntry.
Variable runs : string → string → ProcessRun.

(** The oracle that processes which all settle make up. *)
Definition settledOracle (oil1 oil2 : string) : option SimEntry :=
  match comparison readJson (runs oil1 oil2) with
  | Answers e => Some e
  | Fails | Pending => None
  end.

(** The body of the inner loop of [generateSimilarityMatrix], with the
    process of the pair: the step that [pairStep] makes on the outcome of the
    request, unless the pair has no entry and its process never exits; the
    [await] then has no end, and nothing that follows it is run. *)
Definition pairStepOn (i j : nat) (p : Progress) : option Progress :=
  match p with
  | Waiting s => Some (Waiting s)
  | Working s =>
      let oil1 := oilNames oils !!! i in
      let oil2 := oilNames oils !!! j in
      let step answer :=
        Working <$> pairStep stringify now (λ _ _, answer) oils i j s in
      match similarityMatrix s.1 !! getSimilarityKey oil1 oil2 with
      | Some _ => step None
      | None =>
          match comparison readJson (runs oil1 oil2) with
          | Answers e => step (Some e)
          | Fails => step None
          | Pending => Some (Waiting s)
          end
      end
  end.

(** The loop body with the processes, run over a list of index pairs. *)
Definition runPairsOn (pairs : list (nat * nat)) (p : option Progress)
    : option Progress :=
  fold_left (λ acc q, acc ≫= pairStepOn q.1 q.2) pairs p.

(** [generateSimilarityMatrix()] with the processes; [None] when the call
    throws. *)
Definition generateWithProcesses (st : State) : option Generation :=
  let st := (loadCache parse st).1 in
  let n := length (oilNames oils) in
  p ← forLoopM 0 n (λ i p, forLoopM (i + 1) n (λ j p, pairStepOn i j p) p)
        (Working (st, 0%nat));
  Some match p with
       | Working s => Returns (saveCache stringify now oils s.1)
       | Waiting s => Waits s.1
       end.

End Processes.

(** [this.similarityMatrix[key]?.similarity || 50] *)
Definition similarityOr50 (e : option SimEntry) : R :=
  match e with
  | Some e => orNum (similarity e) 50
  | None => 50
  end.

(** [createDistanceMatrix()], with [this.oilNames] and the entries of
    [this.similarityMatrix] as arguments. *)
Definition createDistanceMatrix (oilNames : list string)
    (similarityMatrix : gmap string SimEntry) : list (list R) :=
  let n := length oilNames in
  let distances := newMatrix n 0 in
  forLoop 0 n (λ i distances,
    forLoop 0 n (λ j distances,
      if (i =? j)%nat then set2 distances i j 0
      else
        let key := getSimilarityKey (oilNames !!! i) (oilNames !!! j) in
        let similarity := similarityOr50 (similarityMatrix !! key) in
        set2 distances i j ((100 - similarity) / 100))
      distances)
    distances.

(** The stored scores respect the declared range 0..100. *)
Definition scoresWithinBounds (similarityMatrix : gmap string SimEntry) : Prop :=
  ∀ key e, similarityMatrix !! key = Some e → 0 <= similarity e <= 100.

(** [centerDistanceMatrix(distances)] on real numbers. *)
Definition centerDistanceMatrix (distances : list (list R)) : list (list R) :=
  let n := length distances in
  let centered := newMatrix n 0 in
  let rowMeans := (λ row, sumOf row / INR n) <$> distances in
  let colMeans :=
    forLoop 0 n (λ j colMeans,
      let colMeans :=
        forLoop 0 n (λ i colMeans,
          <[j := colMeans !!! j + (distances !!! i) !!! j]> colMeans) colMeans in
      <[j := colMeans !!! j / INR n]> colMeans)
      (replicate n 0) in
  let grandMean := sumOf rowMeans / INR n in
  forLoop 0 n (λ i centered,
    forLoop 0 n (λ j centered,
      set2 centered i j
        ((distances !!! i) !!! j - rowMeans !!! i - colMeans !!! j + grandMean))
      centered)
    centered.

End LLMScentEmbeddings.

(* ===================================================================== *)
(** * [testAISimilarity.js]: the distance builder of AINotesVisualization *)
(* ===================================================================== *)

Module AINotesVisualization.

(** The template [`${oil1}-${oil2}`] that keys [this.similarities]. *)
Definition pairKey (oil1 oil2 : string) : string :=
  (oil1 +:+ "-" +:+ oil2)%string.

(** [this.similarities[`${oil1}-${oil2}`] || 0] *)
Definition similarityOr0 (s : option R) : R :=
  match s with
  | Some s => orNum s 0
  | None => 0
  end.

(** The distance matrix built at the head of [generateEmbeddings()], with
    [this.oils] and [this.similarities] as arguments. *)
Definition distanceMatrix (oils : list string) (similarities : gmap string R)
    : list (list R) :=
  let n := length oils in
  let distances := newMatrix n 0 in
  forLoop 0 n (λ i distances,
    forLoop 0 n (λ j distances,
      let oil1 := oils !!! i in
      let oil2 := oils !!! j in
      let similarity := similarityOr0 (similarities !! pairKey oil1 oil2) in
      set2 distances i j (1 - similarity))
      distances)
    distances.

(** [generateAISimilarityMatrix()], with [this.oils] and the value that
    [getLLMNoteSimilarity] resolves to as arguments; the promise always
    resolves, and the value is read as a number. *)
Definition generateAISimilarityMatrix (getLLMNoteSimilarity : string → string → R)
    (oils : list string) (similarities : gmap string R) : gmap string R :=
  let n := length oils in
  let similarities :=
    forLoop 0 n (λ i similarities,
      forLoop (i + 1) n (λ j similarities,
        let oil1 := oils !!! i in
        let oil2 := oils !!! j in
        let similarity := getLLMNoteSimilarity oil1 oil2 in
        <[pairKey oil2 oil1 := similarity]>
          (<[pairKey oil1 oil2 := similarity]> similarities))
        similarities)
      similarities in
  fold_left (λ similarities oil, <[pairKey oil oil := 1]> similarities)
    oils similarities.

End AINotesVisualization.

(* ===================================================================== *)
(** * [generateFastAIDemo.js]: fallback similarity, force-directed layout *)
(* ===================================================================== *)

Module FastAIDemo.

(** [intensityMap] *)
Definition intensityMap (i : Intensity) : R :=
  match i with
  | light => 1
  | medium => 2
  | strong => 3
  | heavy => 4
  end.

(** [new Set(xs)], as the list of its elements in insertion order. *)
Definition newSet (xs : list string) : list string :=
  fold_left (λ set x, if decide (x ∈ set) then set else set ++ [x]) xs [].

(** [getFallbackSimilarity(oil1, oil2)].  [None] stands for a call with no
    numeric result: an identifier missing from the catalog (a field of
    [undefined] is read) or an empty union of notes (0/0). *)
Definition getFallbackSimilarity (essentialOils : Catalog) (oil1 oil2 : string)
    : option R :=
  data1 ← lookupOil essentialOils oil1;
  data2 ← lookupOil essentialOils oil2;
  let similarity := 0 in
  let similarity :=
    if decide (category data1 = category data2) then similarity + 0.4
    else similarity in
  let intensityDiff :=
    Rabs (intensityMap (intensity data1) - intensityMap (intensity data2)) in
  let similarity := similarity + (4 - intensityDiff) / 4 * 0.3 in
  let notes1 := newSet (notes data1) in
  let notes2 := newSet (notes data2) in
  let intersection := newSet (filter (λ x, x ∈ notes2) notes1) in
  let union := newSet (notes1 ++ notes2) in
  if decide (length union = 0%nat) then None
  else
    let similarity :=
      similarity + (INR (length intersection) / INR (length union)) * 0.3 in
    Some (Rmax 0 (Rmin 1 similarity)).

(** An entry of [coords] or of [forces]. *)
Record Point := { x : R; y : R }.

(** [`${oil1}-${oil2}`] *)
Definition pairKey (oil1 oil2 : string) : string :=
  (oil1 +:+ "-" +:+ oil2)%string.

(** [Math.sqrt(dx * dx + dy * dy) || 0.001] *)
Definition flooredDistance (dx dy : R) : R :=
  orNum (sqrt (dx * dx + dy * dy)) 0.001.

Section Layout.

(** [this.demoOils] and [this.similarities] *)
Variable demoOils : list string.
Variable similarities : gmap string R.

(** The successive results of [Math.random()]. *)
Variable random : nat → R.

(** The first [forEach]: item number [k] takes draws [2k] and [2k+1]. *)
Definition initialCoords : gmap string Point :=
  (fold_left (λ '(coords, k) oil,
     (<[oil := {| x := (random k - 0.5) * 2;
                  y := (random (k + 1) - 0.5) * 2 |}]> coords, (k + 2)%nat))
     demoOils (∅, 0%nat)).1.

(** [forces[oil] = { x: 0, y: 0 }] for every item. *)
Definition zeroForces : gmap string Point :=
  fold_left (λ forces oil, <[oil := {| x := 0; y := 0 |}]> forces) demoOils ∅.

(** The body of the pair loop.  [None]: a read that yields no number (an
    identifier without coordinates, a pair without a similarity). *)
Definition pairForce (coords : gmap string Point) (i j : nat)
    (forces : gmap string Point) : option (gmap string Point) :=
  let oil1 := demoOils !!! i in
  let oil2 := demoOils !!! j in
  c1 ← coords !! oil1;
  c2 ← coords !! oil2;
  let dx := x c1 - x c2 in
  let dy := y c1 - y c2 in
  let distance := flooredDistance dx dy in
  similarity ← similarities !! pairKey oil1 oil2;
  let targetDistance := 1 - similarity in
  let force := (distance - targetDistance) * 0.1 in
  let forces :=
    alter (λ f, {| x := x f - force * dx / distance;
                   y := y f - force * dy / distance |}) oil1 forces in
  let forces :=
    alter (λ f, {| x := x f + force * dx / distance;
                   y := y f + force * dy / distance |}) oil2 forces in
  Some forces.

(** The last [forEach] of an iteration: [coords[oil] += forces[oil]]. *)
Definition applyForces (forces coords : gmap string Point) : gmap string Point :=
  fold_left (λ coords oil,
    match forces !! oil with
    | Some f => alter (λ c, {| x := x c + x f; y := y c + y f |}) oil coords
    | None => coords
    end) demoOils coords.

(** One round of the [iter] loop. *)
Definition iteration (coords : gmap string Point) : option (gmap string Point) :=
  let n := length demoOils in
  forces ← forLoopM 0 n (λ i forces,
              forLoopM (i + 1) n (λ j forces, pairForce coords i j forces) forces)
            zeroForces;
  Some (applyForces forces coords).

(** [iters] rounds from [coords]. *)
Fixpoint iterations (iters : nat) (coords : gmap string Point)
    : option (gmap string Point) :=
  match iters with
  | O => Some coords
  | S k => iteration coords ≫= iterations k
  end.

(** [generateEmbeddings()]: the coordinates stored in [this.embeddings]
    (the copied catalog fields are left out). *)
Definition generateEmbeddings : option (gmap string Point) :=
  iterations 200 initialCoords.

End Layout.

(** The Euclidean distance between two laid-out points. *)
Definition realizedDistance (p q : Point) : R :=
  sqrt ((x p - x q) * (x p - x q) + (y p - y q) * (y p - y q)).

(** [generateSimilarities()], with [this.demoOils] and the value that
    [getLLMSimilarity] resolves to as arguments. *)
Definition generateSimilarities (getLLMSimilarity : string → string → R)
    (demoOils : list string) (similarities : gmap string R) : gmap string R :=
  let n := length demoOils in
  let similarities :=
    forLoop 0 n (λ i similarities,
      forLoop (i + 1) n (λ j similarities,
        let oil1 := demoOils !!! i in
        let oil2 := demoOils !!! j in
        let similarity := getLLMSimilarity oil1 oil2 in
        <[pairKey oil2 oil1 := similarity]>
          (<[pairKey oil1 oil2 := similarity]> similarities))
        similarities)
      similarities in
  fold_left (λ similarities oil, <[pairKey oil oil := 1]> similarities)
    demoOils similarities.

(** [s.split(c)] for a single character [c]. *)
Fixpoint split (c : Ascii.ascii) (s : string) : list string :=
  match s with
  | EmptyString => [EmptyString]
  | String x rest =>
      match split c rest with
      | current :: more =>
          if decide (x = c) then EmptyString :: current :: more
          else String x current :: more
      | [] => []
      end
  end.

(** The outcome of the subprocess of [getLLMSimilarity], as the handler that
    resolves the promise sees it. *)
Inductive ProcessOutcome :=
  | Closed (output : string)
  | SpawnError
  | TimedOut.

Section GetLLMSimilarity.

(** [parseFloat]; [None] is NaN. *)
Variable parseFloat : string → option R.

(** [parseFloat(score) || 0.5] *)
Definition parsedOrHalf (score : string) : R :=
  match parseFloat score with
  | Some x => orNum x 0.5
  | None => 0.5
  end.

(** The loop over the lines in the [close] handler: the first line that starts
    with the marker decides, the marker being cut off by [line.replace]. *)
Fixpoint scanLines (lines : list string) (similarity : R) : R :=
  match lines with
  | [] => similarity
  | line :: rest =>
      if String.prefix "SIMILARITY_RESULT:" line then
        let score := String.substring 18 (String.length line - 18) line in
        Rmax 0 (Rmin 1 (parsedOrHalf score))
      else scanLines rest similarity
  end.

(** The value resolved by the [close] handler. *)
Definition closeSimilarity (output : string) : R :=
  scanLines (split "010"%char output) 0.5.

(** [getLLMSimilarity(oil1, oil2)], given the outcome of the subprocess;
    [None] when the fallback has no numeric result. *)
Definition getLLMSimilarity (essentialOils : Catalog) (oil1 oil2 : string)
    (outcome : ProcessOutcome) : option R :=
  match outcome with
  | Closed output => Some (closeSimilarity output)
  | SpawnError => getFallbackSimilarity essentialOils oil1 oil2
  | TimedOut => getFallbackSimilarity essentialOils oil1 oil2
  end.

End GetLLMSimilarity.

End FastAIDemo.

(* ===================================================================== *)
(** * [scentEmbeddings.js]: vocabulary and TF-IDF feature vectors *)
(* ===================================================================== *)

Module ScentEmbeddings.

(** [buildVocabulary()]: every note of every item is added to the set
    [this.vocabulary]; the result is [Array.from(this.vocabulary)]. *)
Definition buildVocabulary (oils : Catalog) : list string :=
  fold_left (λ vocabulary '(_, oilData),
    fold_left (λ vocabulary note,
      if decide (note ∈ vocabulary) then vocabulary else vocabulary ++ [note])
      (notes oilData) vocabulary)
    oils [].

(** [documentFreq[note]] after the first loop of [createEmbeddings()]. *)
Definition documentFreq (oils : Catalog) (note : string) : nat :=
  fold_left (λ count '(_, oilData),
    if decide (note ∈ notes oilData) then S count else count) oils 0%nat.

(** The array [embedding] of one item: zero-filled, then written at the index
    of each vocabulary note that the item includes. *)
Definition embedding (oils : Catalog) (vocabularyArray : list string)
    (oilData : OilData) : list R :=
  let totalDocuments := length (catalogKeys oils) in
  imap (λ index note,
    if decide (note ∈ notes oilData) then
      let tf := 1 / INR (length (notes oilData)) in
      let idf := ln (INR totalDocuments / INR (documentFreq oils note)) in
      tf * idf
    else 0) vocabularyArray.

(** [createEmbeddings()]: the entries of [this.embeddings]. *)
Definition createEmbeddings (oils : Catalog) (vocabularyArray : list string)
    : list (string * list R) :=
  (λ '(oilName, oilData), (oilName, embedding oils vocabularyArray oilData)) <$> oils.

(** [buildVocabulary()] followed by [createEmbeddings()]. *)
Definition vectorize (oils : Catalog) : list (string * list R) :=
  createEmbeddings oils (buildVocabulary oils).




(** [normalizeVector(vector)] on binary64 floats, as the code computes it. *)
Definition normalizeVectorFloat (vector : list PrimFloat.float)
    : list PrimFloat.float :=
  let magnitude :=
    PrimFloat.sqrt
      (fold_left (λ sum val, PrimFloat.add sum (PrimFloat.mul val val))
         vector PrimFloat.zero) in
  if PrimFloat.ltb PrimFloat.zero magnitude
  then (λ val, PrimFloat.div val magnitude) <$> vector
  else vector.

End ScentEmbeddings.

(* ===================================================================== *)
(** * The classical-MDS path on binary64 floats *)
(* ===================================================================== *)

Module ClassicalMDS.

Import PrimFloat.
Local Open Scope float_scope.

(** A read outside an array is [undefined], which arithmetic turns into NaN. *)
#[export] Instance float_inhabited : Inhabited float := populate nan.

(** The number [n] of an array length. *)
Definition ofNat (n : nat) : float := of_uint63 (Uint63.of_nat n).

(** [xs.reduce((sum, val) => sum + val, 0)] *)
Definition sum (xs : list float) : float :=
  fold_left (λ sum val, sum + val) xs 0.

(** [dotProduct(a, b)]: [a.reduce((sum, val, i) => sum + val * b[i], 0)] *)
Definition dotProduct (a b : list float) : float :=
  fold_left (λ sum '(i, val), sum + val * (b !!! i)) (imap pair a) 0.

(** [matrixVectorMultiply(matrix, vector)] *)
Definition matrixVectorMultiply (matrix : list (list float)) (vector : list float)
    : list float :=
  map (λ row, dotProduct row vector) matrix.

(** [centerDistanceMatrix(distances)] of [llmScentEmbeddings.js] *)
Definition centerDistanceMatrix (distances : list (list float)) : list (list float) :=
  let n := length distances in
  let centered := newMatrix n 0 in
  let rowMeans := map (λ row, sum row / ofNat n) distances in
  let colMeans :=
    forLoop 0 n (λ j colMeans,
      let colMeans :=
        forLoop 0 n (λ i colMeans,
          <[j := colMeans !!! j + (distances !!! i) !!! j]> colMeans) colMeans in
      <[j := colMeans !!! j / ofNat n]> colMeans)
      (replicate n 0) in
  let grandMean := sum rowMeans / ofNat n in
  forLoop 0 n (λ i centered,
    forLoop 0 n (λ j centered,
      set2 centered i j
        ((distances !!! i) !!! j - rowMeans !!! i - colMeans !!! j + grandMean))
      centered)
    centered.

(** [deflateMatrix(matrix, eigenvector, eigenvalue)] *)
Definition deflateMatrix (matrix : list (list float)) (eigenvector : list float)
    (eigenvalue : float) : list (list float) :=
  let n := length matrix in
  forLoop 0 n (λ i deflated,
    forLoop 0 n (λ j deflated,
      set2 deflated i j
        ((matrix !!! i) !!! j - eigenvalue * eigenvector !!! i * eigenvector !!! j))
      deflated)
    (newMatrix n 0).

(** One round of the power iteration: multiply, take the norm, divide. *)
Definition powerStep (workingMatrix : list (list float)) (vector : list float)
    : list float :=
  let newVector := matrixVectorMultiply workingMatrix vector in
  let norm := sqrt (fold_left (λ sum val, sum + val * val) newVector 0) in
  map (λ val, val / norm) newVector.

(** The state of the loop over [e] in [eigenDecomposition]: the two result
    arrays, the working matrix and the number of draws taken so far. *)
Record EigenState := {
  eigenvalues : list float;
  eigenvectors : list (list float);
  workingMatrix : list (list float);
  draws : nat
}.

(** [eigenDecomposition(matrix)], with the successive results of
    [Math.random()] as [random]; returns the eigenvalues and the transposed
    eigenvector matrix. *)
Definition eigenDecomposition (random : nat → float) (matrix : list (list float))
    : list float * list (list float) :=
  let n := length matrix in
  let maxEigen := 2%nat in
  let final :=
    forLoop 0 maxEigen (λ e st,
      let vector := map (λ i, random (draws st + i)%nat - 0.5) (seq 0 n) in
      let vector := Nat.iter 100 (powerStep (workingMatrix st)) vector in
      let matVec := matrixVectorMultiply (workingMatrix st) vector in
      let eigenvalue := dotProduct vector matVec in
      {| eigenvalues := eigenvalues st ++ [eigenvalue];
         eigenvectors := eigenvectors st ++ [vector];
         workingMatrix := deflateMatrix (workingMatrix st) vector eigenvalue;
         draws := (draws st + n)%nat |})
      {| eigenvalues := []; eigenvectors := [];
         workingMatrix := matrix; draws := 0 |} in
  let eigenvectorMatrix :=
    map (λ i, map (λ vec, vec !!! i) (eigenvectors final)) (seq 0 n) in
  (eigenvalues final, eigenvectorMatrix).

(** [performMDS(distances, dimensions)] *)
Definition performMDS (random : nat → float) (distances : list (list float))
    (dimensions : nat) : list (list float) :=
  let n := length distances in
  let centeredDistances := centerDistanceMatrix distances in
  let '(eigenvalues, eigenvectors) := eigenDecomposition random centeredDistances in
  forLoop 0 n (λ i coordinates,
    forLoop 0 dimensions (λ d coordinates,
      set2 coordinates i d
        (sqrt (abs (eigenvalues !!! d)) * (eigenvectors !!! i) !!! d))
      coordinates)
    (replicate n (replicate dimensions 0)).

(** The matrix [centered] of [simpleMDS(distances)] in [testAISimilarity.js]. *)
Definition simpleMDSCentered (distances : list (list float)) : list (list float) :=
  let n := length distances in
  forLoop 0 n (λ i centered,
    forLoop 0 n (λ j centered,
      let d_sq := (distances !!! i) !!! j * (distances !!! i) !!! j in
      let row_mean :=
        fold_left (λ sum val, sum + val * val) (distances !!! i) 0 / ofNat n in
      let col_mean :=
        sum (map (λ row, row !!! j * row !!! j) distances) / ofNat n in
      let total_mean :=
        sum (map (λ val, val * val) (concat distances)) / (ofNat n * ofNat n) in
      set2 centered i j (-0.5 * (d_sq - row_mean - col_mean + total_mean)))
      centered)
    (newMatrix n 0).

(** The centering step as the specification words it: square each entry, then
    [B[i][j] = -0.5 * (D2[i][j] - rowMean(D2)[i] - colMean(D2)[j] + grandMean(D2))]. *)
Definition doubleCenteredSquares (distances : list (list float)) : list (list float) :=
  let n := length distances in
  let squared := map (map (λ d, d * d)) distances in
  let rowMean i := sum (squared !!! i) / ofNat n in
  let colMean j := sum (map (λ row, row !!! j) squared) / ofNat n in
  let grandMean := sum (concat squared) / (ofNat n * ofNat n) in
  map (λ i, map (λ j,
    -0.5 * ((squared !!! i) !!! j - rowMean i - colMean j + grandMean))
    (seq 0 n)) (seq 0 n).

(** Every coordinate of an embedding is a finite number. *)
Definition allFinite (coordinates : list (list float)) : bool :=
  forallb (forallb is_finite) coordinates.

(** Every coordinate of an embedding is NaN. *)
Definition allNaN (coordinates : list (list float)) : bool :=
  forallb (forallb is_nan) coordinates.

End ClassicalMDS.

(* ===================================================================== *)
(** * [testAISimilarity.js]: the comparison of AINotesVisualization *)
(* ===================================================================== *)

Module AINotesSimilarity.

(** [getFallbackSimilarity(oil1, oil2)]: the text of this method is the one of
    [generateFastAIDemo.js]. *)
Definition getFallbackSimilarity : Catalog → string → string → option R :=
  FastAIDemo.getFallbackSimilarity.

(** What the promise of [getLLMNoteSimilarity] settles to: a number, NaN, or a
    rejection. *)
Inductive Settled :=
  | Number (similarity : R)
  | NotANumber
  | Rejected.

(** The outcome of the subprocess, as the handler that settles the promise
    sees it. *)
Inductive ProcessOutcome :=
  | Closed (code : Z) (output : string)
  | SpawnError
  | TimedOut.

Section GetLLMNoteSimilarity.

(** [parseFloat] ([None] is NaN) and [String.prototype.trim]. *)
Variable parseFloat : string → option R.
Variable trim : string → string.

(** The loop over the lines in the [close] handler: the first line that, once
    trimmed, starts with the marker decides. *)
Fixpoint scanLines (lines : list string) (similarity : Settled) : Settled :=
  match lines with
  | [] => similarity
  | line :: rest =>
      let trimmed := trim line in
      if String.prefix "SIMILARITY_RESULT:" trimmed then
        let score := String.substring 18 (String.length trimmed - 18) trimmed in
        match parseFloat score with
        | Some x => Number (Rmax 0 (Rmin 1 x))
        | None => NotANumber
        end
      else scanLines rest similarity
  end.

(** The value resolved through [getFallbackSimilarity]. *)
Definition fallback (essentialOils : Catalog) (oil1 oil2 : string) : Settled :=
  match getFallbackSimilarity essentialOils oil1 oil2 with
  | Some similarity => Number similarity
  | None => NotANumber
  end.

(** [getLLMNoteSimilarity(oil1, oil2)], given the outcome of the subprocess.
    The prompt reads the fields of both catalog records first, which throws
    for a name that is not in the catalog. *)
Definition getLLMNoteSimilarity (essentialOils : Catalog) (oil1 oil2 : string)
    (outcome : ProcessOutcome) : Settled :=
  match lookupOil essentialOils oil1, lookupOil essentialOils oil2 with
  | Some _, Some _ =>
      match outcome with
      | Closed code output =>
          if decide (code = 0%Z)
          then scanLines (FastAIDemo.split "010"%char output) (Number 0.5)
          else fallback essentialOils oil1 oil2
      | SpawnError => fallback essentialOils oil1 oil2
      | TimedOut => fallback essentialOils oil1 oil2
      end
  | _, _ => Rejected
  end.

End GetLLMNoteSimilarity.

End AINotesSimilarity.

(* ===================================================================== *)
(** * [llmService.js]: the persistent comparison service *)
(* ===================================================================== *)

Module LLMService.

(** [\d]: an ASCII decimal digit. *)
Definition isDigit (c : Ascii.ascii) : bool :=
  (48 <=? nat_of_ascii c)%nat && (nat_of_ascii c <=? 57)%nat.

(** The digits at the start of [s]: the rest of a greedy [\d+]. *)
Fixpoint digitRun (s : string) : string :=
  match s with
  | EmptyString => EmptyString
  | String c rest => if isDigit c then String c (digitRun rest) else EmptyString
  end.

(** [response.match(/(\d+)/)]: the first, longest run of digits; [None] is
    [null]. *)
Fixpoint scoreMatch (response : string) : option string :=
  match response with
  | EmptyString => None
  | String c rest =>
      if isDigit c then Some (String c (digitRun rest)) else scoreMatch rest
  end.

(** [parseInt(digits)] on a string of decimal digits.  The value is exact
    here; JavaScript rounds values beyond 2^53, all of which are above the
    bound 100 applied next. *)
Fixpoint parseIntFrom (value : N) (digits : string) : N :=
  match digits with
  | EmptyString => value
  | String c rest => parseIntFrom (10 * value + N.of_nat (nat_of_ascii c - 48))%N rest
  end.

Definition parseInt (digits : string) : N := parseIntFrom 0%N digits.

(** The service at the time of a call: loaded ([this.isLoaded]); not loaded,
    with a load started by the call or under way that succeeds; or not
    loaded, with no load that succeeds ([initialize] throws). *)
Inductive ServiceState :=
  | Loaded
  | LoadSucceeds
  | LoadFails.

(** The promise that [compareSimilarity] returns. *)
Inductive Outcome :=
  | Resolves (result : LLMScentEmbeddings.SimEntry)
  | Rejects
  | StaysQueued.

(** The promise of a comparison that has been made. *)
Definition settled (result : option LLMScentEmbeddings.SimEntry) : Outcome :=
  match result with
  | Some result => Resolves result
  | None => Rejects
  end.

Section Service.

(** The catalog; the reply of the model to the prompt for a pair ([None]: the
    call is rejected); [String.prototype.trim]; [new Date().toISOString()]. *)
Variable essentialOils : Catalog.
Variable run : string → string → option string.
Variable trim : string → string.
Variable now : string.

(** [_compareSimilarity(oil1, oil2)]; [None] is a thrown error. *)
Definition _compareSimilarity (oil1 oil2 : string)
    : option LLMScentEmbeddings.SimEntry :=
  match lookupOil essentialOils oil1, lookupOil essentialOils oil2 with
  | Some _, Some _ =>
      response ← run oil1 oil2;
      let score :=
        match scoreMatch response with
        | Some digits => parseInt digits
        | None => 50%N
        end in
      let validScore := N.max 0 (N.min 100 score) in
      Some {| LLMScentEmbeddings.oil1 := oil1;
              LLMScentEmbeddings.oil2 := oil2;
              LLMScentEmbeddings.similarity := IZR (Z.of_N validScore);
              LLMScentEmbeddings.reasoning := trim response;
              LLMScentEmbeddings.timestamp := now |}
  | _, _ => None
  end.

(** [compareSimilarity(oil1, oil2)].  On a loaded service the comparison is
    made at once.  Otherwise [initialize] is started without [await] unless a
    load is under way, and the request is queued: when the load succeeds,
    [processQueue] makes the comparison and settles the request with its
    outcome; when no load succeeds, nothing takes the request from the
    queue. *)
Definition compareSimilarity (service : ServiceState) (oil1 oil2 : string)
    : Outcome :=
  match service with
  | Loaded => settled (_compareSimilarity oil1 oil2)
  | LoadSucceeds => settled (_compareSimilarity oil1 oil2)
  | LoadFails => StaysQueued
  end.

(** The entry pushed in the [catch] branch of [batchCompareSimilarity]. *)
Definition fallbackResult (oil1 oil2 : string) : LLMScentEmbeddings.SimEntry :=
  let sameCategory :=
    bool_decide (category <$> lookupOil essentialOils oil1
                 = category <$> lookupOil essentialOils oil2) in
  {| LLMScentEmbeddings.oil1 := oil1;
     LLMScentEmbeddings.oil2 := oil2;
     LLMScentEmbeddings.similarity := if sameCategory then 60 else 30;
     LLMScentEmbeddings.reasoning :=
       "Fallback score: " +:+
       (if sameCategory then "same category" else "different categories");
     LLMScentEmbeddings.timestamp := now |}.

(** [batchCompareSimilarity(pairs)], from the state of the service at the
    call; [None] when an [await] never ends, so that the call does not
    return.  A request that has settled leaves a loaded service. *)
Definition batchCompareSimilarity (service : ServiceState)
    (pairs : list (string * string)) : option (list LLMScentEmbeddings.SimEntry) :=
  snd <$>
    fold_left (λ acc '(oil1, oil2),
      '(service, results) ← acc;
      match compareSimilarity service oil1 oil2 with
      | Resolves result => Some (Loaded, results ++ [result])
      | Rejects => Some (Loaded, results ++ [fallbackResult oil1 oil2])
      | StaysQueued => None
      end) pairs (Some (service, [])).

End Service.

End LLMService.

(* ===================================================================== *)
(** * The blend server: the fallback blend *)
(* ===================================================================== *)

Module Server.

(** One element of [selectedOils]. *)
Record Selected := {
  oil : string;
  note : NoteType;
  percentage : N
}.

(** A string is falsy when it is empty; [null] is falsy. *)
Definition truthy (o : option string) : bool :=
  match o with
  | Some s => if decide (s = ""%string) then false else true
  | None => false
  end.

(** [if (!slot && remaining.length > 0) slot = remaining.shift()] *)
Definition fillFrom (slot : option string) (remaining : list string)
    : option string * list string :=
  if truthy slot then (slot, remaining)
  else match remaining with
       | first :: rest => (Some first, rest)
       | [] => (slot, remaining)
       end.

(** [xs.join(sep)] *)
Fixpoint join (sep : string) (xs : list string) : string :=
  match xs with
  | [] => ""
  | [x] => x
  | x :: rest => x +:+ sep +:+ join sep rest
  end.

Section DemoBlend.

(** [String.prototype.toLowerCase] and the catalog. *)
Variable toLowerCase : string → string.
Variable essentialOils : Catalog.

(** The filter of [topNotes].  A name that is no key of the catalog passes no
    filter: [oilData] is [undefined], or an inherited property without the
    three fields. *)
Definition isTopNote (oil : string) : bool :=
  match lookupOil essentialOils (toLowerCase oil) with
  | Some oilData =>
      bool_decide (category oilData = "citrus"%string)
      || (bool_decide (category oilData = "herbal"%string)
          && match intensity oilData with strong => true | _ => false end
          && bool_decide ("fresh"%string ∈ notes oilData))
  | None => false
  end.

(** The filter of [middleNotes]. *)
Definition isMiddleNote (oil : string) : bool :=
  match lookupOil essentialOils (toLowerCase oil) with
  | Some oilData =>
      bool_decide (category oilData = "floral"%string)
      || bool_decide (category oilData = "resinous"%string)
      || (bool_decide (category oilData = "herbal"%string)
          && match intensity oilData with medium => true | _ => false end)
  | None => false
  end.

(** The filter of [baseNotes]. *)
Definition isBaseNote (oil : string) : bool :=
  match lookupOil essentialOils (toLowerCase oil) with
  | Some oilData =>
      bool_decide (category oilData = "woody"%string)
      || bool_decide (category oilData = "earthy"%string)
      || match intensity oilData with heavy => true | _ => false end
  | None => false
  end.

(** The array [selectedOils] of [generateDemoBlend(oils, description)]. *)
Definition selectedOils (oils : list string) : list Selected :=
  let topNotes := filter (λ oil, isTopNote oil) oils in
  let middleNotes := filter (λ oil, isMiddleNote oil) oils in
  let baseNotes := filter (λ oil, isBaseNote oil) oils in
  let topOil := head topNotes in
  let middleOil := head middleNotes in
  let baseOil := head baseNotes in
  let used := omap (λ o, o) (filter (λ o, truthy o) [topOil; middleOil; baseOil]) in
  let remaining := filter (λ oil, oil ∉ used) oils in
  let '(topOil, remaining) := fillFrom topOil remaining in
  let '(middleOil, remaining) := fillFrom middleOil remaining in
  let '(baseOil, remaining) := fillFrom baseOil remaining in
  omap (λ '(item, note, percentage),
          (λ oil, {| oil := oil; note := note; percentage := percentage |}) <$> item)
       [(middleOil, MIDDLE, 50%N); (baseOil, BASE, 30%N); (topOil, TOP, 20%N)].

(** [noteReasons[note]] *)
Definition noteReasons (note : NoteType) : string :=
  match note with
  | TOP => "Light opening note that provides initial impression"
  | MIDDLE => "Heart of the blend providing main character"
  | BASE => "Foundation note that grounds and anchors the blend"
  end.

Definition noteName (note : NoteType) : string :=
  match note with TOP => "TOP" | MIDDLE => "MIDDLE" | BASE => "BASE" end.

(** The line feed. *)
Definition newline : string := String "010"%char "".

(** The double quote. *)
Definition quote : string := String "034"%char "".

(** [generateDemoBlend(oils, description)] *)
Definition generateDemoBlend (oils : list string) (description : string) : string :=
  let blendLines :=
    join newline
      ((λ s, "- " +:+ oil s +:+ ": " +:+ pretty (percentage s) +:+ "% - "
             +:+ noteName (note s) +:+ " note - " +:+ noteReasons (note s))
       <$> selectedOils oils) in
  "BLEND RECOMMENDATION:" +:+ newline +:+ blendLines +:+ newline +:+ newline
  +:+ "TOTAL: 100%" +:+ newline +:+ newline
  +:+ "SCENT PROFILE: A professionally balanced 3-oil blend following perfumery principles with distinct top, middle, and base notes for "
  +:+ quote +:+ description +:+ quote +:+ ".".

End DemoBlend.

(** The sum of the percentages of a selection. *)
Definition totalPercentage (selected : list Selected) : N :=
  foldr (λ s total, (percentage s + total)%N) 0%N selected.

End Server.

(* ===================================================================== *)
(** * [testAISimilarity.js]: the perfumery-notes visualization *)
(* ===================================================================== *)

Module PerfumeryNotesVisualization.

(** [determineNoteType(oilData)] *)
Definition determineNoteType (oilData : OilData) : NoteType :=
  if bool_decide (category oilData = "citrus"%string)
     || (bool_decide (category oilData = "herbal"%string)
         && match intensity oilData with strong => true | _ => false end
         && bool_decide ("fresh"%string ∈ notes oilData))
  then TOP
  else if bool_decide (category oilData = "woody"%string)
          || bool_decide (category oilData = "earthy"%string)
          || bool_decide (category oilData = "resinous"%string)
          || match intensity oilData with heavy => true | _ => false end
  then BASE
  else MIDDLE.

(** An element of [this.noteClassification[noteType].oils]. *)
Record Classified := {
  name : string;
  data : OilData;
  noteType : NoteType
}.

(** The three arrays [this.noteClassification.TOP.oils], [.MIDDLE.oils] and
    [.BASE.oils]: the state of an instance. *)
Record Classification := {
  topOils : list Classified;
  middleOils : list Classified;
  baseOils : list Classified
}.

(** The state after the constructor. *)
Definition fresh : Classification :=
  {| topOils := []; middleOils := []; baseOils := [] |}.

(** [this.noteClassification[noteType].oils] *)
Definition oilsOf (noteType : NoteType) (st : Classification) : list Classified :=
  match noteType with
  | TOP => topOils st
  | MIDDLE => middleOils st
  | BASE => baseOils st
  end.

(** [this.noteClassification[noteType].oils.push(item)] *)
Definition push (noteType : NoteType) (item : Classified) (st : Classification)
    : Classification :=
  match noteType with
  | TOP => {| topOils := topOils st ++ [item]; middleOils := middleOils st;
              baseOils := baseOils st |}
  | MIDDLE => {| topOils := topOils st; middleOils := middleOils st ++ [item];
                 baseOils := baseOils st |}
  | BASE => {| topOils := topOils st; middleOils := middleOils st;
               baseOils := baseOils st ++ [item] |}
  end.

(** [classifyOilsByPerfumeryNotes()] *)
Definition classifyOilsByPerfumeryNotes (essentialOils : Catalog) (st : Classification)
    : Classification :=
  fold_left (λ st '(oilName, oilData),
    let noteType := determineNoteType oilData in
    push noteType {| name := oilName; data := oilData; noteType := noteType |} st)
    essentialOils st.

(** A value of [embeddings]; [oilData] holds the copied fields [category],
    [notes], [intensity] and [description]. *)
Record Embedded := {
  x : R;
  y : R;
  embeddedNoteType : NoteType;
  oilData : OilData
}.

(** [clusterCenters[noteType]] *)
Definition clusterCenters (noteType : NoteType) : R * R :=
  match noteType with
  | TOP => (0.6, 0.7)
  | MIDDLE => (0, 0)
  | BASE => (-0.6, -0.7)
  end.

Section Coordinates.

(** The k-th value returned by [Math.random()]. *)
Variable random : nat → R.

(** The inner [oils.forEach((oil, index) => ...)] for one note type; the state
    is [embeddings] and the number of draws taken. *)
Definition placeOils (noteType : NoteType) (oils : list Classified)
    (s : gmap string Embedded * nat) : gmap string Embedded * nat :=
  let center := clusterCenters noteType in
  fold_left (λ '(embeddings, draws) '(index, oil),
    let angle := INR index / INR (length oils) * 2 * PI in
    let radius := 0.3 + random draws * 0.2 in
    (<[name oil := {| x := center.1 + radius * cos angle;
                      y := center.2 + radius * sin angle;
                      embeddedNoteType := noteType;
                      oilData := data oil |}]> embeddings,
     S draws))
    (imap pair oils) s.

(** [generateCoordinates()]: the note types in the order of the object's
    keys. *)
Definition generateCoordinates (st : Classification) : gmap string Embedded :=
  (fold_left (λ s noteType, placeOils noteType (oilsOf noteType st) s)
     [TOP; MIDDLE; BASE] (∅, 0%nat)).1.

(** The field [metadata] of the result of [generateVisualizationData()]. *)
Record Metadata := {
  totalOils : nat;
  topNotes : nat;
  middleNotes : nat;
  baseNotes : nat
}.

(** [generateVisualizationData()]: the new state, the embeddings and the
    metadata. *)
Definition generateVisualizationData (essentialOils : Catalog) (st : Classification)
    : Classification * gmap string Embedded * Metadata :=
  let st := classifyOilsByPerfumeryNotes essentialOils st in
  let embeddings := generateCoordinates st in
  (st, embeddings,
   {| totalOils := size embeddings;
      topNotes := length (topOils st);
      middleNotes := length (middleOils st);
      baseNotes := length (baseOils st) |}).

End Coordinates.

End PerfumeryNotesVisualization.

(* ===================================================================== *)
(** * Sample inputs *)
(* ===================================================================== *)

Module Samples.

(** Three records of [essentialOils.js]. *)
Definition lavender : OilData :=
  {| notes := ["floral"; "fresh"; "calming"; "sweet"; "herbaceous"];
     intensity := medium;
     category := "floral";
     description := "Classic calming floral with sweet undertones" |}.

Definition bergamot : OilData :=
  {| notes := ["citrus"; "fresh"; "uplifting"; "bright"; "earl grey"];
     intensity := light;
     category := "citrus";
     description := "Bright citrus with distinctive Earl Grey tea character" |}.

Definition rose : OilData :=
  {| notes := ["floral"; "romantic"; "sweet"; "classic"; "feminine"];
     intensity := medium;
     category := "floral";
     description := "Timeless romantic floral sweetness" |}.

Definition catalog : Catalog :=
  [("lavender", lavender); ("bergamot", bergamot); ("rose", rose)].

(** A cache with the single pair lavender/bergamot, scored 80 of 100. *)
Definition oneEntry : gmap string LLMScentEmbeddings.SimEntry :=
  {[ "bergamot|lavender"%string :=
       {| LLMScentEmbeddings.oil1 := "lavender";
          LLMScentEmbeddings.oil2 := "bergamot";
          LLMScentEmbeddings.similarity := 80;
          LLMScentEmbeddings.reasoning := "both fresh";
          LLMScentEmbeddings.timestamp := "2025-01-01T00:00:00.000Z" |} ]}.

(** A cache whose single pair lavender/bergamot is scored 0. *)
Definition zeroEntry : gmap string LLMScentEmbeddings.SimEntry :=
  {[ "bergamot|lavender"%string :=
       {| LLMScentEmbeddings.oil1 := "lavender";
          LLMScentEmbeddings.oil2 := "bergamot";
          LLMScentEmbeddings.similarity := 0;
          LLMScentEmbeddings.reasoning := "nothing in common";
          LLMScentEmbeddings.timestamp := "2025-01-01T00:00:00.000Z" |} ]}.

(** An oracle whose every call is rejected. *)
Definition failingOracle (_ _ : string) : option LLMScentEmbeddings.SimEntry := None.

(** A cache file kept as the object itself. *)
Definition plainStringify (c : LLMScentEmbeddings.CacheFile) : LLMScentEmbeddings.CacheFile := c.
Definition plainParse (c : LLMScentEmbeddings.CacheFile) : option LLMScentEmbeddings.CacheFile :=
  Some c.

(** A cache file with a string under [similarityMatrix], and one with an
    array there. *)
Definition primitiveCache : LLMScentEmbeddings.CacheFile :=
  {| LLMScentEmbeddings.cachedSimilarityMatrix := Some LLMScentEmbeddings.CachedPrimitive;
     LLMScentEmbeddings.cachedTimestamp := "2025-01-01T00:00:00.000Z";
     LLMScentEmbeddings.cachedOilCount := 3 |}.

Definition arrayCache : LLMScentEmbeddings.CacheFile :=
  {| LLMScentEmbeddings.cachedSimilarityMatrix := Some LLMScentEmbeddings.CachedArray;
     LLMScentEmbeddings.cachedTimestamp := "2025-01-01T00:00:00.000Z";
     LLMScentEmbeddings.cachedOilCount := 3 |}.


(** Processes that all fail to start. *)
Definition failingRuns (_ _ : string) : LLMScentEmbeddings.ProcessRun :=
  LLMScentEmbeddings.FailsToStart.

(** An output reader that finds no JSON, and a [parseFloat] that reads no
    number. *)
Definition noJson (_ : string) : option LLMScentEmbeddings.SimEntry := None.

(** A catalog with a single item. *)
Definition soleCatalog : Catalog := [("lavender", lavender)].

(** Two items of the demo, at similarity 0 (target distance 1) and at
    similarity 0.5 (target distance 0.5). *)
Definition twoOils : list string := ["lavender"; "bergamot"]%string.

Definition unlike : gmap string R := {[ "lavender-bergamot"%string := 0 ]}.

Definition halfAlike : gmap string R := {[ "lavender-bergamot"%string := 0.5 ]}.

(** Draws that put both items on one point, and draws that do not. *)
Definition sameDraws (_ : nat) : R := 0.5.

Definition apartDraws (k : nat) : R :=
  match k with
  | O => 0.25
  | _ => 0.5
  end.

(** A cache file whose bytes are either a parsable object or garbage. *)
Definition maybeStringify (c : LLMScentEmbeddings.CacheFile)
    : option LLMScentEmbeddings.CacheFile := Some c.
Definition maybeParse (bytes : option LLMScentEmbeddings.CacheFile)
    : option LLMScentEmbeddings.CacheFile := bytes.

(** A catalog of two items. *)
Definition pairCatalog : Catalog := [("lavender", lavender); ("bergamot", bergamot)].

(** An oracle that answers 80 of 100 for every pair. *)
Definition steadyOracle (a b : string) : option LLMScentEmbeddings.SimEntry :=
  Some {| LLMScentEmbeddings.oil1 := a;
          LLMScentEmbeddings.oil2 := b;
          LLMScentEmbeddings.similarity := 80;
          LLMScentEmbeddings.reasoning := "alike";
          LLMScentEmbeddings.timestamp := "2025-01-01T00:00:00.000Z" |}.

(** A comparison that resolves to 0.5 for every pair. *)
Definition halfOracle (_ _ : string) : R := 0.5.

(** A symmetric matrix of distances, and a matrix of two weight vectors. *)
Definition halfApart : list (list R) := [[0; 0.5]; [0.5; 0]].


(** A model that replies with a score and a remark; identity functions for
    [trim] and [toLowerCase] on text that is already trimmed and lower-case. *)
Definition scoreReply (_ _ : string) : option string := Some "85 - both floral"%string.

Definition sameText (s : string) : string := s.

End Samples.

Module MDSSamples.

Import PrimFloat.
Local Open Scope float_scope.

(** Two items at distance 0.5. *)
Definition halfPair : list (list float) := [[0; 0.5]; [0.5; 0]].

(** Three items at distance 0 from one another (every similarity is 100). *)
Definition allZero : list (list float) := [[0; 0; 0]; [0; 0; 0]; [0; 0; 0]].

(** Results of [Math.random()] for two runs. *)
Definition drawsA (k : nat) : float :=
  match k with
  | 0%nat => 0.8125 | 1%nat => 0.1875 | 2%nat => 0.4375 | 3%nat => 0.5625
  | 4%nat => 0.640625 | 5%nat => 0.28125 | 6%nat => 0.90625 | _ => 0.09375
  end.

Definition drawsB (k : nat) : float :=
  match k with
  | 0%nat => 0.125 | 1%nat => 0.9375 | 2%nat => 0.375 | 3%nat => 0.71875
  | 4%nat => 0.59375 | 5%nat => 0.03125 | 6%nat => 0.46875 | _ => 0.84375
  end.

End MDSSamples.

(* ===================================================================== *)
(** * Loops that fill a matrix *)
(* ===================================================================== *)

Lemma square_newMatrix {A} n (z : A) : square n (newMatrix n z).
Proof.
  split; [apply length_replicate|].
  apply Forall_replicate, length_replicate.
Qed.

Lemma square_set2 {A} n (m : list (list A)) i j v :
  square n m → square n (set2 m i j v).
Proof.
  intros [Hlen Hrows]. split.
  - unfold set2. by rewrite length_alter.
  - unfold set2. apply Forall_alter; [done|].
    intros row _. rewrite length_insert. intros Hrow; exact Hrow.
Qed.

Lemma get2_set2_eq {A} n (m : list (list A)) i j v :
  square n m → (i < n)%nat → (j < n)%nat → get2 (set2 m i j v) i j = Some v.
Proof.
  intros [Hlen Hrows] Hi Hj. unfold get2, set2.
  destruct (lookup_lt_is_Some_2 m i) as [row Hrow]; [lia|].
  rewrite list_lookup_alter_eq, Hrow. simpl.
  apply list_lookup_insert_eq.
  rewrite Forall_forall in Hrows.
  rewrite (Hrows row); [done|]. eapply list_elem_of_lookup_2, Hrow.
Qed.

Lemma get2_set2_ne {A} (m : list (list A)) i j v i' j' :
  (i, j) ≠ (i', j') → get2 (set2 m i j v) i' j' = get2 m i' j'.
Proof.
  intros Hne. unfold get2, set2.
  destruct (decide (i = i')) as [->|Hi].
  - rewrite list_lookup_alter_eq. destruct (m !! i') as [row|]; simpl; [|done].
    apply list_lookup_insert_ne. congruence.
  - by rewrite list_lookup_alter_ne.
Qed.

(** A row loop that writes [f j] at every column of the list [cols]. *)
Lemma fill_row {A} n (f : nat → A) i (cols : list nat) (m : list (list A)) :
  square n m → (i < n)%nat → Forall (λ j, (j < n)%nat) cols →
  square n (fold_left (λ acc j, set2 acc i j (f j)) cols m) ∧
  ∀ i' j', get2 (fold_left (λ acc j, set2 acc i j (f j)) cols m) i' j' =
           if decide (i' = i ∧ j' ∈ cols) then Some (f j') else get2 m i' j'.
Proof.
  intros Hsq Hi Hcols. revert m Hsq.
  induction Hcols as [|a cols Ha Hcols IH]; intros m Hsq; cbn [fold_left].
  - split; [done|]. intros i' j'. case_decide as H; [|done].
    destruct H as [_ H]. by apply elem_of_nil in H.
  - destruct (IH (set2 m i a (f a))) as [Hsq' Hget]; [by apply square_set2|].
    split; [done|]. intros i' j'. rewrite Hget.
    destruct (decide (i' = i ∧ j' ∈ cols)) as [[-> Hin]|Hout].
    + rewrite decide_True; [done|]. split; [done|]. by apply elem_of_cons; right.
    + destruct (decide ((i, a) = (i', j'))) as [Heq|Hne].
      * inversion Heq; subst i' j'.
        rewrite (get2_set2_eq n) by done.
        rewrite decide_True; [done|]. split; [done|]. by apply elem_of_cons; left.
      * rewrite get2_set2_ne by done.
        case_decide as H; [|done]. destruct H as [-> H].
        apply elem_of_cons in H as [->|H]; [congruence|]. by destruct Hout.
Qed.

(** The two nested loops over the rows of [rows] and all columns. *)
Lemma fill_rows {A} n (f : nat → nat → A) (rows : list nat) (m : list (list A)) :
  square n m → Forall (λ i, (i < n)%nat) rows →
  square n (fold_left (λ acc i, fold_left (λ acc j, set2 acc i j (f i j)) (seq 0 n) acc)
              rows m) ∧
  ∀ i' j', (j' < n)%nat →
    get2 (fold_left (λ acc i, fold_left (λ acc j, set2 acc i j (f i j)) (seq 0 n) acc)
            rows m) i' j' =
    if decide (i' ∈ rows) then Some (f i' j') else get2 m i' j'.
Proof.
  intros Hsq Hrows. revert m Hsq.
  assert (Hseq : Forall (λ j, (j < n)%nat) (seq 0 n)).
  { apply Forall_forall. intros j Hj. apply elem_of_seq in Hj. lia. }
  induction Hrows as [|a rows Ha Hrows IH]; intros m Hsq; cbn [fold_left].
  - split; [done|]. intros i' j' _. case_decide as H; [|done].
    by apply elem_of_nil in H.
  - destruct (fill_row n (f a) a (seq 0 n) m Hsq Ha Hseq) as [Hsq1 Hget1].
    destruct (IH _ Hsq1) as [Hsq' Hget]. split; [done|].
    intros i' j' Hj'. rewrite Hget by done.
    destruct (decide (i' ∈ rows)) as [Hin|Hout].
    + rewrite decide_True; [done|]. by apply elem_of_cons; right.
    + rewrite Hget1. destruct (decide (i' = a)) as [->|Hne].
      * rewrite decide_True by (split; [done|apply elem_of_seq; lia]).
        rewrite decide_True; [done|]. by apply elem_of_cons; left.
      * rewrite decide_False by tauto.
        rewrite decide_False; [done|].
        intros H. apply elem_of_cons in H as [?|?]; [congruence|done].
Qed.

Lemma forLoop_ext {S} lo hi (body body' : nat → S → S) s :
  (∀ i acc, body i acc = body' i acc) → forLoop lo hi body s = forLoop lo hi body' s.
Proof.
  intros Hext. unfold forLoop. revert s.
  induction (seq lo (hi - lo)) as [|a l IH]; intros s; simpl; [done|].
  by rewrite Hext, IH.
Qed.

(** Two nested loops over [0..n) whose body writes [f i j] at [i][j] leave a
    square matrix that holds [f i j] everywhere. *)
Lemma fill_loops {A} n (body : nat → nat → list (list A) → list (list A))
    (f : nat → nat → A) (m : list (list A)) :
  (∀ i j acc, body i j acc = set2 acc i j (f i j)) → square n m →
  square n (forLoop 0 n (λ i acc, forLoop 0 n (λ j acc, body i j acc) acc) m) ∧
  ∀ i j, (i < n)%nat → (j < n)%nat →
    get2 (forLoop 0 n (λ i acc, forLoop 0 n (λ j acc, body i j acc) acc) m) i j
    = Some (f i j).
Proof.
  intros Hbody Hsq.
  rewrite (forLoop_ext 0 n _ (λ i acc, forLoop 0 n (λ j acc, set2 acc i j (f i j)) acc)).
  2:{ intros i acc. apply forLoop_ext. intros j acc'. apply Hbody. }
  unfold forLoop. rewrite Nat.sub_0_r.
  assert (Hseq : Forall (λ j, (j < n)%nat) (seq 0 n)).
  { apply Forall_forall. intros j Hj. apply elem_of_seq in Hj. lia. }
  destruct (fill_rows n f (seq 0 n) m Hsq Hseq) as [Hsq' Hget].
  split; [done|]. intros i j Hi Hj. rewrite Hget by done.
  rewrite decide_True; [done|]. apply elem_of_seq. lia.
Qed.

(* ===================================================================== *)
(** * The pair key and the distance matrix *)
(* ===================================================================== *)

Import LLMScentEmbeddings.

Lemma getSimilarityKey_comm a b : getSimilarityKey a b = getSimilarityKey b a.
Proof.
  unfold getSimilarityKey, sortPair, String.ltb.
  rewrite (String.compare_antisym b a).
  destruct (a ?= b)%string eqn:Hcmp; simpl; try done.
  apply String.compare_eq_iff in Hcmp. by subst.
Qed.

Lemma orNum_zero d : orNum 0 d = d.
Proof. unfold orNum. by destruct (Req_dec_T 0 0). Qed.

Lemma orNum_nonzero x d : x ≠ 0 → orNum x d = x.
Proof. intros Hx. unfold orNum. by destruct (Req_dec_T x 0). Qed.

Lemma similarityOr50_bounds (sm : gmap string SimEntry) key :
  scoresWithinBounds sm → 0 <= similarityOr50 (sm !! key) <= 100.
Proof.
  intros Hb. unfold similarityOr50. destruct (sm !! key) as [e|] eqn:He; [|lra].
  specialize (Hb key e He). unfold orNum.
  destruct (Req_dec_T (similarity e) 0); lra.
Qed.

(** What the loops of [createDistanceMatrix] leave in each cell. *)
Lemma createDistanceMatrix_cells (names : list string) (sm : gmap string SimEntry) :
  square (length names) (createDistanceMatrix names sm) ∧
  ∀ i j, (i < length names)%nat → (j < length names)%nat →
    get2 (createDistanceMatrix names sm) i j =
    Some (if (i =? j)%nat then 0
          else (100 - similarityOr50
                        (sm !! getSimilarityKey (names !!! i) (names !!! j))) / 100).
Proof.
  unfold createDistanceMatrix. apply fill_loops; [|apply square_newMatrix].
  intros i j acc. by destruct (i =? j)%nat.
Qed.

(** What the loops of the AINotesVisualization builder leave in each cell. *)
Lemma distanceMatrix_cells (oils : list string) (sims : gmap string R) :
  square (length oils) (AINotesVisualization.distanceMatrix oils sims) ∧
  ∀ i j, (i < length oils)%nat → (j < length oils)%nat →
    get2 (AINotesVisualization.distanceMatrix oils sims) i j =
    Some (1 - AINotesVisualization.similarityOr0
                (sims !! AINotesVisualization.pairKey (oils !!! i) (oils !!! j))).
Proof.
  unfold AINotesVisualization.distanceMatrix.
  apply fill_loops; [done|apply square_newMatrix].
Qed.

(** C1.  When every stored score lies in 0..100, [createDistanceMatrix]
    returns an n-by-n matrix that is symmetric, has a zero diagonal, and has
    every entry between 0 and 1. *)
Theorem createDistanceMatrix_symmetric_bounded
    (names : list string) (sm : gmap string SimEntry) :
  scoresWithinBounds sm →
  square (length names) (createDistanceMatrix names sm) ∧
  ∀ i j, (i < length names)%nat → (j < length names)%nat →
    ∃ dij dji,
      get2 (createDistanceMatrix names sm) i j = Some dij ∧
      get2 (createDistanceMatrix names sm) j i = Some dji ∧
      dij = dji ∧ 0 <= dij <= 1 ∧ (i = j → dij = 0).
Proof.
  intros Hb. destruct (createDistanceMatrix_cells names sm) as [Hsq Hcells].
  split; [done|]. intros i j Hi Hj.
  eexists _, _. split; [by apply Hcells|]. split; [by apply Hcells|].
  rewrite (Nat.eqb_sym j i), (getSimilarityKey_comm (names !!! j)).
  split; [done|].
  destruct (Nat.eqb_spec i j) as [Heq|Hne].
  - split; [lra|done].
  - split; [|done].
    pose proof (similarityOr50_bounds sm
                  (getSimilarityKey (names !!! i) (names !!! j)) Hb).
    lra.
Qed.

(** C2, as amended.  For a pair absent from the similarity matrix,
    [createDistanceMatrix] (scores on 0..100) takes the neutral score 50 and
    yields distance 0.5, whereas the builder of
    [AINotesVisualization.generateEmbeddings] (scores on 0..1) takes score 0
    and yields distance 1. *)
Theorem absent_pair_distance
    (names : list string) (sm : gmap string SimEntry) (sims : gmap string R) i j :
  (i < length names)%nat → (j < length names)%nat → i ≠ j →
  (sm !! getSimilarityKey (names !!! i) (names !!! j) = None →
   get2 (createDistanceMatrix names sm) i j = Some 0.5) ∧
  (sims !! AINotesVisualization.pairKey (names !!! i) (names !!! j) = None →
   get2 (AINotesVisualization.distanceMatrix names sims) i j = Some 1).
Proof.
  intros Hi Hj Hne. split; intros Habs.
  - destruct (createDistanceMatrix_cells names sm) as [_ Hcells].
    rewrite Hcells by done. rewrite Habs.
    destruct (Nat.eqb_spec i j); [done|]. simpl. f_equal. lra.
  - destruct (distanceMatrix_cells names sims) as [_ Hcells].
    rewrite Hcells by done. rewrite Habs. simpl. f_equal. lra.
Qed.

(** C10.  A stored score of exactly 0 is falsy, so [createDistanceMatrix]
    replaces it by 50: the cell holds 0.5, as it does when the entry is
    deleted, and not the maximal distance 1. *)
Theorem zero_score_reads_as_absent
    (names : list string) (sm : gmap string SimEntry) i j e :
  (i < length names)%nat → (j < length names)%nat → i ≠ j →
  sm !! getSimilarityKey (names !!! i) (names !!! j) = Some e →
  similarity e = 0 →
  get2 (createDistanceMatrix names sm) i j = Some 0.5 ∧
  get2 (createDistanceMatrix names
          (delete (getSimilarityKey (names !!! i) (names !!! j)) sm)) i j
  = Some 0.5 ∧
  get2 (createDistanceMatrix names sm) i j ≠ Some 1.
Proof.
  intros Hi Hj Hne He Hzero.
  assert (Hcell : get2 (createDistanceMatrix names sm) i j = Some 0.5).
  { destruct (createDistanceMatrix_cells names sm) as [_ Hcells].
    rewrite Hcells by done. rewrite He.
    destruct (Nat.eqb_spec i j); [done|]. simpl.
    rewrite Hzero, orNum_zero. f_equal. lra. }
  split; [done|]. split.
  - destruct (createDistanceMatrix_cells names
                (delete (getSimilarityKey (names !!! i) (names !!! j)) sm))
      as [_ Hcells].
    rewrite Hcells by done. rewrite lookup_delete_eq.
    destruct (Nat.eqb_spec i j); [done|]. simpl. f_equal. lra.
  - rewrite Hcell. intros [=]. lra.
Qed.

(* ===================================================================== *)
(** * The similarity cache *)
(* ===================================================================== *)

Lemma matrix_lookup_entries (m : Matrix) key : m !! key = entriesOf m !! key.
Proof. reflexivity. Qed.

Lemma store_entries key e (m m' : Matrix) :
  store key e m = Some m' → entriesOf m' = <[key := e]> (entriesOf m).
Proof. destruct m; simpl; intros [= <-]; done. Qed.

Lemma store_shape key e (m m' : Matrix) :
  store key e m = Some m' →
  acceptsStores m = true ∧ acceptsStores m' = true ∧ isObject m' = isObject m.
Proof. destruct m; simpl; intros [= <-]; done. Qed.

Lemma store_accepted key e (m : Matrix) :
  acceptsStores m = true → is_Some (store key e m).
Proof. destruct m; simpl; intros ?; by eauto. Qed.

Lemma store_lookup_eq key e (m m' : Matrix) :
  store key e m = Some m' → m' !! key = Some e.
Proof.
  intros Hstore. rewrite matrix_lookup_entries, (store_entries _ _ _ _ Hstore).
  apply lookup_insert_eq.
Qed.

Lemma store_lookup_ne key key' e (m m' : Matrix) :
  store key e m = Some m' → key ≠ key' → m' !! key' = m !! key'.
Proof.
  intros Hstore Hne. rewrite !matrix_lookup_entries, (store_entries _ _ _ _ Hstore).
  by apply lookup_insert_ne.
Qed.

Lemma parsed_written (m : Matrix) :
  isObject m = true → parsed (written m) = m.
Proof. by destruct m. Qed.

Section CacheFacts.

Context {Blob : Type}.
Variable stringify : CacheFile → Blob.
Variable parse : Blob → option CacheFile.
Variable now : string.
Variable oils : Catalog.

Lemma saveCache_similarityMatrix (st : State (Blob := Blob)) :
  similarityMatrix (saveCache stringify now oils st) = similarityMatrix st.
Proof. unfold saveCache. by destruct (writable (disk st)). Qed.

Lemma loadCache_after_saveCache (st : State) fresh :
  (∀ c, parse (stringify c) = Some c) →
  writable (disk st) = true →
  loadCache parse {| similarityMatrix := fresh;
                     disk := disk (saveCache stringify now oils st) |}
  = ({| similarityMatrix := parsed (written (similarityMatrix st));
        disk := disk (saveCache stringify now oils st) |}, true).
Proof.
  intros Hcodec Hw. unfold loadCache, saveCache. rewrite Hw. simpl.
  by rewrite Hcodec.
Qed.

End CacheFacts.


(* ===================================================================== *)
(** * Generation of the similarity matrix *)
(* ===================================================================== *)

Lemma lookupOil_is_Some (oils : Catalog) name :
  name ∈ catalogKeys oils → is_Some (lookupOil oils name).
Proof.
  unfold catalogKeys. induction oils as [|[k d] rest IH]; simpl; intros Hin.
  - by apply elem_of_nil in Hin.
  - destruct (decide (k = name)); [by eexists|].
    apply elem_of_cons in Hin as [?|?]; [congruence|by apply IH].
Qed.

Lemma forLoopM_None {S} (body : nat → S → option S) (l : list nat) :
  fold_left (λ acc i, acc ≫= body i) l None = None.
Proof. by induction l. Qed.

Lemma fold_left_over_map {A B C} (f : A → C → A) (g : B → C) (l : list B) a :
  fold_left f (map g l) a = fold_left (λ acc x, f acc (g x)) l a.
Proof. revert a. induction l as [|x l IH]; intros a; simpl; [done|apply IH]. Qed.

Lemma pairsInOrder_bound n :
  Forall (λ p : nat * nat, (p.1 < n)%nat ∧ (p.2 < n)%nat) (pairsInOrder n).
Proof.
  apply Forall_forall. intros [i j] Hin. unfold pairsInOrder in Hin.
  apply list_elem_of_In, in_flat_map in Hin as (i' & Hi' & Hin).
  apply in_map_iff in Hin as (j' & [= <- <-] & Hj').
  apply in_seq in Hi'. apply in_seq in Hj'. simpl. lia.
Qed.

Section GenerationFacts.

Context {Blob : Type}.
Variable stringify : CacheFile → Blob.
Variable parse : Blob → option CacheFile.
Variable now : string.
Variable oracle : string → string → option SimEntry.
Variable oils : Catalog.

(** The fallback entry of two catalog items: 60 for one category, else 30. *)
Lemma fallbackEntry_catalog a b :
  a ∈ catalogKeys oils → b ∈ catalogKeys oils →
  ∃ d1 d2 e,
    lookupOil oils a = Some d1 ∧ lookupOil oils b = Some d2 ∧
    fallbackEntry now oils a b = Some e ∧
    similarity e = if decide (category d1 = category d2) then 60 else 30.
Proof.
  intros Ha Hb.
  destruct (lookupOil_is_Some oils a Ha) as [d1 Hd1].
  destruct (lookupOil_is_Some oils b Hb) as [d2 Hd2].
  exists d1, d2. unfold fallbackEntry. rewrite Hd1, Hd2. simpl.
  eexists. repeat split; try done. simpl.
  unfold bool_decide. by destruct (decide_rel eq (category d1) (category d2)).
Qed.

(** The three outcomes of a step that returns, on the matrix: the pair was
    stored already, or the answer is stored, or the fallback is. *)
Lemma pairStep_matrix i j (s s' : State (Blob := Blob) * nat) :
  pairStep stringify now oracle oils i j s = Some s' →
  let key := getSimilarityKey (oilNames oils !!! i) (oilNames oils !!! j) in
  (is_Some (similarityMatrix s.1 !! key) ∧
   similarityMatrix s'.1 = similarityMatrix s.1) ∨
  (similarityMatrix s.1 !! key = None ∧
   ∃ e, store key e (similarityMatrix s.1) = Some (similarityMatrix s'.1) ∧
        (oracle (oilNames oils !!! i) (oilNames oils !!! j) = Some e ∨
         (oracle (oilNames oils !!! i) (oilNames oils !!! j) = None ∧
          fallbackEntry now oils (oilNames oils !!! i) (oilNames oils !!! j) = Some e))).
Proof.
  destruct s as [st k]. unfold pairStep, getSimilarityScore. cbn [fst snd].
  set (a := oilNames oils !!! i). set (b := oilNames oils !!! j).
  set (c := (S k mod 5 =? 0)%nat).
  destruct (similarityMatrix st !! getSimilarityKey a b) as [e0|] eqn:Hcached.
  - intros [= <-]. left. cbn [fst]. split; [by eexists|].
    destruct c; by rewrite ?saveCache_similarityMatrix.
  - destruct (oracle a b) as [e1|] eqn:Horacle.
    + destruct (store (getSimilarityKey a b) e1 (similarityMatrix st))
        as [matrix|] eqn:Hstore.
      * intros [= <-]. right. split; [done|]. exists e1. cbn [fst].
        split; [|by left]. destruct c; by rewrite ?saveCache_similarityMatrix.
      * destruct (fallbackEntry now oils a b) as [e|]; cbn [mbind option_bind]; [|done].
        destruct st as [[| |] d]; done.
    + destruct (fallbackEntry now oils a b) as [e|] eqn:Hfb;
        cbn [mbind option_bind]; [|done].
      destruct (store (getSimilarityKey a b) e (similarityMatrix st))
        as [matrix|] eqn:Hstore; cbn [mbind option_bind]; [|done].
      intros [= <-]. right. split; [done|]. exists e. cbn. split; [done|]. by right.
Qed.

(** One pair, on a matrix that takes stores: the step returns, keeps every
    stored entry, and stores the fallback when the score request is
    rejected. *)
Lemma pairStep_spec i j (s : State (Blob := Blob) * nat) :
  (i < length (oilNames oils))%nat → (j < length (oilNames oils))%nat →
  acceptsStores (similarityMatrix s.1) = true →
  ∃ s', pairStep stringify now oracle oils i j s = Some s' ∧
    acceptsStores (similarityMatrix s'.1) = true ∧
    (∀ key e, similarityMatrix s.1 !! key = Some e →
              similarityMatrix s'.1 !! key = Some e) ∧
    ((getSimilarityScore oracle s.1 (oilNames oils !!! i) (oilNames oils !!! j)).2 = None →
     ∃ d1 d2 e,
       lookupOil oils (oilNames oils !!! i) = Some d1 ∧
       lookupOil oils (oilNames oils !!! j) = Some d2 ∧
       similarityMatrix s'.1 !! getSimilarityKey (oilNames oils !!! i) (oilNames oils !!! j)
       = Some e ∧
       similarity e = if decide (category d1 = category d2) then 60 else 30).
Proof.
  intros Hi Hj Hshape. destruct s as [st k]. unfold pairStep, getSimilarityScore.
  cbn [fst snd] in *. set (a := oilNames oils !!! i). set (b := oilNames oils !!! j).
  assert (Ha : a ∈ catalogKeys oils) by by apply list_elem_of_lookup_total_2.
  assert (Hb : b ∈ catalogKeys oils) by by apply list_elem_of_lookup_total_2.
  destruct (similarityMatrix st !! getSimilarityKey a b) as [e0|] eqn:Hcached.
  - eexists. split; [reflexivity|]. cbn [fst snd].
    split; [|split; [|by simpl]].
    + destruct (S k mod 5 =? 0)%nat; by rewrite ?saveCache_similarityMatrix.
    + intros key e He.
      destruct (S k mod 5 =? 0)%nat; by rewrite ?saveCache_similarityMatrix.
  - destruct (oracle a b) as [e1|] eqn:Horacle.
    + destruct (store_accepted (getSimilarityKey a b) e1 _ Hshape) as [matrix Hstore].
      rewrite Hstore. eexists. split; [reflexivity|]. cbn [fst snd].
      split; [|split; [|by simpl]].
      * destruct (store_shape _ _ _ _ Hstore) as (_ & Hshape' & _).
        destruct (S k mod 5 =? 0)%nat; by rewrite ?saveCache_similarityMatrix.
      * intros key e He.
        assert (getSimilarityKey a b ≠ key) by congruence.
        destruct (S k mod 5 =? 0)%nat;
          rewrite ?saveCache_similarityMatrix; cbn [similarityMatrix];
          by rewrite (store_lookup_ne _ _ _ _ _ Hstore).
    + destruct (fallbackEntry_catalog a b Ha Hb) as (d1 & d2 & e & H1 & H2 & He & Hs).
      rewrite He. cbn [mbind option_bind].
      destruct (store_accepted (getSimilarityKey a b) e _ Hshape) as [matrix Hstore].
      rewrite Hstore. cbn [mbind option_bind].
      eexists. split; [reflexivity|]. cbn [fst snd similarityMatrix].
      split; [|split].
      * by destruct (store_shape _ _ _ _ Hstore) as (_ & Hshape' & _).
      * intros key e' He'. assert (getSimilarityKey a b ≠ key) by congruence.
        by rewrite (store_lookup_ne _ _ _ _ _ Hstore).
      * intros _. exists d1, d2, e. by rewrite (store_lookup_eq _ _ _ _ Hstore).
Qed.

(** A run over index pairs within range, on a matrix that takes stores,
    returns and keeps stored entries. *)
Lemma runPairs_spec (pairs : list (nat * nat)) (s : State (Blob := Blob) * nat) :
  Forall (λ p, (p.1 < length (oilNames oils))%nat ∧ (p.2 < length (oilNames oils))%nat) pairs →
  acceptsStores (similarityMatrix s.1) = true →
  ∃ s', runPairs stringify now oracle oils pairs (Some s) = Some s' ∧
    acceptsStores (similarityMatrix s'.1) = true ∧
    ∀ key e, similarityMatrix s.1 !! key = Some e →
             similarityMatrix s'.1 !! key = Some e.
Proof.
  intros Hpairs. revert s. unfold runPairs.
  induction Hpairs as [|[i j] pairs [Hi Hj] _ IH]; intros s Hshape; simpl.
  - by eexists.
  - destruct (pairStep_spec i j s Hi Hj Hshape) as (s1 & -> & Hshape1 & Hkeep1 & _).
    destruct (IH s1 Hshape1) as (s' & -> & Hshape' & Hkeep).
    eexists. split; [done|]. split; [done|]. eauto.
Qed.

(** The two nested loops visit the index pairs of [pairsInOrder]. *)
Lemma loops_as_runPairs n (s : State (Blob := Blob) * nat) :
  forLoopM 0 n (λ i s, forLoopM (i + 1) n (λ j s, pairStep stringify now oracle oils i j s) s) s
  = runPairs stringify now oracle oils (pairsInOrder n) (Some s).
Proof.
  unfold forLoopM, runPairs, pairsInOrder. rewrite Nat.sub_0_r.
  generalize (Some s) as acc. generalize (seq 0 n) as rows.
  induction rows as [|i rows IH]; intros acc; simpl; [done|].
  rewrite fold_left_app, <- IH. f_equal.
  rewrite fold_left_over_map. simpl.
  destruct acc as [s0|]; simpl; [done|]. by rewrite forLoopM_None.
Qed.

(** A run that has thrown stays thrown. *)
Lemma runPairs_None (pairs : list (nat * nat)) :
  runPairs stringify now oracle oils pairs None = None.
Proof. unfold runPairs. by induction pairs. Qed.

(** On a primitive no step returns: the store of the answer throws inside
    the [try], and the store of the fallback throws in the [catch] branch. *)
Lemma pairStep_primitive i j (s : State (Blob := Blob) * nat) :
  similarityMatrix s.1 = PrimitiveValue →
  pairStep stringify now oracle oils i j s = None.
Proof.
  destruct s as [[m d] k]. cbn [fst similarityMatrix]. intros ->.
  unfold pairStep, getSimilarityScore. cbn.
  destruct (oracle _ _); cbn; by destruct (fallbackEntry _ _ _ _).
Qed.

End GenerationFacts.

Lemma pairsInOrder_elem n i j :
  (i < j)%nat → (j < n)%nat → (i, j) ∈ pairsInOrder n.
Proof.
  intros Hij Hjn. unfold pairsInOrder.
  apply list_elem_of_In, in_flat_map. exists i. split.
  - apply in_seq. lia.
  - apply in_map, in_seq. lia.
Qed.

(** Generation over two items or more throws when [loadCache] leaves a
    primitive. *)
Lemma generation_on_primitive
    {Blob : Type} (stringify : CacheFile → Blob) (parse : Blob → option CacheFile)
    (now : string) (oracle : string → string → option SimEntry) (oils : Catalog)
    (st : State) :
  similarityMatrix (loadCache parse st).1 = PrimitiveValue →
  (2 ≤ length (oilNames oils))%nat →
  generateSimilarityMatrix stringify parse now oracle oils st = None.
Proof.
  intros Hprimitive Hlen. unfold generateSimilarityMatrix.
  rewrite loops_as_runPairs.
  pose proof (pairsInOrder_elem (length (oilNames oils)) 0 1) as Hin.
  destruct (pairsInOrder (length (oilNames oils))) as [|[i j] pairs].
  { exfalso. eapply not_elem_of_nil. apply Hin; lia. }
  unfold runPairs. cbn [fold_left mbind option_bind fst snd].
  rewrite pairStep_primitive by done.
  fold (runPairs stringify now oracle oils pairs None). by rewrite runPairs_None.
Qed.

(** Two nested loops over the pairs [i < j] visit the index pairs of
    [pairsInOrder]. *)
Lemma nested_loops_as_fold {S} (body : nat → nat → S → option S) n (s : S) :
  forLoopM 0 n (λ i s, forLoopM (i + 1) n (λ j s, body i j s) s) s
  = fold_left (λ acc p, acc ≫= body p.1 p.2) (pairsInOrder n) (Some s).
Proof.
  unfold forLoopM, pairsInOrder. rewrite Nat.sub_0_r.
  generalize (Some s) as acc. generalize (seq 0 n) as rows.
  induction rows as [|i rows IH]; intros acc; simpl; [done|].
  rewrite fold_left_app, <- IH. f_equal.
  rewrite fold_left_over_map. simpl.
  destruct acc as [s0|]; simpl; [done|]. by rewrite forLoopM_None.
Qed.

Section ProcessFacts.

Context {Blob : Type}.
Variable stringify : CacheFile → Blob.
Variable parse : Blob → option CacheFile.
Variable now : string.
Variable oils : Catalog.
Variable readJson : string → option SimEntry.
Variable runs : string → string → ProcessRun.

Lemma comparison_Pending (run : ProcessRun) :
  comparison readJson run = Pending ↔ run = NeverExits.
Proof.
  split; [|by intros ->].
  destruct run as [code stdout| |]; cbn [comparison]; [|done..].
  destruct (decide (code = Some 0%Z)); [|done]. by destruct (readJson stdout).
Qed.

(** A step consults the oracle at its own pair only, and not at all when
    the pair has its entry. *)
Lemma pairStep_oracle (oracle1 oracle2 : string → string → option SimEntry)
    i j (s : State (Blob := Blob) * nat) :
  (similarityMatrix s.1 !! getSimilarityKey (oilNames oils !!! i) (oilNames oils !!! j)
   = None →
   oracle1 (oilNames oils !!! i) (oilNames oils !!! j)
   = oracle2 (oilNames oils !!! i) (oilNames oils !!! j)) →
  pairStep stringify now oracle1 oils i j s = pairStep stringify now oracle2 oils i j s.
Proof.
  destruct s as [st k]. cbn [fst]. intros Hsame.
  unfold pairStep, getSimilarityScore.
  destruct (similarityMatrix st !! getSimilarityKey _ _); [done|].
  by rewrite Hsame.
Qed.

(** With processes that settle, a step is the step on their oracle. *)
Lemma pairStepOn_settled i j (s : State (Blob := Blob) * nat) :
  (∀ a b, runs a b ≠ NeverExits) →
  pairStepOn stringify now oils readJson runs i j (Working s)
  = Working <$> pairStep stringify now (settledOracle readJson runs) oils i j s.
Proof.
  intros Hsettle. unfold pairStepOn. cbv zeta.
  destruct (similarityMatrix s.1
              !! getSimilarityKey (oilNames oils !!! i) (oilNames oils !!! j))
    as [e0|] eqn:Hcached.
  - f_equal. apply pairStep_oracle. by rewrite Hcached.
  - destruct (comparison readJson (runs (oilNames oils !!! i) (oilNames oils !!! j)))
      as [e| |] eqn:Hrun.
    + f_equal. apply pairStep_oracle. intros _. unfold settledOracle. by rewrite Hrun.
    + f_equal. apply pairStep_oracle. intros _. unfold settledOracle. by rewrite Hrun.
    + apply comparison_Pending in Hrun. by destruct (Hsettle _ _ Hrun).
Qed.

Lemma runPairsOn_None (pairs : list (nat * nat)) :
  runPairsOn stringify now oils readJson runs pairs None = None.
Proof. unfold runPairsOn. by induction pairs. Qed.

(** Nothing is run while the call waits. *)
Lemma runPairsOn_Waiting (pairs : list (nat * nat)) (s : State (Blob := Blob) * nat) :
  runPairsOn stringify now oils readJson runs pairs (Some (Waiting s)) = Some (Waiting s).
Proof. unfold runPairsOn. by induction pairs. Qed.

Lemma runPairsOn_settled (pairs : list (nat * nat)) (s : State (Blob := Blob) * nat) :
  (∀ a b, runs a b ≠ NeverExits) →
  runPairsOn stringify now oils readJson runs pairs (Some (Working s))
  = Working <$> runPairs stringify now (settledOracle readJson runs) oils pairs (Some s).
Proof.
  intros Hsettle. revert s.
  induction pairs as [|[i j] pairs IH]; intros s; [done|].
  unfold runPairsOn, runPairs. cbn [fold_left mbind option_bind fst snd].
  rewrite pairStepOn_settled by done.
  destruct (pairStep stringify now (settledOracle readJson runs) oils i j s) as [s1|];
    cbn [fmap option_fmap option_map].
  - apply IH.
  - fold (runPairsOn stringify now oils readJson runs pairs None).
    fold (runPairs stringify now (settledOracle readJson runs) oils pairs None).
    by rewrite runPairsOn_None, runPairs_None.
Qed.

(** With processes that settle, the call is the call on their oracle. *)
Lemma generateWithProcesses_settled (st : State (Blob := Blob)) :
  (∀ a b, runs a b ≠ NeverExits) →
  generateWithProcesses stringify parse now oils readJson runs st
  = Returns <$> generateSimilarityMatrix stringify parse now
                  (settledOracle readJson runs) oils st.
Proof.
  intros Hsettle. unfold generateWithProcesses, generateSimilarityMatrix.
  rewrite loops_as_runPairs, nested_loops_as_fold.
  fold (runPairsOn stringify now oils readJson runs
          (pairsInOrder (length (oilNames oils)))
          (Some (Working ((loadCache parse st).1, 0%nat)))).
  rewrite runPairsOn_settled by done.
  by destruct (runPairs stringify now (settledOracle readJson runs) oils _ _).
Qed.

(** The call waits at the first pair without an entry whose process never
    exits, in the state reached until then. *)
Lemma generateWithProcesses_waits (st : State (Blob := Blob))
    before i j after (s : State (Blob := Blob) * nat) :
  pairsInOrder (length (oilNames oils)) = before ++ (i, j) :: after →
  runPairsOn stringify now oils readJson runs before
    (Some (Working ((loadCache parse st).1, 0%nat))) = Some (Working s) →
  similarityMatrix s.1 !! getSimilarityKey (oilNames oils !!! i) (oilNames oils !!! j)
  = None →
  runs (oilNames oils !!! i) (oilNames oils !!! j) = NeverExits →
  generateWithProcesses stringify parse now oils readJson runs st = Some (Waits s.1).
Proof.
  intros Hsplit Hbefore Habsent Hhangs. unfold generateWithProcesses.
  rewrite nested_loops_as_fold, Hsplit, fold_left_app.
  unfold runPairsOn in Hbefore. rewrite Hbefore.
  cbn [fold_left mbind option_bind fst snd]. unfold pairStepOn at 2.
  rewrite Habsent, Hhangs. cbn [comparison].
  fold (runPairsOn stringify now oils readJson runs after (Some (Waiting s))).
  by rewrite runPairsOn_Waiting.
Qed.

(** A run that ends waiting has reached a pair without an entry whose
    process never exits. *)
Lemma runPairsOn_waits (pairs : list (nat * nat)) (s s' : State (Blob := Blob) * nat) :
  runPairsOn stringify now oils readJson runs pairs (Some (Working s))
  = Some (Waiting s') →
  ∃ before i j after,
    pairs = before ++ (i, j) :: after ∧
    runPairsOn stringify now oils readJson runs before (Some (Working s))
    = Some (Working s') ∧
    similarityMatrix s'.1 !! getSimilarityKey (oilNames oils !!! i) (oilNames oils !!! j)
    = None ∧
    runs (oilNames oils !!! i) (oilNames oils !!! j) = NeverExits.
Proof.
  revert s. induction pairs as [|[i j] pairs IH]; intros s; [done|].
  unfold runPairsOn. cbn [fold_left mbind option_bind fst snd].
  destruct (pairStepOn stringify now oils readJson runs i j (Working s))
    as [[s1|s1]|] eqn:Hstep.
  - intros Hrest. destruct (IH s1 Hrest) as (before & i' & j' & after & -> & Hrun & Hrest').
    exists ((i, j) :: before), i', j', after. split; [done|]. split; [|done].
    unfold runPairsOn. cbn [fold_left mbind option_bind fst snd]. by rewrite Hstep.
  - fold (runPairsOn stringify now oils readJson runs pairs (Some (Waiting s1))).
    rewrite runPairsOn_Waiting. intros [= <-].
    exists [], i, j, pairs. split; [done|].
    unfold pairStepOn in Hstep. cbv zeta in Hstep.
    destruct (similarityMatrix s.1
                !! getSimilarityKey (oilNames oils !!! i) (oilNames oils !!! j))
      as [e0|] eqn:Hcached.
    { by destruct (pairStep stringify now (λ _ _, None) oils i j s). }
    destruct (comparison readJson (runs (oilNames oils !!! i) (oilNames oils !!! j)))
      as [e| |] eqn:Hrun.
    { by destruct (pairStep stringify now (λ _ _, Some e) oils i j s). }
    { by destruct (pairStep stringify now (λ _ _, None) oils i j s). }
    injection Hstep as <-. split; [done|]. split; [done|].
    by apply comparison_Pending.
  - fold (runPairsOn stringify now oils readJson runs pairs None).
    by rewrite runPairsOn_None.
Qed.

End ProcessFacts.


(* ===================================================================== *)
(** * TF-IDF feature vectors *)
(* ===================================================================== *)

Import ScentEmbeddings.

Lemma documentFreq_count (oils : Catalog) tok :
  documentFreq oils tok = length (filter (λ p : string * OilData, tok ∈ notes p.2) oils).
Proof.
  unfold documentFreq.
  enough (H : ∀ c, fold_left (λ count '(_, oilData),
                      if decide (tok ∈ notes oilData) then S count else count) oils c
                   = (c + length (filter (λ p : string * OilData, tok ∈ notes p.2) oils))%nat)
    by apply (H 0%nat).
  induction oils as [|[nm d] rest IH]; intros c; [simpl; lia|].
  cbn [fold_left]. rewrite IH. rewrite (filter_cons (λ p : string * OilData, tok ∈ notes p.2)). cbn [snd].
  destruct (decide (tok ∈ notes d)); cbn [length]; [|reflexivity].
  rewrite Nat.add_succ_r. reflexivity.
Qed.

Lemma documentFreq_everywhere (oils : Catalog) tok :
  (∀ nm d, (nm, d) ∈ oils → tok ∈ notes d) → documentFreq oils tok = length oils.
Proof.
  intros Hall. rewrite documentFreq_count. f_equal.
  induction oils as [|[nm d] rest IH]; [done|].
  rewrite (filter_cons (λ p : string * OilData, tok ∈ notes p.2)). cbn [snd].
  rewrite decide_True.
  - f_equal. apply IH. intros nm' d' Hin. apply (Hall nm'). by apply elem_of_cons; right.
  - apply (Hall nm). by apply elem_of_cons; left.
Qed.

Lemma documentFreq_unique (oils : Catalog) tok k nm d :
  oils !! k = Some (nm, d) → tok ∈ notes d →
  (∀ k' nm' d', oils !! k' = Some (nm', d') → k' ≠ k → tok ∉ notes d') →
  documentFreq oils tok = 1%nat.
Proof.
  rewrite documentFreq_count. revert k.
  induction oils as [|[nm0 d0] rest IH]; intros k Hk Hin Hothers; [done|].
  rewrite (filter_cons (λ p : string * OilData, tok ∈ notes p.2)). cbn [snd].
  destruct k as [|k]; simpl in Hk.
  - injection Hk as -> ->. rewrite decide_True by done. cbn [length]. f_equal.
    assert (Hnone : ∀ k' p, rest !! k' = Some p → tok ∉ notes p.2).
    { intros k' [nm' d'] Hk'. by apply (Hothers (S k') nm' d'). }
    clear -Hnone. induction rest as [|p rest IH]; [done|].
    rewrite (filter_cons (λ p : string * OilData, tok ∈ notes p.2)). rewrite decide_False by apply (Hnone 0%nat p eq_refl).
    apply IH. intros k' p' Hk'. by apply (Hnone (S k')).
  - rewrite decide_False by (by apply (Hothers 0%nat nm0 d0)).
    apply (IH k); [done|done|]. intros k' nm' d' Hk' Hne.
    apply (Hothers (S k') nm' d'); [done|lia].
Qed.

(** The entry of [vectorize] for the item at position [k], cell by cell. *)
Lemma vectorize_cell (oils : Catalog) k nm d idx tok :
  oils !! k = Some (nm, d) → buildVocabulary oils !! idx = Some tok →
  ∃ vec,
    vectorize oils !! k = Some (nm, vec) ∧
    length vec = length (buildVocabulary oils) ∧
    vec !! idx =
      Some (if decide (tok ∈ notes d)
            then 1 / INR (length (notes d)) *
                 ln (INR (length oils) / INR (documentFreq oils tok))
            else 0).
Proof.
  intros Hk Hidx. unfold vectorize, createEmbeddings.
  exists (embedding oils (buildVocabulary oils) d). split.
  - rewrite list_lookup_fmap, Hk. done.
  - unfold embedding. split; [by rewrite length_imap|].
    rewrite list_lookup_imap, Hidx. simpl.
    unfold catalogKeys. by rewrite length_fmap.
Qed.

(** C7, as amended.  The weight of the item at position [k] at the index of
    the token [tok] is (1 / number of its tokens) * ln (item count / number of
    items with [tok]) when the item has [tok], and 0 otherwise.  So a token of
    every item weighs 0 everywhere; and in a catalog of at least two items a
    token of a single item weighs more than 0 for that item, while it weighs 0
    for every item without it. *)
Theorem tfidf_weight (oils : Catalog) k nm d idx tok :
  oils !! k = Some (nm, d) → buildVocabulary oils !! idx = Some tok →
  ∃ vec w,
    vectorize oils !! k = Some (nm, vec) ∧
    length vec = length (buildVocabulary oils) ∧
    vec !! idx = Some w ∧
    w = (if decide (tok ∈ notes d)
         then 1 / INR (length (notes d)) *
              ln (INR (length oils) / INR (documentFreq oils tok))
         else 0) ∧
    ((∀ nm' d', (nm', d') ∈ oils → tok ∈ notes d') → w = 0) ∧
    ((2 <= length oils)%nat → tok ∈ notes d →
     (∀ k' nm' d', oils !! k' = Some (nm', d') → k' ≠ k → tok ∉ notes d') →
     w > 0) ∧
    (tok ∉ notes d → w = 0).
Proof.
  intros Hk Hidx.
  destruct (vectorize_cell oils k nm d idx tok Hk Hidx) as (vec & Hvec & Hlen & Hcell).
  eexists vec, _. repeat split; try done.
  - intros Hall. rewrite documentFreq_everywhere by done.
    assert (Hpos : (0 < length oils)%nat).
    { apply lookup_lt_Some in Hk. lia. }
    rewrite decide_True.
    2:{ apply (Hall nm). eapply list_elem_of_lookup_2, Hk. }
    replace (INR (length oils) / INR (length oils)) with 1.
    + rewrite ln_1. lra.
    + field. apply not_0_INR. lia.
  - intros Htwo Hin Hothers. rewrite decide_True by done.
    rewrite (documentFreq_unique oils tok k nm d) by done.
    assert (Hnotes : (0 < length (notes d))%nat).
    { destruct (notes d); [by apply elem_of_nil in Hin|simpl; lia]. }
    apply Rmult_gt_0_compat.
    + apply Rlt_gt. apply Rdiv_lt_0_compat; [lra|]. by apply lt_0_INR.
    + simpl INR. replace (INR (length oils) / 1) with (INR (length oils)) by lra.
      rewrite <- ln_1. apply Rlt_gt. apply ln_increasing; [lra|].
      apply le_INR in Htwo. simpl in Htwo. lra.
  - intros Hnot. by rewrite decide_False.
Qed.

(** In a catalog of one item a token of that item is a token of a single item
    and of every item at once; its weight is 0, not more. *)
Lemma sole_item_token_weighs_zero :
  buildVocabulary Samples.soleCatalog !! 0%nat = Some "floral"%string ∧
  "floral"%string ∈ notes Samples.lavender ∧
  documentFreq Samples.soleCatalog "floral" = 1%nat ∧
  ∃ vec w,
    vectorize Samples.soleCatalog !! 0%nat = Some ("lavender"%string, vec) ∧
    vec !! 0%nat = Some w ∧ w = 0 ∧ ¬ (w > 0).
Proof.
  assert (Hin : "floral"%string ∈ notes Samples.lavender).
  { unfold Samples.lavender. cbn [notes]. apply elem_of_cons. by left. }
  split; [reflexivity|]. split; [done|]. split; [reflexivity|].
  destruct (vectorize_cell Samples.soleCatalog 0 "lavender" Samples.lavender
              0 "floral" eq_refl eq_refl) as (vec & Hvec & _ & Hcell).
  rewrite decide_True in Hcell by done.
  change (documentFreq Samples.soleCatalog "floral") with 1%nat in Hcell.
  change (length Samples.soleCatalog) with 1%nat in Hcell.
  exists vec. eexists. split; [done|]. split; [done|].
  assert (Hzero : 1 / INR (length (notes Samples.lavender)) * ln (INR 1 / INR 1) = 0).
  { simpl INR at 2 3. replace (1 / 1) with 1 by lra. rewrite ln_1. lra. }
  rewrite Hzero. split; [done|lra].
Qed.



(* ===================================================================== *)
(** * The force-directed layout on two items *)
(* ===================================================================== *)

Import FastAIDemo.

(** The divisor of the force loop is never 0. *)
Lemma flooredDistance_pos dx dy : 0 < flooredDistance dx dy.
Proof.
  unfold flooredDistance, orNum.
  destruct (Req_dec_T (sqrt (dx * dx + dy * dy)) 0) as [|Hne]; [lra|].
  pose proof (sqrt_pos (dx * dx + dy * dy)). lra.
Qed.

Lemma contraction_bound : 3 * 0.8 ^ 200 <= 0.05.
Proof.
  assert (H4 : 0.8 ^ 4 <= 0.5) by (simpl; lra).
  assert (H : 0.8 ^ 200 = (0.8 ^ 4) ^ 50) by (rewrite <- pow_mult; reflexivity).
  assert (H50 : (0.8 ^ 4) ^ 50 <= 0.5 ^ 50).
  { apply pow_incr. split; [|done]. apply pow_le. lra. }
  assert (H7 : 0.5 ^ 50 <= 0.01) by (simpl; lra).
  lra.
Qed.

(** One round on two items [a] and [b]. *)
Lemma iteration_two a b (sims : gmap string R) s pa pb :
  a ≠ b → sims !! pairKey a b = Some s →
  iteration [a; b] sims (<[b := pb]> (<[a := pa]> ∅)) =
  let dx := x pa - x pb in
  let dy := y pa - y pb in
  let distance := flooredDistance dx dy in
  let force := (distance - (1 - s)) * 0.1 in
  Some (<[b := {| x := x pb + (0 + force * dx / distance);
                  y := y pb + (0 + force * dy / distance) |}]>
        (<[a := {| x := x pa + (0 - force * dx / distance);
                   y := y pa + (0 - force * dy / distance) |}]> ∅)).
Proof.
  intros Hab Hs. assert (Hba : b ≠ a) by congruence.
  unfold iteration, forLoopM, zeroForces, applyForces. simpl.
  unfold pairForce. simpl.
  rewrite (lookup_insert_ne _ b a) by done. rewrite !lookup_insert_eq. simpl.
  rewrite Hs. simpl.
  rewrite (alter_insert_ne _ a b) by done. rewrite !alter_insert_eq.
  rewrite lookup_insert_eq. rewrite (lookup_insert_ne _ b a) by done.
  rewrite lookup_insert_eq. simpl.
  rewrite (alter_insert_ne _ a b) by done. rewrite !alter_insert_eq. simpl.
  done.
Qed.

Lemma realized_after_round dx dy d rho :
  rho = sqrt (dx * dx + dy * dy) → 0 < rho → 0 <= d →
  let force := (rho - d) * 0.1 in
  let dx' := dx - 2 * (force * dx / rho) in
  let dy' := dy - 2 * (force * dy / rho) in
  sqrt (dx' * dx' + dy' * dy') = 0.8 * rho + 0.2 * d.
Proof.
  intros Hrho Hpos Hd force dx' dy'.
  set (c := (4 * rho + d) / (5 * rho)).
  assert (Hc : 0 < c). { unfold c. apply Rdiv_lt_0_compat; lra. }
  assert (H01 : 0.1 = / 10) by lra.
  assert (Hdx : dx' = c * dx). { unfold dx', force, c. rewrite H01. field. lra. }
  assert (Hdy : dy' = c * dy). { unfold dy', force, c. rewrite H01. field. lra. }
  rewrite Hdx, Hdy.
  replace (c * dx * (c * dx) + c * dy * (c * dy)) with ((c * c) * (dx * dx + dy * dy)) by ring.
  rewrite sqrt_mult_alt by nra. rewrite sqrt_square by lra. rewrite <- Hrho.
  replace (0.8 * rho + 0.2 * d) with ((4 * rho + d) / 5) by lra.
  unfold c. field. lra.
Qed.

Lemma sqrt_zero_components dx dy : sqrt (dx * dx + dy * dy) = 0 → dx = 0 ∧ dy = 0.
Proof.
  intros H. apply sqrt_eq_0 in H; [|nra]. split; nra.
Qed.

(** Rounds on two distinct points: the realized distance moves toward the
    target by the factor 0.8 each round. *)
Lemma iterations_two k a b (sims : gmap string R) s pa pb :
  a ≠ b → sims !! pairKey a b = Some s → 0 <= 1 - s →
  0 < realizedDistance pa pb →
  ∃ pa' pb',
    iterations [a; b] sims k (<[b := pb]> (<[a := pa]> ∅))
    = Some (<[b := pb']> (<[a := pa']> ∅)) ∧
    0 < realizedDistance pa' pb' ∧
    realizedDistance pa' pb' - (1 - s) = 0.8 ^ k * (realizedDistance pa pb - (1 - s)).
Proof.
  intros Hab Hs Hd. revert pa pb.
  induction k as [|k IH]; intros pa pb Hpos.
  - exists pa, pb. simpl. split; [done|]. split; [done|lra].
  - cbn [iterations]. rewrite (iteration_two a b sims s) by done. cbv zeta.
    cbn [mbind option_bind].
    assert (Hfloor : flooredDistance (x pa - x pb) (y pa - y pb)
                     = realizedDistance pa pb).
    { unfold flooredDistance. apply orNum_nonzero.
      fold (realizedDistance pa pb). lra. }
    rewrite Hfloor. set (rho := realizedDistance pa pb) in *.
    match goal with |- context [iterations _ _ k (<[b := ?q]> (<[a := ?p]> ∅))] =>
      set (pa1 := p); set (pb1 := q) end.
    assert (Hstep : realizedDistance pa1 pb1 = 0.8 * rho + 0.2 * (1 - s)).
    { pose proof (realized_after_round (x pa - x pb) (y pa - y pb) (1 - s) rho
                    eq_refl Hpos Hd) as Hround. cbv zeta in Hround.
      rewrite <- Hround. unfold realizedDistance, pa1, pb1. cbn [x y].
      set (u := (rho - (1 - s)) * 0.1 * (x pa - x pb) / rho).
      set (v := (rho - (1 - s)) * 0.1 * (y pa - y pb) / rho).
      f_equal. ring. }
    destruct (IH pa1 pb1) as (pa' & pb' & Hrun & Hpos' & Hdist); [lra|].
    exists pa', pb'. split; [done|]. split; [done|].
    rewrite Hdist, Hstep. simpl pow. lra.
Qed.

(** Rounds on two points that coincide leave them coinciding. *)
Lemma iterations_coincident k a b (sims : gmap string R) s pa pb :
  a ≠ b → sims !! pairKey a b = Some s →
  x pa = x pb → y pa = y pb →
  ∃ pa' pb',
    iterations [a; b] sims k (<[b := pb]> (<[a := pa]> ∅))
    = Some (<[b := pb']> (<[a := pa']> ∅)) ∧
    x pa' = x pb' ∧ y pa' = y pb'.
Proof.
  intros Hab Hs. revert pa pb.
  induction k as [|k IH]; intros pa pb Hx Hy.
  - exists pa, pb. by simpl.
  - cbn [iterations]. rewrite (iteration_two a b sims s) by done. cbv zeta.
    cbn [mbind option_bind]. apply IH; cbn [x y].
    + replace (x pa - x pb) with 0 by lra. unfold Rdiv.
      rewrite !Rmult_0_r, !Rmult_0_l. lra.
    + replace (y pa - y pb) with 0 by lra. unfold Rdiv.
      rewrite !Rmult_0_r, !Rmult_0_l. lra.
Qed.

Lemma initialCoords_two a b (random : nat → R) :
  initialCoords [a; b] random =
  <[b := {| x := (random 2%nat - 0.5) * 2; y := (random 3%nat - 0.5) * 2 |}]>
    (<[a := {| x := (random 0%nat - 0.5) * 2; y := (random 1%nat - 0.5) * 2 |}]> ∅).
Proof. reflexivity. Qed.

(** C8, as amended.  For two items with target distance d in 0..1 whose
    initial positions are the ones the code draws (coordinates in [-1,1)) and
    are not the same point, the 200 rounds end with the two points at a
    distance within 0.05 of d. *)
Theorem two_item_layout_converges a b (sims : gmap string R) (random : nat → R) s :
  a ≠ b → sims !! pairKey a b = Some s → 0 <= 1 - s <= 1 →
  (∀ k, (k < 4)%nat → 0 <= random k < 1) →
  (random 0%nat ≠ random 2%nat ∨ random 1%nat ≠ random 3%nat) →
  ∃ final pa pb,
    generateEmbeddings [a; b] sims random = Some final ∧
    final !! a = Some pa ∧ final !! b = Some pb ∧
    Rabs (realizedDistance pa pb - (1 - s)) <= 0.05.
Proof.
  intros Hab Hs Hd Hdraws Hapart.
  unfold generateEmbeddings. rewrite initialCoords_two.
  set (pa := {| x := (random 0%nat - 0.5) * 2; y := (random 1%nat - 0.5) * 2 |}).
  set (pb := {| x := (random 2%nat - 0.5) * 2; y := (random 3%nat - 0.5) * 2 |}).
  pose proof (Hdraws 0%nat ltac:(lia)) as H0.
  pose proof (Hdraws 1%nat ltac:(lia)) as H1.
  pose proof (Hdraws 2%nat ltac:(lia)) as H2.
  pose proof (Hdraws 3%nat ltac:(lia)) as H3.
  set (dx := x pa - x pb). set (dy := y pa - y pb).
  assert (Hdx : -2 < dx < 2) by (unfold dx, pa, pb; cbn [x]; lra).
  assert (Hdy : -2 < dy < 2) by (unfold dy, pa, pb; cbn [y]; lra).
  assert (Hne : dx ≠ 0 ∨ dy ≠ 0).
  { destruct Hapart; [left|right]; unfold dx, dy, pa, pb; cbn [x y]; lra. }
  assert (Hsq : 0 < dx * dx + dy * dy < 3 * 3) by (destruct Hne; nra).
  assert (Hrho : 0 < realizedDistance pa pb < 3).
  { unfold realizedDistance. fold dx dy. split.
    - apply sqrt_lt_R0. lra.
    - rewrite <- (sqrt_square 3) by lra. apply sqrt_lt_1_alt. lra. }
  destruct (iterations_two 200 a b sims s pa pb Hab Hs) as (pa' & pb' & Hrun & _ & Hdist);
    [lra|lra|].
  exists (<[b := pb']> (<[a := pa']> ∅)), pa', pb'.
  split; [done|]. split.
  { rewrite lookup_insert_ne by congruence. by rewrite lookup_insert_eq. }
  split; [by rewrite lookup_insert_eq|].
  rewrite Hdist, Rabs_mult, (Rabs_pos_eq (0.8 ^ 200)) by (apply pow_le; lra).
  assert (Hgap : Rabs (realizedDistance pa pb - (1 - s)) <= 3).
  { apply Rabs_le. lra. }
  pose proof contraction_bound as Hbound.
  assert (Hpow : 0 <= 0.8 ^ 200) by (apply pow_le; lra).
  nra.
Qed.

(** Two items that start on one point, with target distance 1: after the 200
    rounds they are still on one point, at distance 0 from each other. *)
Lemma coincident_start_never_separates :
  Samples.unlike !! pairKey "lavender" "bergamot" = Some 0 ∧
  ∃ final pa pb,
    generateEmbeddings Samples.twoOils Samples.unlike Samples.sameDraws = Some final ∧
    final !! "lavender"%string = Some pa ∧ final !! "bergamot"%string = Some pb ∧
    realizedDistance pa pb = 0 ∧
    ¬ (Rabs (realizedDistance pa pb - (1 - 0)) <= 0.05).
Proof.
  split; [reflexivity|].
  unfold generateEmbeddings, Samples.twoOils. rewrite initialCoords_two.
  destruct (iterations_coincident 200 "lavender" "bergamot" Samples.unlike 0
              {| x := (Samples.sameDraws 0%nat - 0.5) * 2;
                 y := (Samples.sameDraws 1%nat - 0.5) * 2 |}
              {| x := (Samples.sameDraws 2%nat - 0.5) * 2;
                 y := (Samples.sameDraws 3%nat - 0.5) * 2 |})
    as (pa' & pb' & Hrun & Hx & Hy); [done|reflexivity|reflexivity|reflexivity|].
  exists (<[("bergamot"%string) := pb']> (<[("lavender"%string) := pa']> ∅)), pa', pb'.
  split; [done|]. split; [reflexivity|]. split; [reflexivity|].
  assert (Hzero : realizedDistance pa' pb' = 0).
  { unfold realizedDistance. rewrite Hx, Hy.
    replace ((x pb' - x pb') * (x pb' - x pb') + (y pb' - y pb') * (y pb' - y pb'))
      with 0 by ring.
    apply sqrt_0. }
  split; [done|]. rewrite Hzero.
  unfold Rabs. destruct (Rcase_abs (0 - (1 - 0))); lra.
Qed.

(* ===================================================================== *)
(** * The classical-MDS path *)
(* ===================================================================== *)

Import ClassicalMDS.

Section MDSFacts.

Import PrimFloat.
Local Open Scope float_scope.

(** C3.  On two items at distance 0.5, [centerDistanceMatrix], the centering
    that feeds [eigenDecomposition], returns the centered raw distances: it
    neither squares the entries nor applies the factor -0.5, and so differs
    from the double-centered squared-distance matrix, which the centering of
    [simpleMDS] does compute. *)
Theorem centerDistanceMatrix_on_half_pair :
  centerDistanceMatrix MDSSamples.halfPair
  = [[-0.25; 0.25]; [0.25; -0.25]] ∧
  doubleCenteredSquares MDSSamples.halfPair
  = [[0.0625; -0.0625]; [-0.0625; 0.0625]] ∧
  simpleMDSCentered MDSSamples.halfPair = doubleCenteredSquares MDSSamples.halfPair ∧
  centerDistanceMatrix MDSSamples.halfPair ≠ doubleCenteredSquares MDSSamples.halfPair.
Proof.
  split; [vm_compute; reflexivity|]. split; [vm_compute; reflexivity|].
  split; [vm_compute; reflexivity|].
  intros H.
  apply (f_equal (λ m, ((m !!! 0%nat) !!! 0%nat <? 0))) in H.
  vm_compute in H. discriminate.
Qed.

(** C5.  On the all-zero distance matrix of three items the power iteration
    of [eigenDecomposition] divides the zero vector by its norm 0, and every
    coordinate returned by [performMDS] is NaN. *)
Theorem performMDS_all_zero_is_NaN :
  performMDS MDSSamples.drawsA MDSSamples.allZero 2
  = [[nan; nan]; [nan; nan]; [nan; nan]] ∧
  powerStep (centerDistanceMatrix MDSSamples.allZero) [0.3125; -0.3125; -0.0625]
  = [nan; nan; nan] ∧
  allNaN (performMDS MDSSamples.drawsA MDSSamples.allZero 2) = true ∧
  allNaN (performMDS MDSSamples.drawsB MDSSamples.allZero 2) = true ∧
  allFinite (performMDS MDSSamples.drawsA MDSSamples.allZero 2) = false.
Proof. repeat split; vm_compute; reflexivity. Qed.

End MDSFacts.

(* ===================================================================== *)
(** * The statements at concrete inputs *)
(* ===================================================================== *)

(** With no similarity recorded for lavender and bergamot, the builder of
    [AINotesVisualization.generateEmbeddings] puts them at distance 1, the
    distance of similarity zero, and not at 0.5. *)
Lemma absent_pair_at_distance_one :
  (∅ : gmap string R) !! AINotesVisualization.pairKey "lavender" "bergamot" = None ∧
  get2 (AINotesVisualization.distanceMatrix Samples.twoOils ∅) 0 1 = Some 1 ∧
  get2 (AINotesVisualization.distanceMatrix Samples.twoOils ∅) 0 1 ≠ Some 0.5.
Proof.
  assert (Hcell : get2 (AINotesVisualization.distanceMatrix Samples.twoOils ∅) 0 1
                  = Some 1).
  { destruct (distanceMatrix_cells Samples.twoOils ∅) as [_ Hcells].
    rewrite Hcells by (simpl; lia). rewrite lookup_empty. simpl. f_equal. lra. }
  split; [apply lookup_empty|]. split; [done|].
  rewrite Hcell. intros [= H]. lra.
Qed.

Lemma createDistanceMatrix_symmetric_bounded_witness :
  scoresWithinBounds Samples.oneEntry ∧
  square 2 (createDistanceMatrix Samples.twoOils Samples.oneEntry).
Proof.
  assert (Hb : scoresWithinBounds Samples.oneEntry).
  { intros key e He. unfold Samples.oneEntry in He.
    apply lookup_singleton_Some in He as [_ <-]. simpl. lra. }
  split; [exact Hb|].
  exact (proj1 (createDistanceMatrix_symmetric_bounded
                  Samples.twoOils Samples.oneEntry Hb)).
Defined.

Lemma absent_pair_distance_witness :
  get2 (createDistanceMatrix Samples.twoOils ∅) 0 1 = Some 0.5 ∧
  get2 (AINotesVisualization.distanceMatrix Samples.twoOils ∅) 0 1 = Some 1.
Proof.
  destruct (absent_pair_distance Samples.twoOils ∅ ∅ 0 1) as [Hllm Hai].
  - simpl. lia.
  - simpl. lia.
  - lia.
  - split; [apply Hllm, lookup_empty|apply Hai, lookup_empty].
Defined.

Lemma zero_score_reads_as_absent_witness :
  get2 (createDistanceMatrix Samples.twoOils Samples.zeroEntry) 0 1 = Some 0.5.
Proof.
  refine (proj1 (zero_score_reads_as_absent Samples.twoOils Samples.zeroEntry 0 1
                   _ _ _ _ _ _)).
  - simpl. lia.
  - simpl. lia.
  - lia.
  - apply lookup_singleton_eq.
  - reflexivity.
Defined.


Lemma tfidf_weight_witness :
  ∃ vec, vectorize Samples.catalog !! 0%nat = Some ("lavender"%string, vec) ∧
         length vec = length (buildVocabulary Samples.catalog).
Proof.
  destruct (tfidf_weight Samples.catalog 0 "lavender" Samples.lavender 0 "floral")
    as (vec & w & Hvec & Hlen & _).
  - reflexivity.
  - reflexivity.
  - exists vec. split; [exact Hvec|exact Hlen].
Defined.

Lemma two_item_layout_converges_witness :
  ∃ final pa pb,
    generateEmbeddings Samples.twoOils Samples.halfAlike Samples.apartDraws = Some final ∧
    final !! "lavender"%string = Some pa ∧ final !! "bergamot"%string = Some pb ∧
    Rabs (realizedDistance pa pb - (1 - 0.5)) <= 0.05.
Proof.
  apply (two_item_layout_converges "lavender" "bergamot"
           Samples.halfAlike Samples.apartDraws 0.5).
  - done.
  - reflexivity.
  - lra.
  - intros k Hk. destruct k as [|[|[|[|k]]]]; simpl; lra || lia.
  - left. simpl. lra.
Defined.


(* ===================================================================== *)
(** * More on the generation of the similarity matrix *)
(* ===================================================================== *)

Section MoreGenerationFacts.

Context {Blob : Type}.
Variable stringify : CacheFile → Blob.
Variable parse : Blob → option CacheFile.
Variable now : string.
Variable oracle : string → string → option SimEntry.
Variable oils : Catalog.

Lemma saveCache_writable (st : State (Blob := Blob)) :
  writable (disk (saveCache stringify now oils st)) = writable (disk st).
Proof. unfold saveCache. by destruct (writable (disk st)) eqn:Hw; cbn. Qed.

Lemma loadCache_writable (st : State (Blob := Blob)) :
  writable (disk (loadCache parse st).1) = writable (disk st).
Proof.
  unfold loadCache. destruct (content (disk st)) as [bytes|]; [|done].
  by destruct (parse bytes).
Qed.

(** After its step a pair has an entry under its key, the disk is still
    writable if it was, and the matrix is of the kind it was. *)
Lemma pairStep_stores i j (s s' : State (Blob := Blob) * nat) :
  pairStep stringify now oracle oils i j s = Some s' →
  is_Some (similarityMatrix s'.1
             !! getSimilarityKey (oilNames oils !!! i) (oilNames oils !!! j)) ∧
  writable (disk s'.1) = writable (disk s.1) ∧
  isObject (similarityMatrix s'.1) = isObject (similarityMatrix s.1).
Proof.
  intros Hstep. split; [|split].
  - destruct (pairStep_matrix stringify now oracle oils i j s s' Hstep)
      as [[Hcached ->]|[_ (e & Hstore & _)]]; [done|].
    rewrite (store_lookup_eq _ _ _ _ Hstore). by eexists.
  - revert Hstep. destruct s as [st k]. unfold pairStep, getSimilarityScore.
    cbn [fst snd].
    set (a := oilNames oils !!! i). set (b := oilNames oils !!! j).
    set (c := (S k mod 5 =? 0)%nat).
    destruct (similarityMatrix st !! getSimilarityKey a b) as [e0|].
    { intros [= <-]. cbn [fst]. destruct c; by rewrite ?saveCache_writable. }
    destruct (oracle a b) as [e1|].
    { destruct (store (getSimilarityKey a b) e1 (similarityMatrix st)) as [matrix|].
      - intros [= <-]. cbn [fst]. destruct c; by rewrite ?saveCache_writable.
      - destruct (fallbackEntry now oils a b) as [e|]; cbn [mbind option_bind]; [|done].
        destruct (store (getSimilarityKey a b) e (similarityMatrix st));
          cbn [mbind option_bind]; [|done].
        by intros [= <-]. }
    destruct (fallbackEntry now oils a b) as [e|]; cbn [mbind option_bind]; [|done].
    destruct (store (getSimilarityKey a b) e (similarityMatrix st));
      cbn [mbind option_bind]; [|done].
    by intros [= <-].
  - destruct (pairStep_matrix stringify now oracle oils i j s s' Hstep)
      as [[_ ->]|[_ (e & Hstore & _)]]; [done|].
    by destruct (store_shape _ _ _ _ Hstore) as (_ & _ & ->).
Qed.

(** A run keeps the disk writable if it was, and the kind of the matrix. *)
Lemma runPairs_writable (pairs : list (nat * nat)) (s s' : State (Blob := Blob) * nat) :
  runPairs stringify now oracle oils pairs (Some s) = Some s' →
  writable (disk s'.1) = writable (disk s.1) ∧
  isObject (similarityMatrix s'.1) = isObject (similarityMatrix s.1).
Proof.
  unfold runPairs. revert s.
  induction pairs as [|[i j] pairs IH]; intros s; cbn [fold_left].
  - by intros [= <-].
  - cbn [mbind option_bind fst snd].
    destruct (pairStep stringify now oracle oils i j s) as [s1|] eqn:Hstep.
    + intros Hrun. destruct (IH s1 Hrun) as [-> ->].
      destruct (pairStep_stores i j s s1 Hstep) as (_ & -> & ->). done.
    + intros Hrun. exfalso. revert Hrun. clear.
      induction pairs as [|p pairs IH]; [done|apply IH].
Qed.

(** The run behind [generateSimilarityMatrix]. *)
Lemma generate_as_run (st : State (Blob := Blob)) :
  acceptsStores (similarityMatrix (loadCache parse st).1) = true →
  ∃ s,
    runPairs stringify now oracle oils (pairsInOrder (length (oilNames oils)))
      (Some ((loadCache parse st).1, 0%nat)) = Some s ∧
    generateSimilarityMatrix stringify parse now oracle oils st
    = Some (saveCache stringify now oils s.1) ∧
    ∀ key e, similarityMatrix (loadCache parse st).1 !! key = Some e →
             similarityMatrix s.1 !! key = Some e.
Proof.
  intros Hshape.
  destruct (runPairs_spec stringify now oracle oils _ ((loadCache parse st).1, 0%nat)
              (pairsInOrder_bound (length (oilNames oils))) Hshape)
    as (s & Hrun & _ & Hkeep).
  exists s. split; [done|]. split; [|done].
  unfold generateSimilarityMatrix. rewrite loops_as_runPairs, Hrun. done.
Qed.

(** A run that returns, split at one of its pairs. *)
Lemma run_split before i j after (s0 s3 : State (Blob := Blob) * nat) :
  runPairs stringify now oracle oils (before ++ (i, j) :: after) (Some s0) = Some s3 →
  ∃ s1 s2,
    runPairs stringify now oracle oils before (Some s0) = Some s1 ∧
    pairStep stringify now oracle oils i j s1 = Some s2 ∧
    runPairs stringify now oracle oils after (Some s2) = Some s3.
Proof.
  intros Hrun. unfold runPairs in Hrun. rewrite fold_left_app in Hrun.
  cbn [fold_left] in Hrun.
  fold (runPairs stringify now oracle oils before (Some s0)) in Hrun.
  destruct (runPairs stringify now oracle oils before (Some s0)) as [s1|].
  - cbn [mbind option_bind fst snd] in Hrun.
    destruct (pairStep stringify now oracle oils i j s1) as [s2|] eqn:Hstep.
    + exists s1, s2. split; [done|]. split; [done|]. exact Hrun.
    + fold (runPairs stringify now oracle oils after None) in Hrun.
      by rewrite runPairs_None in Hrun.
  - cbn [mbind option_bind] in Hrun.
    fold (runPairs stringify now oracle oils after None) in Hrun.
    by rewrite runPairs_None in Hrun.
Qed.

(** An invariant of the matrix that every step of a run respects is kept by
    the run. *)
Lemma runPairs_invariant (P : Matrix → Prop)
    (pairs : list (nat * nat)) (s s' : State (Blob := Blob) * nat) :
  (∀ i j (t t' : State (Blob := Blob) * nat),
     (i, j) ∈ pairs → P (similarityMatrix t.1) →
     pairStep stringify now oracle oils i j t = Some t' →
     P (similarityMatrix t'.1)) →
  P (similarityMatrix s.1) →
  runPairs stringify now oracle oils pairs (Some s) = Some s' →
  P (similarityMatrix s'.1).
Proof.
  unfold runPairs. revert s.
  induction pairs as [|[i j] pairs IH]; intros s Hstep HP; cbn [fold_left].
  - by intros [= <-].
  - cbn [mbind option_bind fst snd].
    destruct (pairStep stringify now oracle oils i j s) as [s1|] eqn:Hs1.
    + apply IH.
      * intros i' j' t t' Hin. apply Hstep. by apply elem_of_cons; right.
      * apply (Hstep i j s s1); [by apply elem_of_cons; left|done|done].
    + intros Hrun. exfalso. revert Hrun. clear.
      induction pairs as [|p pairs IH]; [done|apply IH].
Qed.

(** Entries are kept by a run that returns. *)
Lemma runPairs_keeps (pairs : list (nat * nat)) (s s' : State (Blob := Blob) * nat) key e :
  runPairs stringify now oracle oils pairs (Some s) = Some s' →
  similarityMatrix s.1 !! key = Some e →
  similarityMatrix s'.1 !! key = Some e.
Proof.
  intros Hrun He.
  apply (runPairs_invariant (λ m, m !! key = Some e) pairs s s'); [|done..].
  intros i j t t' _ Ht Hstep.
  destruct (pairStep_matrix stringify now oracle oils i j t t' Hstep)
    as [[_ ->]|[Hnone (e' & Hstore & _)]]; [done|].
  rewrite (store_lookup_ne _ key _ _ _ Hstore); [done|]. congruence.
Qed.

(** When every pair of a run has its entry, the run returns and leaves the
    matrix as it is. *)
Lemma runPairs_all_cached (pairs : list (nat * nat)) (s : State (Blob := Blob) * nat) :
  Forall (λ p, is_Some (similarityMatrix s.1
                          !! getSimilarityKey (oilNames oils !!! p.1) (oilNames oils !!! p.2)))
         pairs →
  ∃ s', runPairs stringify now oracle oils pairs (Some s) = Some s' ∧
        similarityMatrix s'.1 = similarityMatrix s.1.
Proof.
  unfold runPairs. intros Hpairs. revert s Hpairs.
  induction pairs as [|[i j] pairs IH]; intros s Hpairs; cbn [fold_left].
  - by exists s.
  - apply Forall_cons in Hpairs as [[e He] Hpairs]. cbn [fst snd] in He.
    cbn [mbind option_bind fst snd].
    assert (Hstep : ∃ s1, pairStep stringify now oracle oils i j s = Some s1 ∧
                          similarityMatrix s1.1 = similarityMatrix s.1).
    { destruct s as [st k]. unfold pairStep, getSimilarityScore. cbn [fst snd] in *.
      rewrite He. eexists. split; [done|]. cbn [fst].
      destruct (S k mod 5 =? 0)%nat; by rewrite ?saveCache_similarityMatrix. }
    destruct Hstep as (s1 & -> & Hsame).
    destruct (IH s1) as (s' & -> & Hsame'); [by rewrite Hsame|].
    exists s'. split; [done|]. by rewrite Hsame'.
Qed.

End MoreGenerationFacts.

(** X1.  When [loadCache] leaves an object or an array in
    [this.similarityMatrix], [generateSimilarityMatrix] returns, whatever
    entries the cache file holds and whether each request is answered or
    rejected; afterwards the similarity matrix has an entry for every two
    distinct positions of the catalog, looked up with the two names in either
    order. *)
Theorem generateSimilarityMatrix_complete
    {Blob : Type} (stringify : CacheFile → Blob) (parse : Blob → option CacheFile)
    (now : string) (oracle : string → string → option SimEntry) (oils : Catalog)
    (st : State) :
  acceptsStores (similarityMatrix (loadCache parse st).1) = true →
  ∃ final,
    generateSimilarityMatrix stringify parse now oracle oils st = Some final ∧
    ∀ i j, (i < length (oilNames oils))%nat → (j < length (oilNames oils))%nat →
      i ≠ j →
      is_Some (cacheLookup (similarityMatrix final)
                 (oilNames oils !!! i) (oilNames oils !!! j)).
Proof.
  intros Hshape.
  destruct (generate_as_run stringify parse now oracle oils st Hshape)
    as (s & Hrun & Hgen & _).
  eexists. split; [exact Hgen|]. rewrite saveCache_similarityMatrix.
  assert (Hlt : ∀ i j, (i < j)%nat → (j < length (oilNames oils))%nat →
            is_Some (similarityMatrix s.1
                       !! getSimilarityKey (oilNames oils !!! i) (oilNames oils !!! j))).
  { intros i j Hij Hj.
    destruct (list_elem_of_split _ _ (pairsInOrder_elem _ i j Hij Hj))
      as (before & after & Hsplit).
    rewrite Hsplit in Hrun.
    destruct (run_split stringify now oracle oils before i j after _ _ Hrun)
      as (s1 & s2 & _ & Hstep & Hafter).
    destruct (pairStep_stores stringify now oracle oils i j s1 s2 Hstep) as [[e He] _].
    exists e. by apply (runPairs_keeps stringify now oracle oils after s2 s). }
  intros i j Hi Hj Hne. unfold cacheLookup. rewrite <- matrix_lookup_entries.
  destruct (Nat.lt_total i j) as [Hlt'|[->|Hgt]]; [by apply Hlt|done|].
  rewrite getSimilarityKey_comm. by apply Hlt.
Qed.

(** X2.  When [loadCache] leaves an object or an array in
    [this.similarityMatrix], generation returns and replaces no entry that
    the test at the head of [getSimilarityScore] finds: every such entry of
    the matrix as it is after [loadCache] is in the final matrix,
    unchanged. *)
Theorem generateSimilarityMatrix_keeps_cache
    {Blob : Type} (stringify : CacheFile → Blob) (parse : Blob → option CacheFile)
    (now : string) (oracle : string → string → option SimEntry) (oils : Catalog)
    (st : State) :
  acceptsStores (similarityMatrix (loadCache parse st).1) = true →
  ∃ final,
    generateSimilarityMatrix stringify parse now oracle oils st = Some final ∧
    ∀ key e, similarityMatrix (loadCache parse st).1 !! key = Some e →
             similarityMatrix final !! key = Some e.
Proof.
  intros Hshape.
  destruct (generate_as_run stringify parse now oracle oils st Hshape)
    as (s & Hrun & Hgen & Hkeep).
  eexists. split; [exact Hgen|]. intros key e He.
  rewrite saveCache_similarityMatrix. by apply Hkeep.
Qed.

Lemma pairsInOrder_lt n :
  Forall (λ p : nat * nat, (p.1 < p.2)%nat ∧ (p.2 < n)%nat) (pairsInOrder n).
Proof.
  apply Forall_forall. intros [i j] Hin. unfold pairsInOrder in Hin.
  apply list_elem_of_In, in_flat_map in Hin as (i' & Hi' & Hin).
  apply in_map_iff in Hin as (j' & [= <- <-] & Hj').
  apply in_seq in Hi'. apply in_seq in Hj'. simpl. lia.
Qed.

(** X3.  If [loadCache] leaves an object or an array in
    [this.similarityMatrix], the scores loaded from the cache lie between 0
    and 100 and the comparison process only answers scores between 0 and 100,
    then all scores of the generated matrix lie between 0 and 100 (the
    fallback scores 60 and 30 included) and every cell of the distance matrix
    built from it lies between 0 and 1. *)
Theorem generated_scores_within_bounds
    {Blob : Type} (stringify : CacheFile → Blob) (parse : Blob → option CacheFile)
    (now : string) (oracle : string → string → option SimEntry) (oils : Catalog)
    (st : State) :
  acceptsStores (similarityMatrix (loadCache parse st).1) = true →
  scoresWithinBounds (similarityMatrix (loadCache parse st).1) →
  (∀ a b e, oracle a b = Some e → 0 <= similarity e <= 100) →
  ∃ final,
    generateSimilarityMatrix stringify parse now oracle oils st = Some final ∧
    scoresWithinBounds (similarityMatrix final) ∧
    ∀ i j, (i < length (oilNames oils))%nat → (j < length (oilNames oils))%nat →
      ∃ d, get2 (createDistanceMatrix (oilNames oils) (similarityMatrix final)) i j
           = Some d ∧ 0 <= d <= 1.
Proof.
  intros Hshape Hcache Horacle.
  destruct (generate_as_run stringify parse now oracle oils st Hshape)
    as (s & Hrun & Hgen & _).
  eexists. split; [exact Hgen|]. rewrite saveCache_similarityMatrix.
  assert (Hb : scoresWithinBounds (similarityMatrix s.1)).
  { apply (runPairs_invariant stringify now oracle oils
             (λ m : Matrix, scoresWithinBounds m) _ _ _) with (3 := Hrun);
      [|exact Hcache].
    intros i j t t' _ Ht Hstep.
    destruct (pairStep_matrix stringify now oracle oils i j t t' Hstep)
      as [[_ ->]|[_ (e & Hstore & Hsource)]]; [done|].
    intros key e' He'. rewrite (store_entries _ _ _ _ Hstore) in He'.
    apply lookup_insert_Some in He' as [[_ <-]|[_ He']];
      [|by apply (Ht key)].
    destruct Hsource as [Hsome|[_ Hfb]]; [by apply (Horacle _ _ _ Hsome)|].
    unfold fallbackEntry in Hfb.
    destruct (lookupOil oils (oilNames oils !!! i)) as [d1|];
      cbn [mbind option_bind] in Hfb; [|done].
    destruct (lookupOil oils (oilNames oils !!! j)) as [d2|];
      cbn [mbind option_bind] in Hfb; [|done].
    injection Hfb as <-. cbn [similarity]. destruct (bool_decide _); lra. }
  split; [done|]. intros i j Hi Hj.
  destruct (createDistanceMatrix_cells (oilNames oils) (similarityMatrix s.1)) as [_ Hcells].
  eexists. split; [by apply Hcells|].
  destruct (i =? j)%nat; [lra|].
  pose proof (similarityOr50_bounds (similarityMatrix s.1)
                (getSimilarityKey (oilNames oils !!! i) (oilNames oils !!! j)) Hb).
  lra.
Qed.

(** X4.  With a codec that parses what it writes, a writable disk and an
    object left in [this.similarityMatrix] by [loadCache], the cache file
    left by [generateSimilarityMatrix] holds the final matrix: an instance
    with any matrix in memory that loads the file gets exactly the final
    matrix, and [loadCache] reports success. *)
Theorem generated_matrix_is_persisted
    {Blob : Type} (stringify : CacheFile → Blob) (parse : Blob → option CacheFile)
    (now : string) (oracle : string → string → option SimEntry) (oils : Catalog)
    (st : State) :
  (∀ c, parse (stringify c) = Some c) →
  writable (disk st) = true →
  isObject (similarityMatrix (loadCache parse st).1) = true →
  ∃ final,
    generateSimilarityMatrix stringify parse now oracle oils st = Some final ∧
    ∀ fresh,
      loadCache parse {| similarityMatrix := fresh; disk := disk final |}
      = ({| similarityMatrix := similarityMatrix final; disk := disk final |}, true).
Proof.
  intros Hcodec Hw Hobject.
  assert (Hshape : acceptsStores (similarityMatrix (loadCache parse st).1) = true)
    by by destruct (similarityMatrix (loadCache parse st).1).
  destruct (generate_as_run stringify parse now oracle oils st Hshape)
    as (s & Hrun & Hgen & _).
  destruct (runPairs_writable stringify now oracle oils _ _ _ Hrun) as [Hw' Hobject'].
  cbn [fst] in Hw', Hobject'. rewrite loadCache_writable, Hw in Hw'.
  rewrite Hobject in Hobject'.
  eexists. split; [exact Hgen|]. intros fresh.
  rewrite saveCache_similarityMatrix.
  rewrite (loadCache_after_saveCache stringify parse now oils s.1 fresh) by done.
  by rewrite parsed_written.
Qed.

(** X5.  When the matrix that [loadCache] leaves has, for every pair of the
    catalog, an entry that the test at the head of [getSimilarityScore]
    finds (a truthy value under the pair's key), generation changes nothing:
    the final matrix is the loaded one, whatever the comparison process
    would answer. *)
Theorem complete_cache_decides
    {Blob : Type} (stringify : CacheFile → Blob) (parse : Blob → option CacheFile)
    (now : string) (oracle : string → string → option SimEntry) (oils : Catalog)
    (st : State) :
  (∀ i j, (i < j)%nat → (j < length (oilNames oils))%nat →
     is_Some (similarityMatrix (loadCache parse st).1
                !! getSimilarityKey (oilNames oils !!! i) (oilNames oils !!! j))) →
  ∃ final,
    generateSimilarityMatrix stringify parse now oracle oils st = Some final ∧
    similarityMatrix final = similarityMatrix (loadCache parse st).1.
Proof.
  intros Hfull.
  destruct (runPairs_all_cached stringify now oracle oils
              (pairsInOrder (length (oilNames oils))) ((loadCache parse st).1, 0%nat))
    as (s & Hrun & Hsame).
  { pose proof (pairsInOrder_lt (length (oilNames oils))) as Hlt.
    rewrite Forall_forall in Hlt. apply Forall_forall. intros [i j] Hin.
    destruct (Hlt _ Hin) as [Hij Hj]. by apply Hfull. }
  exists (saveCache stringify now oils s.1). split.
  - unfold generateSimilarityMatrix. by rewrite loops_as_runPairs, Hrun.
  - by rewrite saveCache_similarityMatrix.
Qed.

Section DiskIndependence.

Context {Blob : Type}.
Variable stringify : CacheFile → Blob.
Variable parse : Blob → option CacheFile.
Variable now : string.
Variable oracle : string → string → option SimEntry.
Variable oils : Catalog.

(** A step reads the matrix and the counter, never the disk. *)
Lemma pairStep_same_matrix i j (t1 t2 t1' : State (Blob := Blob) * nat) :
  similarityMatrix t1.1 = similarityMatrix t2.1 → t1.2 = t2.2 →
  pairStep stringify now oracle oils i j t1 = Some t1' →
  ∃ t2', pairStep stringify now oracle oils i j t2 = Some t2' ∧
         similarityMatrix t1'.1 = similarityMatrix t2'.1 ∧ t1'.2 = t2'.2.
Proof.
  destruct t1 as [[m1 d1] k1], t2 as [[m2 d2] k2].
  cbn [fst snd similarityMatrix]. intros <- ->.
  unfold pairStep, getSimilarityScore. cbn [similarityMatrix disk].
  set (a := oilNames oils !!! i). set (b := oilNames oils !!! j).
  set (c := (S k2 mod 5 =? 0)%nat).
  destruct (m1 !! getSimilarityKey a b) as [e0|].
  - intros [= <-]. eexists. split; [done|]. cbn [fst snd]. split; [|done].
    destruct c; by rewrite ?saveCache_similarityMatrix.
  - destruct (oracle a b) as [e1|].
    + destruct (store (getSimilarityKey a b) e1 m1) as [matrix|].
      * intros [= <-]. eexists. split; [done|]. cbn [fst snd]. split; [|done].
        destruct c; by rewrite ?saveCache_similarityMatrix.
      * destruct (fallbackEntry now oils a b) as [e|];
          cbn [mbind option_bind similarityMatrix disk]; [|done].
        destruct (store (getSimilarityKey a b) e m1);
          cbn [mbind option_bind]; [|done].
        intros [= <-]. eexists. split; [done|]. by cbn.
    + destruct (fallbackEntry now oils a b) as [e|];
        cbn [mbind option_bind similarityMatrix disk]; [|done].
      destruct (store (getSimilarityKey a b) e m1);
        cbn [mbind option_bind]; [|done].
      intros [= <-]. eexists. split; [done|]. by cbn.
Qed.

Lemma runPairs_same_matrix pairs (t1 t2 t1' : State (Blob := Blob) * nat) :
  similarityMatrix t1.1 = similarityMatrix t2.1 → t1.2 = t2.2 →
  runPairs stringify now oracle oils pairs (Some t1) = Some t1' →
  ∃ t2', runPairs stringify now oracle oils pairs (Some t2) = Some t2' ∧
         similarityMatrix t1'.1 = similarityMatrix t2'.1.
Proof.
  unfold runPairs. revert t1 t2.
  induction pairs as [|[i j] pairs IH]; intros t1 t2 Hm Hk; cbn [fold_left].
  - intros [= <-]. by exists t2.
  - cbn [mbind option_bind fst snd].
    destruct (pairStep stringify now oracle oils i j t1) as [s1|] eqn:Hs1.
    + destruct (pairStep_same_matrix i j t1 t2 s1 Hm Hk Hs1) as (s2 & -> & Hm' & Hk').
      by apply IH.
    + intros Hrun. exfalso. revert Hrun. clear.
      induction pairs as [|p pairs IH]; [done|apply IH].
Qed.

End DiskIndependence.

(** X6.  A cache file that does not parse counts as a missing one: from the same
    matrix in memory, an object, generation with the corrupt file and
    generation without a file end with the same similarity matrix, whether or
    not the disk can be written. *)
Theorem corrupt_cache_is_no_cache
    {Blob : Type} (stringify : CacheFile → Blob) (parse : Blob → option CacheFile)
    (now : string) (oracle : string → string → option SimEntry) (oils : Catalog)
    (matrix : gmap string SimEntry) (bytes : Blob) (w w' : bool) :
  parse bytes = None →
  ∃ final final',
    generateSimilarityMatrix stringify parse now oracle oils
      {| similarityMatrix := ObjectValue matrix;
         disk := {| content := Some bytes; writable := w |} |} = Some final ∧
    generateSimilarityMatrix stringify parse now oracle oils
      {| similarityMatrix := ObjectValue matrix;
         disk := {| content := None; writable := w' |} |} = Some final' ∧
    similarityMatrix final = similarityMatrix final'.
Proof.
  intros Hcorrupt.
  destruct (generate_as_run stringify parse now oracle oils
              {| similarityMatrix := ObjectValue matrix;
                 disk := {| content := Some bytes; writable := w |} |})
    as (s & Hrun & Hgen & _).
  { unfold loadCache. cbn. by rewrite Hcorrupt. }
  destruct (runPairs_same_matrix stringify now oracle oils
              (pairsInOrder (length (oilNames oils)))
              ((loadCache parse {| similarityMatrix := ObjectValue matrix;
                                   disk := {| content := Some bytes; writable := w |} |}).1,
               0%nat)
              ((loadCache parse {| similarityMatrix := ObjectValue matrix;
                                   disk := {| content := None; writable := w' |} |}).1,
               0%nat) s) as (s' & Hrun' & Hm).
  { unfold loadCache. cbn. by rewrite Hcorrupt. }
  { done. }
  { exact Hrun. }
  exists (saveCache stringify now oils s.1), (saveCache stringify now oils s'.1).
  split; [done|]. split.
  - unfold generateSimilarityMatrix. by rewrite loops_as_runPairs, Hrun'.
  - by rewrite !saveCache_similarityMatrix.
Qed.


(* ===================================================================== *)
(** * Cache files of another shape *)
(* ===================================================================== *)

Lemma pairsInOrder_few n : (n < 2)%nat → pairsInOrder n = [].
Proof. destruct n as [|[|n]]; [done|done|lia]. Qed.

(** X28.  When the parsed cache file holds a truthy primitive under
    [similarityMatrix] (a non-empty string, a non-zero number or [true]),
    [loadCache] reports success all the same, and generation over two items
    or more throws, whatever the requests answer: the store of an answer
    throws and rejects the request, and the store of the fallback throws out
    of the [catch] branch.  Over fewer than two items no store is made:
    generation returns and keeps the primitive. *)
Theorem primitive_cache_aborts
    {Blob : Type} (stringify : CacheFile → Blob) (parse : Blob → option CacheFile)
    (now : string) (oracle : string → string → option SimEntry) (oils : Catalog)
    (st : State) (bytes : Blob) (cached : CacheFile) :
  content (disk st) = Some bytes →
  parse bytes = Some cached →
  cachedSimilarityMatrix cached = Some CachedPrimitive →
  (loadCache parse st).2 = true ∧
  ((2 ≤ length (oilNames oils))%nat →
   generateSimilarityMatrix stringify parse now oracle oils st = None) ∧
  ((length (oilNames oils) < 2)%nat →
   ∃ final,
     generateSimilarityMatrix stringify parse now oracle oils st = Some final ∧
     similarityMatrix final = PrimitiveValue).
Proof.
  intros Hcontent Hparse Hprimitive.
  assert (Hload : loadCache parse st
                  = ({| similarityMatrix := PrimitiveValue; disk := disk st |}, true)).
  { unfold loadCache. by rewrite Hcontent, Hparse, Hprimitive. }
  split; [by rewrite Hload|]. split.
  - intros Hlen. apply generation_on_primitive; [by rewrite Hload|done].
  - intros Hlen. unfold generateSimilarityMatrix.
    rewrite loops_as_runPairs, pairsInOrder_few by done. cbn.
    eexists. split; [done|]. by rewrite saveCache_similarityMatrix, Hload.
Qed.

(** X29.  When the parsed cache file holds an array under [similarityMatrix],
    generation returns with the entries stored as properties of the array,
    but [JSON.stringify] writes none of them: with a codec that parses what
    it writes and a writable disk, an instance that loads the file left by
    generation finds no entry at all. *)
Theorem array_cache_is_not_persisted
    {Blob : Type} (stringify : CacheFile → Blob) (parse : Blob → option CacheFile)
    (now : string) (oracle : string → string → option SimEntry) (oils : Catalog)
    (st : State) (bytes : Blob) (cached : CacheFile) :
  (∀ c, parse (stringify c) = Some c) →
  writable (disk st) = true →
  content (disk st) = Some bytes →
  parse bytes = Some cached →
  cachedSimilarityMatrix cached = Some CachedArray →
  ∃ final entries,
    generateSimilarityMatrix stringify parse now oracle oils st = Some final ∧
    similarityMatrix final = ArrayValue entries ∧
    ∀ fresh key,
      similarityMatrix (loadCache parse {| similarityMatrix := fresh;
                                           disk := disk final |}).1 !! key = None.
Proof.
  intros Hcodec Hw Hcontent Hparse Harray.
  assert (Hload : loadCache parse st
                  = ({| similarityMatrix := ArrayValue ∅; disk := disk st |}, true)).
  { unfold loadCache. by rewrite Hcontent, Hparse, Harray. }
  destruct (runPairs_spec stringify now oracle oils _ ((loadCache parse st).1, 0%nat)
              (pairsInOrder_bound (length (oilNames oils))))
    as (s & Hrun & Hshape & _); [by rewrite Hload|].
  destruct (runPairs_writable stringify now oracle oils _ _ _ Hrun) as [Hw' Hobject].
  rewrite Hload in Hw', Hobject. cbn in Hw', Hobject. rewrite Hw in Hw'.
  destruct (similarityMatrix s.1) as [|entries|] eqn:Hfinal; [done| |done].
  exists (saveCache stringify now oils s.1), entries. split; [|split].
  - unfold generateSimilarityMatrix. by rewrite loops_as_runPairs, Hrun.
  - by rewrite saveCache_similarityMatrix.
  - intros fresh key.
    rewrite (loadCache_after_saveCache stringify parse now oils s.1 fresh) by done.
    cbn [fst similarityMatrix]. by rewrite Hfinal.
Qed.

(* ===================================================================== *)
(** * Requests that do not settle *)
(* ===================================================================== *)

(** X30.  [generateSimilarityMatrix] puts no time limit on a request.  When
    every comparison process exits or fails to start, the call does what it
    does on the outcomes of the requests: it returns the same final state, or
    throws as well.  And the call waits without end exactly when it reaches a
    pair that has no entry at its turn and whose process never exits: it then
    stays in the state reached until then, stores no fallback for the pair
    and does not reach the final [saveCache]. *)
Theorem generation_waits_for_every_request
    {Blob : Type} (stringify : CacheFile → Blob) (parse : Blob → option CacheFile)
    (now : string) (oils : Catalog) (readJson : string → option SimEntry)
    (runs : string → string → ProcessRun) (st : State) :
  ((∀ a b, runs a b ≠ NeverExits) →
   generateWithProcesses stringify parse now oils readJson runs st
   = Returns <$> generateSimilarityMatrix stringify parse now
                   (settledOracle readJson runs) oils st) ∧
  (∀ waiting,
     generateWithProcesses stringify parse now oils readJson runs st
     = Some (Waits waiting) ↔
     ∃ before i j after s,
       pairsInOrder (length (oilNames oils)) = before ++ (i, j) :: after ∧
       runPairsOn stringify now oils readJson runs before
         (Some (Working ((loadCache parse st).1, 0%nat))) = Some (Working s) ∧
       similarityMatrix s.1
         !! getSimilarityKey (oilNames oils !!! i) (oilNames oils !!! j) = None ∧
       runs (oilNames oils !!! i) (oilNames oils !!! j) = NeverExits ∧
       waiting = s.1).
Proof.
  split; [apply generateWithProcesses_settled|].
  intros waiting. split.
  - unfold generateWithProcesses. rewrite nested_loops_as_fold.
    fold (runPairsOn stringify now oils readJson runs
            (pairsInOrder (length (oilNames oils)))
            (Some (Working ((loadCache parse st).1, 0%nat)))).
    destruct (runPairsOn stringify now oils readJson runs _ _) as [[s|s]|] eqn:Hrun;
      cbn [mbind option_bind]; [done| |done].
    intros [= <-].
    destruct (runPairsOn_waits stringify now oils readJson runs _ _ _ Hrun)
      as (before & i & j & after & Hsplit & Hbefore & Habsent & Hhangs).
    by exists before, i, j, after, s.
  - intros (before & i & j & after & s & Hsplit & Hbefore & Habsent & Hhangs & ->).
    by apply (generateWithProcesses_waits _ _ _ _ _ _ _ before i j after).
Qed.

(* ===================================================================== *)
(** * Pair keys without collisions *)
(* ===================================================================== *)

Lemma append_nil (s : string) : ("" +:+ s)%string = s.
Proof. reflexivity. Qed.

Lemma append_cons x (a s : string) : (String x a +:+ s)%string = String x (a +:+ s)%string.
Proof. reflexivity. Qed.

Lemma append_separator_inj (a b c d : string) :
  includesChar "|"%char a = false → includesChar "|"%char c = false →
  (a +:+ "|" +:+ b = c +:+ "|" +:+ d)%string → a = c ∧ b = d.
Proof.
  revert c. induction a as [|x a IH]; intros c Ha Hc Heq; destruct c as [|y c];
    repeat (rewrite append_nil in Heq || rewrite append_cons in Heq);
    cbn [includesChar] in Ha, Hc.
  - by injection Heq as ->.
  - injection Heq as <- _. by rewrite decide_True in Hc.
  - injection Heq as -> _. by rewrite decide_True in Ha.
  - injection Heq as -> Heq.
    destruct (decide (y = "|"%char)); [done|].
    destruct (IH c Ha Hc Heq) as [-> ->]. done.
Qed.

Lemma getSimilarityKey_pair (a b c d : string) :
  includesChar "|"%char a = false → includesChar "|"%char b = false →
  includesChar "|"%char c = false → includesChar "|"%char d = false →
  getSimilarityKey a b = getSimilarityKey c d →
  (a = c ∧ b = d) ∨ (a = d ∧ b = c).
Proof.
  intros Ha Hb Hc Hd. unfold getSimilarityKey, sortPair.
  destruct (String.ltb b a), (String.ltb d c); cbn [fst snd]; intros Heq;
    apply append_separator_inj in Heq as [-> ->]; auto.
Qed.

(** X7.  For names without the separator character [|], two pairs have the same
    cache key exactly when they are the same unordered pair. *)
Theorem getSimilarityKey_inj (a b c d : string) :
  includesChar "|"%char a = false → includesChar "|"%char b = false →
  includesChar "|"%char c = false → includesChar "|"%char d = false →
  getSimilarityKey a b = getSimilarityKey c d ↔
  (a = c ∧ b = d) ∨ (a = d ∧ b = c).
Proof.
  intros Ha Hb Hc Hd. split.
  - by apply getSimilarityKey_pair.
  - intros [[-> ->]|[-> ->]]; [done|]. apply getSimilarityKey_comm.
Qed.


(* ===================================================================== *)
(** * Generation when every request is rejected *)
(* ===================================================================== *)

Lemma pairsInOrder_NoDup n : NoDup (pairsInOrder n).
Proof.
  unfold pairsInOrder.
  assert (Hgen : ∀ rows, NoDup rows →
            NoDup (flat_map (λ i, map (pair i) (seq (i + 1) (n - (i + 1)))) rows)).
  { induction rows as [|i rows IH]; intros Hrows; simpl; [constructor|].
    apply NoDup_cons in Hrows as [Hi Hrows].
    apply NoDup_app. split; [|split; [|by apply IH]].
    - apply NoDup_fmap_2; [by intros ?? [=]|apply NoDup_seq].
    - intros [i' j'] Hin Hin'.
      apply list_elem_of_In, in_map_iff in Hin as (j0 & [= <- <-] & _).
      apply list_elem_of_In, in_flat_map in Hin' as (i0 & Hi0 & Hin').
      apply in_map_iff in Hin' as (j1 & [= <- <-] & _).
      apply Hi. by apply list_elem_of_In. }
  apply Hgen, NoDup_seq.
Qed.

(** X8.  With distinct catalog names free of [|], an empty cache and every request
    rejected, generation succeeds and every two distinct items end at distance
    0.4 when their categories agree and at distance 0.7 when they differ. *)
Theorem all_rejected_distances
    {Blob : Type} (stringify : CacheFile → Blob) (parse : Blob → option CacheFile)
    (now : string) (oracle : string → string → option SimEntry) (oils : Catalog)
    (st : State) :
  NoDup (oilNames oils) →
  Forall (λ name, includesChar "|"%char name = false) (oilNames oils) →
  similarityMatrix (loadCache parse st).1 = ∅ →
  (∀ a b, oracle a b = None) →
  ∃ final,
    generateSimilarityMatrix stringify parse now oracle oils st = Some final ∧
    ∀ i j, (i < length (oilNames oils))%nat → (j < length (oilNames oils))%nat →
      i ≠ j →
      ∃ d1 d2,
        lookupOil oils (oilNames oils !!! i) = Some d1 ∧
        lookupOil oils (oilNames oils !!! j) = Some d2 ∧
        get2 (createDistanceMatrix (oilNames oils) (similarityMatrix final)) i j
        = Some (if decide (category d1 = category d2) then 0.4 else 0.7).
Proof.
  intros Hnodup Hbar Hempty Hrejected.
  assert (Hshape : acceptsStores (similarityMatrix (loadCache parse st).1) = true)
    by by rewrite Hempty.
  destruct (generate_as_run stringify parse now oracle oils st Hshape)
    as (s & Hrun & Hgen & _).
  eexists. split; [exact Hgen|]. rewrite saveCache_similarityMatrix.
  set (names := oilNames oils) in *.
  set (keyOf := λ p : nat * nat, getSimilarityKey (names !!! p.1) (names !!! p.2)).
  assert (Hname : ∀ i, (i < length names)%nat → includesChar "|"%char (names !!! i) = false).
  { intros i Hi. rewrite Forall_forall in Hbar.
    by apply Hbar, list_elem_of_lookup_total_2. }
  assert (Hinj : ∀ i i', (i < length names)%nat → (i' < length names)%nat →
            names !!! i = names !!! i' → i = i').
  { intros i i' Hi Hi' Heq.
    apply (NoDup_lookup names i i' (names !!! i)); [done| |].
    - by apply list_lookup_lookup_total_lt.
    - rewrite Heq. by apply list_lookup_lookup_total_lt. }
  (* the keys of two pairs in loop order agree only for the same pair *)
  assert (Hkeys : ∀ i j i' j', (i < j)%nat → (j < length names)%nat →
            (i' < j')%nat → (j' < length names)%nat →
            keyOf (i, j) = keyOf (i', j') → (i, j) = (i', j')).
  { intros i j i' j' Hij Hj Hij' Hj' Hkey. unfold keyOf in Hkey. cbn [fst snd] in Hkey.
    apply getSimilarityKey_pair in Hkey as [[Ha Hb]|[Ha Hb]];
      try (apply Hname; lia).
    - f_equal; apply Hinj; (done || lia).
    - apply Hinj in Ha; [|lia|lia]. apply Hinj in Hb; [|lia|lia]. lia. }
  (* the entry of a pair visited in loop order *)
  assert (Hlt : ∀ i j, (i < j)%nat → (j < length names)%nat →
            ∃ e, similarityMatrix s.1 !! keyOf (i, j) = Some e ∧
                 fallbackEntry now oils (names !!! i) (names !!! j) = Some e).
  { intros i j Hij Hj.
    destruct (list_elem_of_split _ _ (pairsInOrder_elem _ i j Hij Hj))
      as (before & after & Hsplit).
    pose proof (pairsInOrder_lt (length names)) as Hordered.
    pose proof (pairsInOrder_NoDup (length names)) as Hdistinct.
    fold names in Hrun. rewrite Hsplit in Hrun, Hordered, Hdistinct.
    destruct (run_split stringify now oracle oils before i j after _ _ Hrun)
      as (s1 & s2 & Hs1 & Hstep & Hafter).
    assert (Habsent : similarityMatrix s1.1 !! keyOf (i, j) = None).
    { destruct (similarityMatrix s1.1 !! keyOf (i, j)) as [e|] eqn:He; [|done].
      exfalso.
      assert (Hfrom : ∀ key, is_Some (similarityMatrix s1.1 !! key) →
                ∃ p, p ∈ before ∧ key = keyOf p).
      { apply (runPairs_invariant stringify now oracle oils
                 (λ m : Matrix, ∀ key, is_Some (m !! key) → ∃ p, p ∈ before ∧ key = keyOf p)
                 before _ s1) with (3 := Hs1).
        - intros i' j' t t' Hin Ht Hstep' key Hkey.
          destruct (pairStep_matrix stringify now oracle oils i' j' t t' Hstep')
            as [[_ Heq]|[_ (e' & Hstore & _)]]; [rewrite Heq in Hkey; by apply Ht|].
          destruct (decide (key = keyOf (i', j'))) as [->|Hne]; [by exists (i', j')|].
          apply Ht. unfold keyOf in Hne. cbn [fst snd] in Hne.
          by rewrite (store_lookup_ne _ key _ _ _ Hstore) in Hkey.
        - cbn [fst]. rewrite Hempty. intros key [e' He'].
          rewrite matrix_lookup_entries in He'. cbn in He'.
          by rewrite lookup_empty in He'. }
      destruct (Hfrom (keyOf (i, j))) as ([i' j'] & Hin & Hkey); [by eexists|].
      apply Forall_app in Hordered as [Hbefore _].
      rewrite Forall_forall in Hbefore. destruct (Hbefore _ Hin) as [Hij' Hj'].
      simpl in Hij', Hj'.
      apply Hkeys in Hkey; [|done..]. injection Hkey as <- <-.
      apply NoDup_app in Hdistinct as (_ & Hdisjoint & _).
      apply (Hdisjoint (i, j) Hin). by apply elem_of_cons; left. }
    destruct (pairStep_matrix stringify now oracle oils i j s1 s2 Hstep)
      as [[[e He] _]|[_ (e & Hstore & Hsource)]].
    { unfold keyOf, names in Habsent. cbn [fst snd] in Habsent.
      rewrite He in Habsent. done. }
    destruct Hsource as [Hsome|[_ Hfb]]; [by rewrite Hrejected in Hsome|].
    exists e. split; [|done].
    apply (runPairs_keeps stringify now oracle oils after s2 s); [done|].
    by apply (store_lookup_eq _ _ _ _ Hstore). }
  (* the cell of the distance matrix *)
  assert (Hcell : ∀ i j, (i < j)%nat → (j < length names)%nat →
            ∃ d1 d2, lookupOil oils (names !!! i) = Some d1 ∧
                     lookupOil oils (names !!! j) = Some d2 ∧
                     (100 - similarityOr50 (similarityMatrix s.1 !! keyOf (i, j))) / 100
                     = if decide (category d1 = category d2) then 0.4 else 0.7).
  { intros i j Hij Hj. destruct (Hlt i j Hij Hj) as (e & -> & Hfb).
    unfold fallbackEntry in Hfb.
    destruct (lookupOil oils (names !!! i)) as [d1|];
      cbn [mbind option_bind] in Hfb; [|done].
    destruct (lookupOil oils (names !!! j)) as [d2|];
      cbn [mbind option_bind] in Hfb; [|done].
    injection Hfb as <-. exists d1, d2. split; [done|]. split; [done|].
    cbn [similarityOr50 similarity]. unfold bool_decide.
    destruct (decide_rel eq (category d1) (category d2)), (decide (category d1 = category d2));
      try done; rewrite orNum_nonzero by lra; lra. }
  intros i j Hi Hj Hne.
  destruct (createDistanceMatrix_cells names (similarityMatrix s.1)) as [_ Hcells].
  rewrite Hcells by done. destruct (Nat.eqb_spec i j) as [|_]; [done|].
  destruct (Nat.lt_total i j) as [Hlt'|[->|Hgt]]; [|done|].
  - destruct (Hcell i j Hlt' Hj) as (d1 & d2 & H1 & H2 & Hval).
    exists d1, d2. unfold keyOf in Hval. cbn [fst snd] in Hval.
    rewrite matrix_lookup_entries in Hval. by rewrite Hval.
  - destruct (Hcell j i Hgt Hi) as (d2 & d1 & H2 & H1 & Hval).
    exists d1, d2. rewrite getSimilarityKey_comm.
    unfold keyOf in Hval. cbn [fst snd] in Hval.
    rewrite matrix_lookup_entries in Hval. rewrite Hval.
    split; [done|]. split; [done|].
    destruct (decide (category d2 = category d1)), (decide (category d1 = category d2));
      simpl; (done || congruence).
Qed.

(* ===================================================================== *)
(** * The similarity tables of the two demos *)
(* ===================================================================== *)

Lemma generateSimilarities_same oracle oils sims :
  FastAIDemo.generateSimilarities oracle oils sims
  = AINotesVisualization.generateAISimilarityMatrix oracle oils sims.
Proof. reflexivity. Qed.

(** The last [forEach]: every listed item reads 1 against itself, other keys
    keep their value or read 1. *)
Lemma self_similarity_pass (keyOf : string → string) (oils : list string)
    (sims : gmap string R) :
  (∀ oil, oil ∈ oils →
     fold_left (λ sims oil, <[keyOf oil := 1]> sims) oils sims !! keyOf oil = Some 1) ∧
  (∀ key, fold_left (λ sims oil, <[keyOf oil := 1]> sims) oils sims !! key = Some 1 ∨
          fold_left (λ sims oil, <[keyOf oil := 1]> sims) oils sims !! key = sims !! key).
Proof.
  revert sims. induction oils as [|o oils IH]; intros sims; cbn [fold_left].
  - split; [intros oil Hin; by apply elem_of_nil in Hin|by right].
  - destruct (IH (<[keyOf o := 1]> sims)) as [Hself Hother]. split.
    + intros oil Hin. apply elem_of_cons in Hin as [->|Hin]; [|by apply Hself].
      destruct (Hother (keyOf o)) as [H|H]; [done|].
      by rewrite H, lookup_insert_eq.
    + intros key. destruct (Hother key) as [H|H]; [by left|].
      rewrite H. destruct (decide (keyOf o = key)) as [<-|Hne].
      * left. apply lookup_insert_eq.
      * right. by apply lookup_insert_ne.
Qed.


(** Two nested loops over the pairs i < j are one loop over [pairsInOrder]. *)
Lemma pair_loops_as_fold {S : Type} n (body : nat → nat → S → S) (s : S) :
  forLoop 0 n (λ i s, forLoop (i + 1) n (λ j s, body i j s) s) s
  = fold_left (λ s p, body p.1 p.2 s) (LLMScentEmbeddings.pairsInOrder n) s.
Proof.
  unfold forLoop, LLMScentEmbeddings.pairsInOrder. rewrite Nat.sub_0_r.
  revert s. generalize (seq 0 n) as rows.
  induction rows as [|i rows IH]; intros s; simpl; [done|].
  rewrite fold_left_app, <- IH. f_equal. by rewrite fold_left_over_map.
Qed.

(** The pair loop of the two generators, over any list of index pairs: keys
    are only added, both keys of a visited pair are present afterwards, and
    every value is an old one or an answer of the oracle. *)
Lemma pair_writes (oracle : string → string → R) (oils : list string)
    (keyOf : string → string → string) (pairs : list (nat * nat))
    (sims : gmap string R) :
  let write := λ (sims : gmap string R) (p : nat * nat),
    <[keyOf (oils !!! p.2) (oils !!! p.1) := oracle (oils !!! p.1) (oils !!! p.2)]>
      (<[keyOf (oils !!! p.1) (oils !!! p.2) := oracle (oils !!! p.1) (oils !!! p.2)]>
         sims) in
  (∀ key, is_Some (sims !! key) → is_Some (fold_left write pairs sims !! key)) ∧
  (∀ p, p ∈ pairs →
     is_Some (fold_left write pairs sims !! keyOf (oils !!! p.1) (oils !!! p.2)) ∧
     is_Some (fold_left write pairs sims !! keyOf (oils !!! p.2) (oils !!! p.1))) ∧
  (∀ key v, fold_left write pairs sims !! key = Some v →
     sims !! key = Some v ∨
     ∃ p, p ∈ pairs ∧ v = oracle (oils !!! p.1) (oils !!! p.2)).
Proof.
  intros write. revert sims.
  induction pairs as [|p pairs IH]; intros sims; cbn [fold_left].
  - split; [done|]. split; [|by left].
    intros p Hin. by apply elem_of_nil in Hin.
  - destruct (IH (write sims p)) as (Hmono & Hboth & Hfrom).
    assert (Hstep : ∀ key, is_Some (sims !! key) → is_Some (write sims p !! key)).
    { intros key Hkey. unfold write.
      rewrite !lookup_insert. repeat case_decide; eauto. }
    split; [|split].
    + intros key Hkey. by apply Hmono, Hstep.
    + intros q Hin. apply elem_of_cons in Hin as [->|Hin]; [|by apply Hboth].
      split; apply Hmono; unfold write; rewrite !lookup_insert;
        repeat case_decide; first [by eauto|congruence].
    + intros key v Hv. destruct (Hfrom key v Hv) as [Hw|(q & Hq & ->)].
      * unfold write in Hw. rewrite !lookup_insert in Hw.
        repeat case_decide; simplify_eq; eauto;
          right; exists p; (split; [by apply elem_of_cons; left|done]).
      * right. exists q. split; [by apply elem_of_cons; right|done].
Qed.

Lemma generateSimilarities_self_and_pairs (oracle : string → string → R)
    (oils : list string) (sims : gmap string R) :
  (∀ oil, oil ∈ oils →
     FastAIDemo.generateSimilarities oracle oils sims !! FastAIDemo.pairKey oil oil
     = Some 1) ∧
  (∀ a b, a ∈ oils → b ∈ oils →
     is_Some (FastAIDemo.generateSimilarities oracle oils sims
                !! FastAIDemo.pairKey a b)).
Proof.
  unfold FastAIDemo.generateSimilarities. cbv zeta.
  rewrite (pair_loops_as_fold (length oils)
             (λ i j sims,
                <[FastAIDemo.pairKey (oils !!! j) (oils !!! i) := oracle (oils !!! i) (oils !!! j)]>
                  (<[FastAIDemo.pairKey (oils !!! i) (oils !!! j) := oracle (oils !!! i) (oils !!! j)]>
                     sims))).
  set (table := fold_left _ (LLMScentEmbeddings.pairsInOrder _) sims).
  destruct (self_similarity_pass (λ oil, FastAIDemo.pairKey oil oil) oils table)
    as [Hself Hother].
  split; [exact Hself|]. intros a b Ha Hb.
  destruct (decide (a = b)) as [->|Hne]; [rewrite Hself; eauto|].
  destruct (Hother (FastAIDemo.pairKey a b)) as [->| ->]; [eauto|].
  apply list_elem_of_lookup_total in Ha as (i & Hi & <-).
  apply list_elem_of_lookup_total in Hb as (j & Hj & <-).
  destruct (pair_writes oracle oils FastAIDemo.pairKey
              (LLMScentEmbeddings.pairsInOrder (length oils)) sims) as (_ & Hboth & _).
  cbv zeta in Hboth. fold table in Hboth.
  destruct (Nat.lt_total i j) as [Hlt|[->|Hgt]]; [|done|].
  - by apply (Hboth (i, j)), pairsInOrder_elem.
  - by apply (Hboth (j, i)), pairsInOrder_elem.
Qed.

(** X9.  After [generateSimilarities] every listed item has similarity 1 with
    itself, and every ordered pair of listed items has an entry, whatever the
    table held before and whatever the comparison answered. *)
Theorem generated_table_is_complete (oracle : string → string → R)
    (oils : list string) (sims : gmap string R) :
  (∀ oil, oil ∈ oils →
     FastAIDemo.generateSimilarities oracle oils sims !! FastAIDemo.pairKey oil oil
     = Some 1) ∧
  (∀ a b, a ∈ oils → b ∈ oils →
     is_Some (FastAIDemo.generateSimilarities oracle oils sims
                !! FastAIDemo.pairKey a b)).
Proof. apply generateSimilarities_self_and_pairs. Qed.

(** Every value of a table generated from an empty one is 1 or an answer of
    the oracle. *)
Lemma generated_values (oracle : string → string → R) (oils : list string) key v :
  FastAIDemo.generateSimilarities oracle oils ∅ !! key = Some v →
  v = 1 ∨ ∃ a b, v = oracle a b.
Proof.
  unfold FastAIDemo.generateSimilarities. cbv zeta.
  rewrite (pair_loops_as_fold (length oils)
             (λ i j sims,
                <[FastAIDemo.pairKey (oils !!! j) (oils !!! i)
                  := oracle (oils !!! i) (oils !!! j)]>
                  (<[FastAIDemo.pairKey (oils !!! i) (oils !!! j)
                     := oracle (oils !!! i) (oils !!! j)]> sims))).
  set (pairsTable := fold_left _ (LLMScentEmbeddings.pairsInOrder _) ∅).
  destruct (self_similarity_pass (λ oil, FastAIDemo.pairKey oil oil)
              oils pairsTable) as [_ Hother].
  destruct (Hother key) as [->| ->]; [intros [= <-]; by left|].
  intros Hv.
  destruct (pair_writes oracle oils FastAIDemo.pairKey
              (LLMScentEmbeddings.pairsInOrder (length oils)) ∅) as (_ & _ & Hfrom).
  destruct (Hfrom key v Hv) as [Hempty|(p & _ & ->)]; [|right; eauto].
  by rewrite lookup_empty in Hempty.
Qed.

(** X10.  When every comparison answers a number between 0 and 1 and the table
    starts empty, each cell of the distance matrix that [AINotesVisualization]
    builds from the table of [generateAISimilarityMatrix] lies between 0 and 1,
    and it is 0 for two positions that hold the same name. *)
Theorem generated_table_gives_distances (oracle : string → string → R)
    (oils : list string) :
  (∀ a b, 0 <= oracle a b <= 1) →
  ∀ i j, (i < length oils)%nat → (j < length oils)%nat →
    ∃ d,
      get2 (AINotesVisualization.distanceMatrix oils
              (AINotesVisualization.generateAISimilarityMatrix oracle oils ∅)) i j
      = Some d ∧
      0 <= d <= 1 ∧ (oils !!! i = oils !!! j → d = 0).
Proof.
  intros Hrange i j Hi Hj.
  rewrite <- generateSimilarities_same.
  set (table := FastAIDemo.generateSimilarities oracle oils ∅).
  assert (Hvalues : ∀ key v, table !! key = Some v → 0 <= v <= 1).
  { intros key v Hv. destruct (generated_values oracle oils key v Hv) as [->|(a & b & ->)];
      [lra|apply Hrange]. }
  destruct (distanceMatrix_cells oils table) as [_ Hcells].
  eexists. split; [by apply Hcells|]. split.
  - unfold AINotesVisualization.similarityOr0, orNum.
    destruct (table !! _) as [v|] eqn:Hv; [|lra].
    specialize (Hvalues _ _ Hv). destruct (Req_dec_T v 0); lra.
  - intros Hsame. rewrite Hsame.
    destruct (generateSimilarities_self_and_pairs oracle oils ∅) as [Hself _].
    fold table in Hself.
    change AINotesVisualization.pairKey with FastAIDemo.pairKey.
    rewrite Hself by by apply list_elem_of_lookup_total_2.
    cbn [AINotesVisualization.similarityOr0]. rewrite orNum_nonzero by lra. lra.
Qed.

(** Keys that no write of the pair loop uses keep their value. *)
Lemma pair_writes_untouched (oracle : string → string → R) (oils : list string)
    (keyOf : string → string → string) (pairs : list (nat * nat))
    (sims : gmap string R) key :
  (∀ q, q ∈ pairs → keyOf (oils !!! q.1) (oils !!! q.2) ≠ key ∧
                    keyOf (oils !!! q.2) (oils !!! q.1) ≠ key) →
  fold_left (λ (sims : gmap string R) (p : nat * nat),
      <[keyOf (oils !!! p.2) (oils !!! p.1) := oracle (oils !!! p.1) (oils !!! p.2)]>
        (<[keyOf (oils !!! p.1) (oils !!! p.2) := oracle (oils !!! p.1) (oils !!! p.2)]>
           sims)) pairs sims !! key
  = sims !! key.
Proof.
  revert sims. induction pairs as [|q pairs IH]; intros sims Hq; cbn [fold_left]; [done|].
  rewrite IH by (intros q' Hq'; apply Hq; by apply elem_of_cons; right).
  destruct (Hq q) as [H1 H2]; [by apply elem_of_cons; left|].
  by rewrite !lookup_insert_ne.
Qed.

Lemma self_pass_untouched (keyOf : string → string) (oils : list string)
    (sims : gmap string R) key :
  (∀ oil, oil ∈ oils → keyOf oil ≠ key) →
  fold_left (λ sims oil, <[keyOf oil := 1]> sims) oils sims !! key = sims !! key.
Proof.
  revert sims. induction oils as [|o oils IH]; intros sims Ho; cbn [fold_left]; [done|].
  rewrite IH by (intros o' Ho'; apply Ho; by apply elem_of_cons; right).
  apply lookup_insert_ne, Ho. by apply elem_of_cons; left.
Qed.

(** When no two ordered pairs of items share a key, a pair visited by the
    loop reads the oracle's answer under both of its keys. *)
Lemma generateSimilarities_pair_value (oracle : string → string → R)
    (oils : list string) (sims : gmap string R) i j :
  NoDup oils →
  (∀ a b c d, a ∈ oils → b ∈ oils → c ∈ oils → d ∈ oils →
     FastAIDemo.pairKey a b = FastAIDemo.pairKey c d → a = c ∧ b = d) →
  (i < j)%nat → (j < length oils)%nat →
  FastAIDemo.generateSimilarities oracle oils sims
    !! FastAIDemo.pairKey (oils !!! i) (oils !!! j) = Some (oracle (oils !!! i) (oils !!! j)) ∧
  FastAIDemo.generateSimilarities oracle oils sims
    !! FastAIDemo.pairKey (oils !!! j) (oils !!! i) = Some (oracle (oils !!! i) (oils !!! j)).
Proof.
  intros Hnodup Hinj Hij Hj.
  assert (Hin : ∀ k, (k < length oils)%nat → oils !!! k ∈ oils)
    by (intros; by apply list_elem_of_lookup_total_2).
  assert (Hidx : ∀ k k', (k < length oils)%nat → (k' < length oils)%nat →
            oils !!! k = oils !!! k' → k = k').
  { intros k k' Hk Hk' Heq.
    apply (NoDup_lookup oils k k' (oils !!! k)); [done| |].
    - by apply list_lookup_lookup_total_lt.
    - rewrite Heq. by apply list_lookup_lookup_total_lt. }
  unfold FastAIDemo.generateSimilarities. cbv zeta.
  rewrite (pair_loops_as_fold (length oils)
             (λ i j sims,
                <[FastAIDemo.pairKey (oils !!! j) (oils !!! i)
                  := oracle (oils !!! i) (oils !!! j)]>
                  (<[FastAIDemo.pairKey (oils !!! i) (oils !!! j)
                     := oracle (oils !!! i) (oils !!! j)]> sims))).
  (* the self-similarity pass does not touch the two keys *)
  rewrite !self_pass_untouched.
  2,3: intros oil Hoil Hkey; apply Hinj in Hkey as [H1 H2];
       [|by auto with lia..]; rewrite H1 in H2; apply Hidx in H2; lia.
  (* the pair loop, split at the pair *)
  destruct (list_elem_of_split _ _ (pairsInOrder_elem (length oils) i j Hij Hj))
    as (before & after & Hsplit).
  pose proof (pairsInOrder_lt (length oils)) as Hordered.
  pose proof (pairsInOrder_NoDup (length oils)) as Hdistinct.
  rewrite Hsplit in Hordered, Hdistinct |- *.
  apply Forall_app in Hordered as [_ Hrest].
  apply Forall_cons in Hrest as [_ Hafter].
  apply NoDup_app in Hdistinct as (_ & _ & Hrest).
  apply NoDup_cons in Hrest as [Hnotin _].
  rewrite fold_left_app. cbn [fold_left fst snd].
  assert (Hfree : ∀ q, q ∈ after →
            (FastAIDemo.pairKey (oils !!! q.1) (oils !!! q.2)
             ≠ FastAIDemo.pairKey (oils !!! i) (oils !!! j) ∧
             FastAIDemo.pairKey (oils !!! q.2) (oils !!! q.1)
             ≠ FastAIDemo.pairKey (oils !!! i) (oils !!! j)) ∧
            (FastAIDemo.pairKey (oils !!! q.1) (oils !!! q.2)
             ≠ FastAIDemo.pairKey (oils !!! j) (oils !!! i) ∧
             FastAIDemo.pairKey (oils !!! q.2) (oils !!! q.1)
             ≠ FastAIDemo.pairKey (oils !!! j) (oils !!! i))).
  { intros [i' j'] Hq. rewrite Forall_forall in Hafter.
    destruct (Hafter _ Hq) as [Hij' Hj']. cbn [fst snd] in *.
    repeat split; intros Hkey; apply Hinj in Hkey as [H1 H2];
      try (apply Hin; lia);
      apply Hidx in H1; try lia; apply Hidx in H2; try lia; subst; (done || lia). }
  split.
  - rewrite pair_writes_untouched by (intros q Hq; apply (Hfree q Hq)).
    rewrite lookup_insert.
    case_decide as Hsame; [done|]. apply lookup_insert_eq.
  - rewrite pair_writes_untouched by (intros q Hq; apply (Hfree q Hq)).
    apply lookup_insert_eq.
Qed.

(** X11.  For distinct names whose pair keys do not collide, the generated table
    reads the same for (a, b) and (b, a), and the distance matrix built from
    it is symmetric. *)
Theorem generated_table_symmetric (oracle : string → string → R)
    (oils : list string) (sims : gmap string R) :
  NoDup oils →
  (∀ a b c d, a ∈ oils → b ∈ oils → c ∈ oils → d ∈ oils →
     FastAIDemo.pairKey a b = FastAIDemo.pairKey c d → a = c ∧ b = d) →
  (∀ a b, a ∈ oils → b ∈ oils →
     FastAIDemo.generateSimilarities oracle oils sims !! FastAIDemo.pairKey a b
     = FastAIDemo.generateSimilarities oracle oils sims !! FastAIDemo.pairKey b a) ∧
  (∀ i j, (i < length oils)%nat → (j < length oils)%nat →
     get2 (AINotesVisualization.distanceMatrix oils
             (AINotesVisualization.generateAISimilarityMatrix oracle oils sims)) i j
     = get2 (AINotesVisualization.distanceMatrix oils
               (AINotesVisualization.generateAISimilarityMatrix oracle oils sims)) j i).
Proof.
  intros Hnodup Hinj.
  assert (Hsym : ∀ i j, (i < length oils)%nat → (j < length oils)%nat →
            FastAIDemo.generateSimilarities oracle oils sims
              !! FastAIDemo.pairKey (oils !!! i) (oils !!! j)
            = FastAIDemo.generateSimilarities oracle oils sims
                !! FastAIDemo.pairKey (oils !!! j) (oils !!! i)).
  { intros i j Hi Hj. destruct (Nat.lt_total i j) as [Hlt|[->|Hgt]]; [|done|].
    - destruct (generateSimilarities_pair_value oracle oils sims i j Hnodup Hinj Hlt Hj)
        as [-> ->]. done.
    - destruct (generateSimilarities_pair_value oracle oils sims j i Hnodup Hinj Hgt Hi)
        as [-> ->]. done. }
  split.
  - intros a b Ha Hb.
    apply list_elem_of_lookup_total in Ha as (i & Hi & <-).
    apply list_elem_of_lookup_total in Hb as (j & Hj & <-).
    by apply Hsym.
  - intros i j Hi Hj. rewrite <- generateSimilarities_same.
    destruct (distanceMatrix_cells oils
                (FastAIDemo.generateSimilarities oracle oils sims)) as [_ Hcells].
    rewrite !Hcells by done.
    change AINotesVisualization.pairKey with FastAIDemo.pairKey.
    by rewrite (Hsym i j).
Qed.

Lemma twoOils_keys_distinct a b c d :
  a ∈ Samples.twoOils → b ∈ Samples.twoOils → c ∈ Samples.twoOils → d ∈ Samples.twoOils →
  FastAIDemo.pairKey a b = FastAIDemo.pairKey c d → a = c ∧ b = d.
Proof.
  unfold Samples.twoOils. intros Ha Hb Hc Hd.
  repeat match goal with
         | H : _ ∈ _ :: _ |- _ => apply elem_of_cons in H as [->|H]
         | H : _ ∈ [] |- _ => by apply elem_of_nil in H
         end; intros Hkey; (done || by vm_compute in Hkey).
Qed.

(* ===================================================================== *)
(** * The rule-based fallback similarity *)
(* ===================================================================== *)

Lemma newSet_spec (xs : list string) :
  NoDup (FastAIDemo.newSet xs) ∧ ∀ x, x ∈ FastAIDemo.newSet xs ↔ x ∈ xs.
Proof.
  unfold FastAIDemo.newSet.
  enough (H : ∀ acc, NoDup acc →
            NoDup (fold_left (λ set x, if decide (x ∈ set) then set else set ++ [x]) xs acc) ∧
            ∀ x, x ∈ fold_left (λ set x, if decide (x ∈ set) then set else set ++ [x]) xs acc
                 ↔ x ∈ acc ∨ x ∈ xs).
  { destruct (H [] (NoDup_nil_2)) as [Hnd Hel]. split; [done|].
    intros x. rewrite Hel. split; [intros [H'|H']; [by apply elem_of_nil in H'|done]|by right]. }
  induction xs as [|y xs IH]; intros acc Hacc; cbn [fold_left].
  - split; [done|]. intros x. split; [by left|]. intros [H|H]; [done|by apply elem_of_nil in H].
  - destruct (decide (y ∈ acc)) as [Hin|Hout].
    + destruct (IH acc Hacc) as [Hnd Hel]. split; [done|].
      intros x. rewrite Hel, elem_of_cons. split; [tauto|].
      intros [H|[->|H]]; auto.
    + destruct (IH (acc ++ [y])) as [Hnd Hel].
      { apply NoDup_app. split; [done|]. split; [|apply NoDup_singleton].
        intros x Hx Hx'. apply list_elem_of_singleton in Hx'. by subst. }
      split; [done|]. intros x. rewrite Hel, elem_of_app, list_elem_of_singleton, elem_of_cons.
      tauto.
Qed.

(** The sizes of the intersection and of the union do not depend on the order
    of the two items, and the intersection is no larger than the union. *)
Lemma note_overlap_sizes (n1 n2 : list string) :
  let intersection a b :=
    FastAIDemo.newSet (filter (λ x, x ∈ FastAIDemo.newSet b) (FastAIDemo.newSet a)) in
  let union a b := FastAIDemo.newSet (FastAIDemo.newSet a ++ FastAIDemo.newSet b) in
  length (intersection n1 n2) = length (intersection n2 n1) ∧
  length (union n1 n2) = length (union n2 n1) ∧
  (length (intersection n1 n2) <= length (union n1 n2))%nat.
Proof.
  intros intersection union.
  assert (Hi : ∀ a b x, x ∈ intersection a b ↔ x ∈ a ∧ x ∈ b).
  { intros a b x. unfold intersection.
    rewrite (proj2 (newSet_spec _)), list_elem_of_filter.
    rewrite !(proj2 (newSet_spec _)). tauto. }
  assert (Hu : ∀ a b x, x ∈ union a b ↔ x ∈ a ∨ x ∈ b).
  { intros a b x. unfold union.
    rewrite (proj2 (newSet_spec _)), elem_of_app.
    by rewrite !(proj2 (newSet_spec _)). }
  repeat split.
  - apply Permutation_length, NoDup_Permutation; try apply newSet_spec.
    intros x. rewrite !Hi. tauto.
  - apply Permutation_length, NoDup_Permutation; try apply newSet_spec.
    intros x. rewrite !Hu. tauto.
  - apply submseteq_length, NoDup_submseteq; [apply newSet_spec|].
    intros x. rewrite Hi, Hu. tauto.
Qed.

(** X12.  The fallback similarity of [generateFastAIDemo.js] does not depend on the
    order of its two arguments. *)
Theorem getFallbackSimilarity_symmetric (essentialOils : Catalog) (oil1 oil2 : string) :
  FastAIDemo.getFallbackSimilarity essentialOils oil1 oil2
  = FastAIDemo.getFallbackSimilarity essentialOils oil2 oil1.
Proof.
  unfold FastAIDemo.getFallbackSimilarity.
  destruct (lookupOil essentialOils oil1) as [data1|],
           (lookupOil essentialOils oil2) as [data2|]; cbn [mbind option_bind]; try done.
  destruct (note_overlap_sizes (notes data1) (notes data2)) as (Hint & Huni & _).
  cbv zeta in Hint, Huni. rewrite Hint, Huni.
  rewrite (Rabs_minus_sym (FastAIDemo.intensityMap (intensity data1))).
  destruct (decide (category data1 = category data2)),
           (decide (category data2 = category data1)); (done || congruence).
Qed.

(** X13.  When the fallback yields a number, both names are in the catalog and the
    number lies between 0.075 and 1; it is at least 0.475 when the two
    categories agree and at most 0.6 when they differ. *)
Theorem getFallbackSimilarity_range (essentialOils : Catalog) (oil1 oil2 : string) v :
  FastAIDemo.getFallbackSimilarity essentialOils oil1 oil2 = Some v →
  ∃ data1 data2,
    lookupOil essentialOils oil1 = Some data1 ∧
    lookupOil essentialOils oil2 = Some data2 ∧
    0.075 <= v <= 1 ∧
    (category data1 = category data2 → 0.475 <= v) ∧
    (category data1 ≠ category data2 → v <= 0.6).
Proof.
  unfold FastAIDemo.getFallbackSimilarity.
  destruct (lookupOil essentialOils oil1) as [data1|]; cbn [mbind option_bind]; [|done].
  destruct (lookupOil essentialOils oil2) as [data2|]; cbn [mbind option_bind]; [|done].
  destruct (note_overlap_sizes (notes data1) (notes data2)) as (_ & _ & Hle).
  cbv zeta in Hle.
  set (li := length (FastAIDemo.newSet (filter _ _))) in *.
  set (lu := length (FastAIDemo.newSet (_ ++ _))) in *.
  destruct (decide (lu = 0%nat)) as [|Hlu]; [done|].
  intros [= <-]. exists data1, data2. split; [done|]. split; [done|].
  assert (Hratio : 0 <= INR li / INR lu <= 1).
  { assert (0 < INR lu) by (apply lt_0_INR; lia).
    assert (0 <= INR li) by apply pos_INR.
    assert (INR li <= INR lu) by by apply le_INR.
    split.
    - apply Rmult_le_pos; [done|]. left. by apply Rinv_0_lt_compat.
    - apply (Rmult_le_reg_r (INR lu)); [done|]. field_simplify; lra. }
  assert (Hdiff : 0 <= Rabs (FastAIDemo.intensityMap (intensity data1)
                             - FastAIDemo.intensityMap (intensity data2)) <= 3).
  { split; [apply Rabs_pos|]. apply Rabs_le.
    destruct (intensity data1), (intensity data2); simpl; lra. }
  unfold Rmax, Rmin.
  destruct (decide (category data1 = category data2));
    repeat (destruct (Rle_dec _ _)); repeat split; intros; try done; lra.
Qed.

(* ===================================================================== *)
(** * The similarity read from the subprocess *)
(* ===================================================================== *)

Lemma scanLines_range parseFloat lines similarity :
  0 <= similarity <= 1 → 0 <= FastAIDemo.scanLines parseFloat lines similarity <= 1.
Proof.
  intros Hs. induction lines as [|line rest IH]; cbn [FastAIDemo.scanLines]; [done|].
  destruct (String.prefix _ line); [|done].
  unfold Rmax, Rmin. repeat (destruct (Rle_dec _ _)); lra.
Qed.

Lemma scanLines_no_marker parseFloat lines similarity :
  Forall (λ line, String.prefix "SIMILARITY_RESULT:" line = false) lines →
  FastAIDemo.scanLines parseFloat lines similarity = similarity.
Proof.
  induction 1 as [|line rest Hline _ IH]; cbn [FastAIDemo.scanLines]; [done|].
  by rewrite Hline.
Qed.

Lemma getFallbackSimilarity_clamped (essentialOils : Catalog) (oil1 oil2 : string) v :
  FastAIDemo.getFallbackSimilarity essentialOils oil1 oil2 = Some v → 0 <= v <= 1.
Proof.
  unfold FastAIDemo.getFallbackSimilarity.
  destruct (lookupOil essentialOils oil1) as [data1|]; cbn [mbind option_bind]; [|done].
  destruct (lookupOil essentialOils oil2) as [data2|]; cbn [mbind option_bind]; [|done].
  case_decide; [done|]. intros [= <-].
  unfold Rmax, Rmin. repeat (destruct (Rle_dec _ _)); lra.
Qed.

(** X14.  [getLLMSimilarity]: a numeric result always lies between 0 and 1; an
    output without a line that starts with the marker resolves to 0.5; and a
    first marker line whose score parses to 0, or does not parse, gives 0.5,
    whatever follows it. *)
Theorem getLLMSimilarity_range (parseFloat : string → option R) :
  (∀ essentialOils oil1 oil2 outcome v,
     FastAIDemo.getLLMSimilarity parseFloat essentialOils oil1 oil2 outcome = Some v →
     0 <= v <= 1) ∧
  (∀ output,
     Forall (λ line, String.prefix "SIMILARITY_RESULT:" line = false)
            (FastAIDemo.split "010"%char output) →
     FastAIDemo.closeSimilarity parseFloat output = 0.5) ∧
  (∀ line rest similarity,
     String.prefix "SIMILARITY_RESULT:" line = true →
     parseFloat (String.substring 18 (String.length line - 18) line) = Some 0 ∨
     parseFloat (String.substring 18 (String.length line - 18) line) = None →
     FastAIDemo.scanLines parseFloat (line :: rest) similarity = 0.5).
Proof.
  split; [|split].
  - intros essentialOils oil1 oil2 outcome v.
    destruct outcome as [output| |]; cbn [FastAIDemo.getLLMSimilarity].
    + intros [= <-]. apply scanLines_range. lra.
    + apply getFallbackSimilarity_clamped.
    + apply getFallbackSimilarity_clamped.
  - intros output Hlines. by apply scanLines_no_marker.
  - intros line rest similarity Hmarker Hparsed.
    cbn [FastAIDemo.scanLines]. rewrite Hmarker. unfold FastAIDemo.parsedOrHalf.
    destruct Hparsed as [-> | ->]; rewrite ?orNum_zero;
      unfold Rmax, Rmin; repeat (destruct (Rle_dec _ _)); lra.
Qed.

(* ===================================================================== *)
(** * The two readers of the comparison output *)
(* ===================================================================== *)

Lemma clamp_unit (x : R) : 0 <= Rmax 0 (Rmin 1 x) <= 1.
Proof. unfold Rmax, Rmin. repeat (destruct (Rle_dec _ _)); lra. Qed.

Lemma noteScan_range (parseFloat : string → option R) (trim : string → string)
    (lines : list string) (start : AINotesSimilarity.Settled) v :
  (∀ s, start = AINotesSimilarity.Number s → 0 <= s <= 1) →
  AINotesSimilarity.scanLines parseFloat trim lines start = AINotesSimilarity.Number v →
  0 <= v <= 1.
Proof.
  intros Hstart. induction lines as [|line rest IH]; cbn [AINotesSimilarity.scanLines].
  - apply Hstart.
  - destruct (String.prefix "SIMILARITY_RESULT:" (trim line)); [|exact IH].
    destruct (parseFloat _) as [x|]; [|done].
    intros [= <-]. apply clamp_unit.
Qed.

(** X27.  [getLLMNoteSimilarity] of [testAISimilarity.js]: a numeric result lies
    between 0 and 1; the promise is rejected exactly when one of the two names
    is missing from the catalog; a non-zero exit code gives the fallback,
    whatever was printed; and where the reader of [generateFastAIDemo.js]
    turns a marker line with an unreadable score, or with the score 0, into
    0.5, this one yields NaN for the first and 0 for the second. *)
Theorem getLLMNoteSimilarity_reads_scores (parseFloat : string → option R)
    (trim : string → string) (essentialOils : Catalog) (oil1 oil2 : string) :
  (∀ outcome v,
     AINotesSimilarity.getLLMNoteSimilarity parseFloat trim essentialOils oil1 oil2 outcome
     = AINotesSimilarity.Number v → 0 <= v <= 1) ∧
  (∀ outcome,
     AINotesSimilarity.getLLMNoteSimilarity parseFloat trim essentialOils oil1 oil2 outcome
     = AINotesSimilarity.Rejected ↔
     lookupOil essentialOils oil1 = None ∨ lookupOil essentialOils oil2 = None) ∧
  (∀ code output, code ≠ 0%Z →
     AINotesSimilarity.getLLMNoteSimilarity parseFloat trim essentialOils oil1 oil2
       (AINotesSimilarity.Closed code output)
     = AINotesSimilarity.getLLMNoteSimilarity parseFloat trim essentialOils oil1 oil2
         AINotesSimilarity.SpawnError) ∧
  (∀ line rest start,
     trim line = line → String.prefix "SIMILARITY_RESULT:" line = true →
     (parseFloat (String.substring 18 (String.length line - 18) line) = None →
      AINotesSimilarity.scanLines parseFloat trim (line :: rest) start
      = AINotesSimilarity.NotANumber ∧
      FastAIDemo.scanLines parseFloat (line :: rest) 0.5 = 0.5) ∧
     (parseFloat (String.substring 18 (String.length line - 18) line) = Some 0 →
      AINotesSimilarity.scanLines parseFloat trim (line :: rest) start
      = AINotesSimilarity.Number 0 ∧
      FastAIDemo.scanLines parseFloat (line :: rest) 0.5 = 0.5)).
Proof.
  split; [|split; [|split]].
  - intros outcome v. unfold AINotesSimilarity.getLLMNoteSimilarity.
    destruct (lookupOil essentialOils oil1) as [d1|]; [|done].
    destruct (lookupOil essentialOils oil2) as [d2|]; [|done].
    assert (Hfallback : AINotesSimilarity.fallback essentialOils oil1 oil2
                        = AINotesSimilarity.Number v → 0 <= v <= 1).
    { unfold AINotesSimilarity.fallback, AINotesSimilarity.getFallbackSimilarity.
      destruct (FastAIDemo.getFallbackSimilarity essentialOils oil1 oil2) as [s|] eqn:Hs;
        [|done].
      intros [= <-]. by apply (getFallbackSimilarity_clamped essentialOils oil1 oil2). }
    destruct outcome as [code output| |]; [|done|done].
    destruct (decide (code = 0%Z)); [|done].
    apply noteScan_range. intros s [= <-]. lra.
  - intros outcome. unfold AINotesSimilarity.getLLMNoteSimilarity.
    destruct (lookupOil essentialOils oil1) as [d1|];
      [destruct (lookupOil essentialOils oil2) as [d2|]|]; [|tauto|tauto].
    split; [|intros [?|?]; done].
    intros Hrejected. exfalso.
    assert (Hfallback : AINotesSimilarity.fallback essentialOils oil1 oil2
                        ≠ AINotesSimilarity.Rejected).
    { unfold AINotesSimilarity.fallback.
      by destruct (AINotesSimilarity.getFallbackSimilarity essentialOils oil1 oil2). }
    destruct outcome as [code output| |]; [|done|done].
    destruct (decide (code = 0%Z)); [|done].
    revert Hrejected. induction (FastAIDemo.split "010"%char output) as [|line rest IH];
      cbn [AINotesSimilarity.scanLines]; [done|].
    destruct (String.prefix "SIMILARITY_RESULT:" (trim line)); [|exact IH].
    by destruct (parseFloat _).
  - intros code output Hcode. unfold AINotesSimilarity.getLLMNoteSimilarity.
    destruct (lookupOil essentialOils oil1) as [d1|]; [|done].
    destruct (lookupOil essentialOils oil2) as [d2|]; [|done].
    by rewrite decide_False.
  - intros line rest start Htrim Hmarker. split.
    + intros Hparse. cbn [AINotesSimilarity.scanLines FastAIDemo.scanLines].
      rewrite Htrim, Hmarker, Hparse. split; [done|].
      unfold FastAIDemo.parsedOrHalf. rewrite Hparse.
      unfold Rmax, Rmin. repeat (destruct (Rle_dec _ _)); lra.
    + intros Hparse. cbn [AINotesSimilarity.scanLines FastAIDemo.scanLines].
      rewrite Htrim, Hmarker, Hparse. split.
      * f_equal. unfold Rmax, Rmin. repeat (destruct (Rle_dec _ _)); lra.
      * unfold FastAIDemo.parsedOrHalf. rewrite Hparse, orNum_zero.
        unfold Rmax, Rmin. repeat (destruct (Rle_dec _ _)); lra.
Qed.

(* ===================================================================== *)
(** * Sums *)
(* ===================================================================== *)

Lemma sum_acc (xs : list R) a :
  fold_left (λ sum val, sum + val) xs a = a + sumOf xs.
Proof.
  unfold sumOf. revert a.
  induction xs as [|x xs IH]; intros a; cbn [fold_left]; [lra|].
  rewrite (IH (a + x)), (IH (0 + x)). lra.
Qed.

Lemma sum_cons x (xs : list R) :
  sumOf (x :: xs) = x + sumOf xs.
Proof.
  unfold sumOf at 1. cbn [fold_left]. rewrite sum_acc. lra.
Qed.

Lemma sum_nil : sumOf [] = 0.
Proof. reflexivity. Qed.

Lemma sum_fmap_add {A} (f g : A → R) (l : list A) :
  sumOf ((λ i, f i + g i) <$> l)
  = sumOf (f <$> l) + sumOf (g <$> l).
Proof.
  induction l as [|a l IH]; [rewrite !fmap_nil, sum_nil; lra|].
  rewrite !fmap_cons, !sum_cons, IH. lra.
Qed.

Lemma sum_fmap_scale {A} c (f : A → R) (l : list A) :
  sumOf ((λ i, c * f i) <$> l) = c * sumOf (f <$> l).
Proof.
  induction l as [|a l IH]; [rewrite !fmap_nil, sum_nil; lra|].
  rewrite !fmap_cons, !sum_cons, IH. lra.
Qed.

Lemma sum_fmap_const {A} c (l : list A) :
  sumOf ((λ _, c) <$> l) = INR (length l) * c.
Proof.
  induction l as [|a l IH]; [rewrite fmap_nil, sum_nil; simpl; lra|].
  rewrite fmap_cons, sum_cons, IH. cbn [length]. rewrite S_INR. lra.
Qed.

Lemma sum_fmap_ext {A} (f g : A → R) (l : list A) :
  (∀ a, a ∈ l → f a = g a) →
  sumOf (f <$> l) = sumOf (g <$> l).
Proof.
  intros Hext. induction l as [|a l IH]; [done|].
  rewrite !fmap_cons, !sum_cons, IH.
  - rewrite (Hext a); [done|]. by apply elem_of_cons; left.
  - intros b Hb. apply Hext. by apply elem_of_cons; right.
Qed.

Lemma sum_swap {A B} (f : A → B → R) (l1 : list A) (l2 : list B) :
  sumOf ((λ i, sumOf ((λ j, f i j) <$> l2)) <$> l1)
  = sumOf ((λ j, sumOf ((λ i, f i j) <$> l1)) <$> l2).
Proof.
  induction l1 as [|a l1 IH].
  - rewrite fmap_nil, sum_nil.
    rewrite (sum_fmap_ext _ (λ _, 0)) by (intros; by rewrite fmap_nil).
    rewrite sum_fmap_const. lra.
  - rewrite fmap_cons, sum_cons, IH.
    rewrite (sum_fmap_ext (λ j, sumOf ((λ i, f i j) <$> a :: l1))
               (λ j, f a j + sumOf ((λ i, f i j) <$> l1))).
    + by rewrite sum_fmap_add.
    + intros b _. by rewrite fmap_cons, sum_cons.
Qed.

Lemma list_as_seq {A} `{Inhabited A} (l : list A) :
  l = (λ i, l !!! i) <$> seq 0 (length l).
Proof.
  apply list_eq. intros i. rewrite list_lookup_fmap.
  destruct (decide (i < length l)%nat) as [Hi|Hi].
  - rewrite lookup_seq_lt by done. cbn. by apply list_lookup_lookup_total_lt.
  - rewrite lookup_seq_ge by lia. cbn. apply lookup_ge_None. lia.
Qed.

(* ===================================================================== *)
(** * Centering *)
(* ===================================================================== *)

(** The loop [for (i ...) acc[j] += g i] adds the sum of the [g i] to slot [j]. *)
Lemma accumulate_slot (g : nat → R) j (rows : list nat) (acc : list R) :
  (j < length acc)%nat →
  let acc' := fold_left (λ acc i, <[j := acc !!! j + g i]> acc) rows acc in
  length acc' = length acc ∧
  acc' !!! j = acc !!! j + sumOf (g <$> rows) ∧
  ∀ j', j' ≠ j → acc' !!! j' = acc !!! j'.
Proof.
  revert acc. induction rows as [|i rows IH]; intros acc Hj; cbn [fold_left].
  - rewrite fmap_nil, sum_nil. split; [done|]. split; [lra|done].
  - destruct (IH (<[j := acc !!! j + g i]> acc)) as (Hlen & Hat & Hother).
    { by rewrite length_insert. }
    cbn zeta in *. rewrite Hlen, Hat, length_insert. split; [done|]. split.
    + rewrite list_lookup_total_insert_eq by done. rewrite fmap_cons, sum_cons. lra.
    + intros j' Hne. rewrite Hother by done. by rewrite list_lookup_total_insert_ne.
Qed.

(** The column loop of [centerDistanceMatrix]: every slot visited once holds
    the mean of its column. *)
Lemma column_means (g : nat → nat → R) (n : nat) (js : list nat) (acc : list R) :
  NoDup js → Forall (λ j, (j < length acc)%nat) js →
  let acc' :=
    fold_left (λ colMeans j,
      let colMeans :=
        forLoop 0 n (λ i colMeans, <[j := colMeans !!! j + g i j]> colMeans) colMeans in
      <[j := colMeans !!! j / INR n]> colMeans) js acc in
  length acc' = length acc ∧
  ∀ j, acc' !!! j =
       if decide (j ∈ js)
       then (acc !!! j + sumOf ((λ i, g i j) <$> seq 0 n)) / INR n
       else acc !!! j.
Proof.
  intros Hnodup. cbn zeta.
  set (step := λ (colMeans : list R) (j : nat),
      <[j := forLoop 0 n (λ i colMeans, <[j := colMeans !!! j + g i j]> colMeans) colMeans
             !!! j / INR n]>
        (forLoop 0 n (λ i colMeans, <[j := colMeans !!! j + g i j]> colMeans) colMeans)).
  revert acc.
  induction Hnodup as [|a js Ha Hnodup IH]; intros acc Hjs; cbn [fold_left].
  - split; [done|]. intros j. rewrite decide_False; [done|]. apply not_elem_of_nil.
  - apply Forall_cons in Hjs as [Hlt Hjs].
    destruct (accumulate_slot (λ i, g i a) a (seq 0 n) acc Hlt) as (Hlen1 & Hat1 & Hother1).
    cbn zeta in *.
    assert (Hstep : step acc a =
      <[a := fold_left (λ acc i, <[a := acc !!! a + g i a]> acc) (seq 0 n) acc !!! a / INR n]>
        (fold_left (λ acc i, <[a := acc !!! a + g i a]> acc) (seq 0 n) acc)).
    { unfold step, forLoop. by rewrite Nat.sub_0_r. }
    set (acc1 := fold_left _ (seq 0 n) acc) in *.
    assert (Hlen2 : length (step acc a) = length acc).
    { rewrite Hstep. by rewrite length_insert. }
    destruct (IH (step acc a)) as (Hlen & Hcells).
    { rewrite Hlen2. done. }
    split; [by rewrite Hlen|]. intros j. rewrite Hcells.
    destruct (decide (j = a)) as [->|Hne].
    + rewrite decide_False by done. rewrite decide_True by (apply elem_of_cons; by left).
      rewrite Hstep. rewrite list_lookup_total_insert_eq by lia.
      by rewrite Hat1.
    + assert (Hsame : step acc a !!! j = acc !!! j).
      { rewrite Hstep. rewrite list_lookup_total_insert_ne by done. by apply Hother1. }
      rewrite Hsame.
      destruct (decide (j ∈ js)) as [Hin|Hout].
      * rewrite decide_True by (apply elem_of_cons; by right). done.
      * rewrite decide_False; [done|].
        intros H. apply elem_of_cons in H as [?|?]; done.
Qed.

(** The cells of the centered matrix. *)
Lemma centerDistanceMatrix_cells (distances : list (list R)) :
  let n := length distances in
  let D := λ i j, (distances !!! i) !!! j in
  let rowMean := λ i, sumOf (distances !!! i) / INR n in
  let colMean := λ j, sumOf ((λ i, D i j) <$> seq 0 n) / INR n in
  let grandMean := sumOf (rowMean <$> seq 0 n) / INR n in
  square n (LLMScentEmbeddings.centerDistanceMatrix distances) ∧
  ∀ i j, (i < n)%nat → (j < n)%nat →
    get2 (LLMScentEmbeddings.centerDistanceMatrix distances) i j
    = Some (D i j - rowMean i - colMean j + grandMean).
Proof.
  intros n D rowMean colMean grandMean.
  unfold LLMScentEmbeddings.centerDistanceMatrix. fold n.
  set (rowMeans := (λ row, sumOf row / INR n) <$> distances).
  set (colMeans := forLoop 0 n _ (replicate n 0)).
  destruct (fill_loops n
    (λ i j centered, set2 centered i j
       ((distances !!! i) !!! j - rowMeans !!! i - colMeans !!! j
        + sumOf rowMeans / INR n))
    (λ i j, (distances !!! i) !!! j - rowMeans !!! i - colMeans !!! j
        + sumOf rowMeans / INR n)
    (newMatrix n 0)) as [Hsq Hget]; [done|apply square_newMatrix|].
  split; [exact Hsq|]. intros i j Hi Hj. rewrite Hget by done. f_equal.
  assert (Hrow : ∀ k, (k < n)%nat → rowMeans !!! k = rowMean k).
  { intros k Hk. unfold rowMeans.
    by rewrite (list_lookup_total_fmap (λ row, sumOf row / INR n) distances k). }
  assert (Hcol : colMeans !!! j = colMean j).
  { unfold colMeans, forLoop at 1. rewrite Nat.sub_0_r.
    destruct (column_means D n (seq 0 n) (replicate n 0)) as [_ Hcells].
    - apply NoDup_seq.
    - apply Forall_forall. intros k Hk. apply elem_of_seq in Hk.
      rewrite length_replicate. lia.
    - cbn zeta in Hcells. rewrite Hcells.
      rewrite decide_True by (apply elem_of_seq; lia).
      rewrite lookup_total_replicate_2 by done. unfold colMean. f_equal. lra. }
  assert (Hgrand : sumOf rowMeans = sumOf (rowMean <$> seq 0 n)).
  { rewrite (list_as_seq rowMeans). unfold rowMeans at 2. rewrite length_fmap. fold n.
    apply sum_fmap_ext. intros k Hk. apply elem_of_seq in Hk. apply Hrow. lia. }
  rewrite Hrow, Hcol, Hgrand by done. done.
Qed.

Lemma sum_fmap_four {A} (a b c d : A → R) (l : list A) :
  sumOf ((λ k, a k - b k - c k + d k) <$> l)
  = sumOf (a <$> l) - sumOf (b <$> l)
    - sumOf (c <$> l) + sumOf (d <$> l).
Proof.
  induction l as [|x l IH]; [rewrite !fmap_nil, sum_nil; lra|].
  rewrite !fmap_cons, !sum_cons, IH. lra.
Qed.

Lemma sum_fmap_div {A} (f : A → R) c (l : list A) :
  sumOf ((λ k, f k / c) <$> l) = sumOf (f <$> l) / c.
Proof.
  induction l as [|x l IH]; [rewrite !fmap_nil, sum_nil; lra|].
  rewrite !fmap_cons, !sum_cons, IH. lra.
Qed.

Lemma get2_total {A} `{Inhabited A} (m : list (list A)) i j v :
  get2 m i j = Some v → (m !!! i) !!! j = v.
Proof.
  unfold get2. destruct (m !! i) as [row|] eqn:Hrow; cbn; [|done].
  intros Hj. rewrite (list_lookup_total_correct m i row Hrow).
  by apply list_lookup_total_correct.
Qed.

Lemma square_row {A} `{Inhabited A} n (m : list (list A)) i :
  square n m → (i < n)%nat → length (m !!! i) = n.
Proof.
  intros [Hlen Hrows] Hi. rewrite Forall_forall in Hrows. apply Hrows.
  apply list_elem_of_lookup_total_2. lia.
Qed.

(** X15.  On real numbers, [centerDistanceMatrix] of a square matrix is a square
    matrix of the same size whose every row and every column sums to 0; and
    when the input is symmetric, so is the result. *)
Theorem centerDistanceMatrix_zero_sums (distances : list (list R)) (n : nat) :
  square n distances →
  let centered := LLMScentEmbeddings.centerDistanceMatrix distances in
  square n centered ∧
  (∀ i, (i < n)%nat → sumOf (centered !!! i) = 0) ∧
  (∀ j, (j < n)%nat →
     sumOf ((λ row, row !!! j) <$> centered) = 0) ∧
  ((∀ i j, (i < n)%nat → (j < n)%nat → get2 distances i j = get2 distances j i) →
   ∀ i j, (i < n)%nat → (j < n)%nat → get2 centered i j = get2 centered j i).
Proof.
  intros Hsq centered.
  assert (Hn : length distances = n) by apply Hsq.
  destruct (centerDistanceMatrix_cells distances) as [Hsqc Hcells].
  cbn zeta in Hsqc, Hcells. rewrite Hn in Hsqc, Hcells. fold centered in Hsqc, Hcells.
  set (D := λ i j, (distances !!! i) !!! j) in *.
  set (rowMean := λ i, sumOf (distances !!! i) / INR n) in *.
  set (colMean := λ j, sumOf ((λ i, D i j) <$> seq 0 n) / INR n) in *.
  set (grandMean := sumOf (rowMean <$> seq 0 n) / INR n) in *.
  set (T := sumOf
              ((λ i, sumOf ((λ j, D i j) <$> seq 0 n)) <$> seq 0 n)).
  assert (Hrowsum : ∀ i, (i < n)%nat →
            sumOf (distances !!! i)
            = sumOf ((λ j, D i j) <$> seq 0 n)).
  { intros i Hi. rewrite (list_as_seq (distances !!! i)) at 1.
    by rewrite (square_row n). }
  assert (Hrows : sumOf (rowMean <$> seq 0 n) = T / INR n).
  { unfold T. rewrite <- sum_fmap_div. apply sum_fmap_ext.
    intros i Hi. apply elem_of_seq in Hi. unfold rowMean. rewrite Hrowsum by lia. done. }
  assert (Hcols : sumOf (colMean <$> seq 0 n) = T / INR n).
  { unfold T. rewrite sum_swap. rewrite <- sum_fmap_div. done. }
  assert (Hcell : ∀ i j, (i < n)%nat → (j < n)%nat →
            (centered !!! i) !!! j = D i j - rowMean i - colMean j + grandMean).
  { intros i j Hi Hj. apply get2_total. by apply Hcells. }
  split; [exact Hsqc|]. split; [|split].
  - intros i Hi.
    assert (Hpos : INR n ≠ 0) by (apply not_0_INR; lia).
    rewrite (list_as_seq (centered !!! i)). rewrite (square_row n) by done.
    rewrite (sum_fmap_ext _ (λ j, D i j - rowMean i - colMean j + grandMean)).
    2:{ intros j Hj. apply elem_of_seq in Hj. apply Hcell; lia. }
    rewrite (sum_fmap_four (λ j, D i j) (λ _, rowMean i) colMean (λ _, grandMean)).
    rewrite !sum_fmap_const, length_seq, Hcols.
    unfold grandMean. rewrite Hrows. unfold rowMean. rewrite Hrowsum by done.
    field. done.
  - intros j Hj.
    assert (Hpos : INR n ≠ 0) by (apply not_0_INR; lia).
    rewrite (list_as_seq centered) at 1. rewrite <- list_fmap_compose.
    destruct Hsqc as [Hlenc _]. rewrite Hlenc.
    rewrite (sum_fmap_ext _ (λ i, D i j - rowMean i - colMean j + grandMean)).
    2:{ intros i Hi. apply elem_of_seq in Hi. cbn. apply Hcell; lia. }
    rewrite (sum_fmap_four (λ i, D i j) rowMean (λ _, colMean j) (λ _, grandMean)).
    rewrite !sum_fmap_const, length_seq, Hrows.
    unfold grandMean. rewrite Hrows. unfold colMean.
    field. done.
  - intros Hsym i j Hi Hj. rewrite !Hcells by done. f_equal.
    assert (HD : ∀ a b, (a < n)%nat → (b < n)%nat → D a b = D b a).
    { intros a b Ha Hb. unfold D.
      destruct (get2 distances a b) as [v|] eqn:Hab.
      - rewrite (get2_total _ _ _ _ Hab). rewrite Hsym in Hab by done.
        by rewrite (get2_total _ _ _ _ Hab).
      - exfalso. unfold get2 in Hab.
        destruct (lookup_lt_is_Some_2 distances a) as [row Hrow]; [lia|].
        rewrite Hrow in Hab. cbn in Hab. apply lookup_ge_None in Hab.
        pose proof (square_row n distances a Hsq Ha) as Hlen.
        rewrite (list_lookup_total_correct _ _ _ Hrow) in Hlen. lia. }
    assert (Hmeans : ∀ k, (k < n)%nat → rowMean k = colMean k).
    { intros k Hk. unfold rowMean, colMean. rewrite Hrowsum by done. f_equal.
      apply sum_fmap_ext. intros a Ha. apply elem_of_seq in Ha. apply HD; lia. }
    change (D i j - rowMean i - colMean j + grandMean
            = D j i - rowMean j - colMean i + grandMean).
    rewrite (HD i j), (Hmeans i), (Hmeans j) by done. lra.
Qed.

(* ===================================================================== *)
(** * The vocabulary and the weights *)
(* ===================================================================== *)

(** Adding the elements of [xs] one by one to a set kept as a list. *)
Lemma set_add_all (xs acc : list string) :
  NoDup acc →
  NoDup (fold_left (λ set x, if decide (x ∈ set) then set else set ++ [x]) xs acc) ∧
  ∀ x, x ∈ fold_left (λ set x, if decide (x ∈ set) then set else set ++ [x]) xs acc
       ↔ x ∈ acc ∨ x ∈ xs.
Proof.
  revert acc. induction xs as [|y xs IH]; intros acc Hacc; cbn [fold_left].
  - split; [done|]. intros x. split; [by left|]. intros [H|H]; [done|by apply elem_of_nil in H].
  - destruct (decide (y ∈ acc)) as [Hin|Hout].
    + destruct (IH acc Hacc) as [Hnd Hel]. split; [done|].
      intros x. rewrite Hel, elem_of_cons. split; [tauto|].
      intros [H|[->|H]]; auto.
    + destruct (IH (acc ++ [y])) as [Hnd Hel].
      { apply NoDup_app. split; [done|]. split; [|apply NoDup_singleton].
        intros x Hx Hx'. apply list_elem_of_singleton in Hx'. by subst. }
      split; [done|]. intros x. rewrite Hel, elem_of_app, list_elem_of_singleton, elem_of_cons.
      tauto.
Qed.

Lemma buildVocabulary_spec (oils : Catalog) :
  NoDup (ScentEmbeddings.buildVocabulary oils) ∧
  ∀ note, note ∈ ScentEmbeddings.buildVocabulary oils
          ↔ ∃ oilName oilData, (oilName, oilData) ∈ oils ∧ note ∈ notes oilData.
Proof.
  unfold ScentEmbeddings.buildVocabulary.
  enough (H : ∀ acc, NoDup acc →
    NoDup (fold_left (λ vocabulary '(_, oilData),
             fold_left (λ vocabulary note,
               if decide (note ∈ vocabulary) then vocabulary else vocabulary ++ [note])
               (notes oilData) vocabulary) oils acc) ∧
    ∀ note, note ∈ fold_left (λ vocabulary '(_, oilData),
             fold_left (λ vocabulary note,
               if decide (note ∈ vocabulary) then vocabulary else vocabulary ++ [note])
               (notes oilData) vocabulary) oils acc
            ↔ note ∈ acc ∨ ∃ oilName oilData, (oilName, oilData) ∈ oils ∧ note ∈ notes oilData).
  { destruct (H [] NoDup_nil_2) as [Hnd Hel]. split; [done|].
    intros note. rewrite Hel. split; [|by right].
    intros [Hin|Hin]; [by apply elem_of_nil in Hin|done]. }
  induction oils as [|[nm d] rest IH]; intros acc Hacc; cbn [fold_left].
  - split; [done|]. intros note. split; [by left|].
    intros [Hin|(nm & d & Hin & _)]; [done|by apply elem_of_nil in Hin].
  - destruct (set_add_all (notes d) acc Hacc) as [Hnd1 Hel1].
    destruct (IH _ Hnd1) as [Hnd Hel]. split; [done|].
    intros note. rewrite Hel, Hel1. split.
    + intros [[Hin|Hin]|(nm' & d' & Hin & Hnote)]; [by left| |].
      * right. exists nm, d. split; [by apply elem_of_cons; left|done].
      * right. exists nm', d'. split; [by apply elem_of_cons; right|done].
    + intros [Hin|(nm' & d' & Hin & Hnote)]; [by left; left|].
      apply elem_of_cons in Hin as [[= -> ->]|Hin]; [by left; right|].
      right. by exists nm', d'.
Qed.

(** X16.  [buildVocabulary] lists every note of every item exactly once and nothing
    else; [createEmbeddings] then gives one vector per item, each with one cell
    per vocabulary entry. *)
Theorem buildVocabulary_distinct_and_complete (oils : Catalog) :
  NoDup (ScentEmbeddings.buildVocabulary oils) ∧
  (∀ note, note ∈ ScentEmbeddings.buildVocabulary oils
           ↔ ∃ oilName oilData, (oilName, oilData) ∈ oils ∧ note ∈ notes oilData) ∧
  (∀ oilName oilData, (oilName, oilData) ∈ oils →
     ∃ vec, (oilName, vec) ∈ ScentEmbeddings.vectorize oils ∧
            length vec = length (ScentEmbeddings.buildVocabulary oils)) ∧
  length (ScentEmbeddings.vectorize oils) = length oils.
Proof.
  destruct (buildVocabulary_spec oils) as [Hnd Hel].
  split; [done|]. split; [done|]. split.
  - intros nm d Hin. exists (ScentEmbeddings.embedding oils (ScentEmbeddings.buildVocabulary oils) d).
    split.
    + unfold ScentEmbeddings.vectorize, ScentEmbeddings.createEmbeddings.
      apply list_elem_of_fmap. by exists (nm, d).
    + unfold ScentEmbeddings.embedding. by rewrite length_imap.
  - unfold ScentEmbeddings.vectorize, ScentEmbeddings.createEmbeddings. by rewrite length_fmap.
Qed.

Lemma documentFreq_bounds (oils : Catalog) oilName oilData note :
  (oilName, oilData) ∈ oils → note ∈ notes oilData →
  (1 <= ScentEmbeddings.documentFreq oils note <= length oils)%nat.
Proof.
  intros Hin Hnote. rewrite documentFreq_count. split.
  - assert (Hfil : (oilName, oilData) ∈ filter (λ p : string * OilData, note ∈ notes p.2) oils).
    { apply list_elem_of_filter. done. }
    destruct (filter _ oils); [by apply elem_of_nil in Hfil|cbn [length]; lia].
  - apply length_filter.
Qed.

(** X17.  Every weight of every vector of [createEmbeddings] lies between 0 and the
    natural logarithm of the number of items. *)
Theorem tfidf_weights_bounded (oils : Catalog) oilName vec w :
  (oilName, vec) ∈ ScentEmbeddings.vectorize oils → w ∈ vec →
  0 <= w <= ln (INR (length oils)).
Proof.
  intros Hvec Hw.
  unfold ScentEmbeddings.vectorize, ScentEmbeddings.createEmbeddings in Hvec.
  apply list_elem_of_fmap in Hvec as ([nm d] & [= -> ->] & Hin).
  unfold ScentEmbeddings.embedding in Hw.
  apply list_elem_of_lookup in Hw as [idx Hidx].
  rewrite list_lookup_imap in Hidx.
  destruct (ScentEmbeddings.buildVocabulary oils !! idx) as [note|]; [|done].
  cbn in Hidx. injection Hidx as <-.
  assert (Hlen : (1 <= length oils)%nat).
  { destruct oils; [by apply elem_of_nil in Hin|cbn [length]; lia]. }
  assert (HlnN : 0 <= ln (INR (length oils))).
  { rewrite <- ln_1. destruct (decide (length oils = 1%nat)) as [->|Hne]; [simpl; lra|].
    left. apply ln_increasing; [lra|]. apply (lt_INR 1). lia. }
  case_decide as Hnote; [|lra].
  destruct (documentFreq_bounds oils nm d note Hin Hnote) as [Hdf1 HdfN].
  unfold catalogKeys. rewrite length_fmap.
  set (df := ScentEmbeddings.documentFreq oils note) in *.
  assert (Hnotes : (1 <= length (notes d))%nat).
  { destruct (notes d); [by apply elem_of_nil in Hnote|cbn [length]; lia]. }
  assert (Hdfpos : 1 <= INR df) by (apply (le_INR 1); lia).
  assert (HdfleN : INR df <= INR (length oils)) by (apply le_INR; lia).
  assert (Hk : 1 <= INR (length (notes d))) by (apply (le_INR 1); lia).
  assert (Hratio1 : 1 <= INR (length oils) / INR df).
  { apply (Rmult_le_reg_r (INR df)); [lra|]. field_simplify; lra. }
  assert (HratioN : INR (length oils) / INR df <= INR (length oils)).
  { apply (Rmult_le_reg_r (INR df)); [lra|]. field_simplify; [|lra]. nra. }
  assert (Hidf0 : 0 <= ln (INR (length oils) / INR df)).
  { rewrite <- ln_1. destruct (Req_dec_T (INR (length oils) / INR df) 1) as [->|Hne]; [lra|].
    left. apply ln_increasing; lra. }
  assert (HidfN : ln (INR (length oils) / INR df) <= ln (INR (length oils))).
  { destruct (Req_dec_T (INR (length oils) / INR df) (INR (length oils))) as [->|Hne]; [lra|].
    left. apply ln_increasing; lra. }
  assert (Htf : 0 < 1 / INR (length (notes d)) <= 1).
  { split.
    - apply Rdiv_lt_0_compat; lra.
    - apply (Rmult_le_reg_r (INR (length (notes d)))); [lra|]. field_simplify; lra. }
  split; [apply Rmult_le_pos; lra|].
  nra.
Qed.

(* ===================================================================== *)
(** * Normalizing a vector *)
(* ===================================================================== *)





Section NormalizeOnFloats.

Import PrimFloat.
Local Open Scope float_scope.

(** On binary64 floats the squares can leave the range: with two entries
    2^700 their sum is infinite and the result is the zero vector; with two
    entries 2^-700 the squares are 0 and the vector is returned as it is. *)
Lemma normalizeVectorFloat_out_of_range :
  ScentEmbeddings.normalizeVectorFloat [0x1p+700; 0x1p+700] = [0; 0] ∧
  ScentEmbeddings.normalizeVectorFloat [0x1p-700; 0x1p-700] = [0x1p-700; 0x1p-700].
Proof. split; vm_compute; reflexivity. Qed.

End NormalizeOnFloats.


(* ===================================================================== *)
(** * Centering the weight vectors *)
(* ===================================================================== *)




(* ===================================================================== *)
(** * The force layout keeps its centroid *)
(* ===================================================================== *)











(* ===================================================================== *)
(** * The comparison service *)
(* ===================================================================== *)

Lemma digitRun_append (digits rest : string) :
  LLMService.digitRun digits = digits → LLMService.digitRun rest = ""%string →
  LLMService.digitRun (digits +:+ rest) = digits.
Proof.
  intros Hdigits Hrest. induction digits as [|c digits IH]; [exact Hrest|].
  change (String c digits +:+ rest)%string with (String c (digits +:+ rest)%string).
  cbn [LLMService.digitRun] in *.
  destruct (LLMService.isDigit c); [|done].
  injection Hdigits as Hdigits. f_equal. by apply IH.
Qed.

Lemma scoreMatch_first_run (prefix digits rest : string) :
  LLMService.scoreMatch prefix = None → digits ≠ ""%string →
  LLMService.digitRun digits = digits → LLMService.digitRun rest = ""%string →
  LLMService.scoreMatch (prefix +:+ digits +:+ rest) = Some digits.
Proof.
  intros Hprefix Hne Hdigits Hrest.
  induction prefix as [|c prefix IH].
  - change ("" +:+ digits +:+ rest)%string with (digits +:+ rest)%string.
    destruct digits as [|c digits]; [done|].
    change (String c digits +:+ rest)%string with (String c (digits +:+ rest)%string).
    cbn [LLMService.scoreMatch LLMService.digitRun] in *.
    destruct (LLMService.isDigit c); [|done].
    injection Hdigits as Hdigits. by rewrite digitRun_append.
  - change (String c prefix +:+ digits +:+ rest)%string
      with (String c (prefix +:+ digits +:+ rest)%string).
    cbn [LLMService.scoreMatch] in *.
    destruct (LLMService.isDigit c); [done|]. by apply IH.
Qed.

Lemma clamped_score (score : N) :
  0 <= IZR (Z.of_N (N.max 0 (N.min 100 score))) <= 100.
Proof.
  split.
  - apply IZR_le. lia.
  - apply IZR_le. lia.
Qed.

Lemma compareSimilarity_fields (essentialOils : Catalog)
    (run : string → string → option string) (trim : string → string) (now : string)
    (oil1 oil2 : string) (e : LLMScentEmbeddings.SimEntry) :
  LLMService._compareSimilarity essentialOils run trim now oil1 oil2 = Some e →
  LLMScentEmbeddings.oil1 e = oil1 ∧ LLMScentEmbeddings.oil2 e = oil2 ∧
  0 <= LLMScentEmbeddings.similarity e <= 100.
Proof.
  unfold LLMService._compareSimilarity.
  destruct (lookupOil essentialOils oil1) as [d1|]; [|done].
  destruct (lookupOil essentialOils oil2) as [d2|]; [|done].
  destruct (run oil1 oil2) as [response|]; [|done].
  cbn [mbind option_bind]. intros [= <-].
  cbn [LLMScentEmbeddings.similarity LLMScentEmbeddings.oil1 LLMScentEmbeddings.oil2].
  split; [done|]. split; [done|]. apply clamped_score.
Qed.

(** A request resolves with the comparison that was made for it. *)
Lemma compareSimilarity_Resolves (essentialOils : Catalog)
    (run : string → string → option string) (trim : string → string) (now : string)
    (service : LLMService.ServiceState) (oil1 oil2 : string)
    (e : LLMScentEmbeddings.SimEntry) :
  LLMService.compareSimilarity essentialOils run trim now service oil1 oil2
  = LLMService.Resolves e →
  LLMService._compareSimilarity essentialOils run trim now oil1 oil2 = Some e.
Proof.
  unfold LLMService.compareSimilarity, LLMService.settled.
  destruct service; [| |done];
    by destruct (LLMService._compareSimilarity essentialOils run trim now oil1 oil2);
      intros [= <-].
Qed.

(** X21.  When [compareSimilarity] resolves, at once on a loaded service or from
    the queue after a load that succeeds, both names are in the catalog and
    the score lies between 0 and 100; it is 50 when the reply has no digit,
    and otherwise the value of the first run of digits of the reply, capped
    at 100, whatever text comes before and after that run. *)
Theorem compareSimilarity_score (essentialOils : Catalog)
    (run : string → string → option string) (trim : string → string) (now : string)
    (service : LLMService.ServiceState)
    (oil1 oil2 : string) (e : LLMScentEmbeddings.SimEntry) :
  LLMService.compareSimilarity essentialOils run trim now service oil1 oil2
  = LLMService.Resolves e →
  0 <= LLMScentEmbeddings.similarity e <= 100 ∧
  is_Some (lookupOil essentialOils oil1) ∧ is_Some (lookupOil essentialOils oil2) ∧
  ∃ response,
    run oil1 oil2 = Some response ∧
    (LLMService.scoreMatch response = None → LLMScentEmbeddings.similarity e = 50) ∧
    (∀ prefix digits rest,
       response = (prefix +:+ digits +:+ rest)%string →
       LLMService.scoreMatch prefix = None → digits ≠ ""%string →
       LLMService.digitRun digits = digits → LLMService.digitRun rest = ""%string →
       LLMScentEmbeddings.similarity e
       = IZR (Z.of_N (N.min 100 (LLMService.parseInt digits)))).
Proof.
  intros Hresolves. apply compareSimilarity_Resolves in Hresolves. revert Hresolves.
  unfold LLMService._compareSimilarity.
  destruct (lookupOil essentialOils oil1) as [d1|]; [|done].
  destruct (lookupOil essentialOils oil2) as [d2|]; [|done].
  destruct (run oil1 oil2) as [response|]; [|done].
  cbn [mbind option_bind]. intros [= <-]. cbn [LLMScentEmbeddings.similarity].
  split; [apply clamped_score|]. split; [done|]. split; [done|].
  exists response. split; [done|]. split.
  - intros ->. rewrite N.max_r by lia. rewrite N.min_r by lia. done.
  - intros prefix digits rest -> Hprefix Hne Hdigits Hrest.
    rewrite scoreMatch_first_run by done. by rewrite N.max_r by lia.
Qed.

(** On a service that settles its requests, [batchCompareSimilarity] pushes
    one result per pair. *)
Lemma batch_as_map (essentialOils : Catalog) (run : string → string → option string)
    (trim : string → string) (now : string) (service : LLMService.ServiceState)
    (pairs : list (string * string)) :
  service ≠ LLMService.LoadFails →
  LLMService.batchCompareSimilarity essentialOils run trim now service pairs
  = Some ((λ '(oil1, oil2),
             match LLMService._compareSimilarity essentialOils run trim now oil1 oil2 with
             | Some result => result
             | None => LLMService.fallbackResult essentialOils now oil1 oil2
             end) <$> pairs).
Proof.
  intros Hservice. unfold LLMService.batchCompareSimilarity.
  set (step := λ (acc : option (LLMService.ServiceState * list LLMScentEmbeddings.SimEntry))
                 '(oil1, oil2), _).
  set (one := λ '(oil1, oil2), _).
  enough (H : ∀ service results, service ≠ LLMService.LoadFails →
            fold_left step pairs (Some (service, results))
            = Some (LLMService.Loaded, results ++ (one <$> pairs)) ∨
            (pairs = [] ∧ fold_left step pairs (Some (service, results))
                          = Some (service, results))).
  { destruct (H service [] Hservice) as [-> | [-> ->]]; done. }
  clear service Hservice.
  induction pairs as [|[oil1 oil2] pairs IH]; intros service results Hservice;
    cbn [fold_left]; [by right|]. left.
  assert (Hstep : step (Some (service, results)) (oil1, oil2)
                  = Some (LLMService.Loaded, results ++ [one (oil1, oil2)])).
  { unfold step, one. cbn [mbind option_bind].
    unfold LLMService.compareSimilarity, LLMService.settled.
    destruct service; [| |done];
      by destruct (LLMService._compareSimilarity essentialOils run trim now oil1 oil2). }
  rewrite Hstep.
  destruct (IH LLMService.Loaded (results ++ [one (oil1, oil2)])) as [-> | [-> ->]];
    [done| |].
  - rewrite fmap_cons. do 2 f_equal. symmetry. apply (app_assoc results [_]).
  - by rewrite fmap_cons, fmap_nil.
Qed.

(** A batch on a service that never loads stops at its first request. *)
Lemma batch_stays_queued (essentialOils : Catalog) (run : string → string → option string)
    (trim : string → string) (now : string) (pairs : list (string * string)) :
  pairs ≠ [] →
  LLMService.batchCompareSimilarity essentialOils run trim now LLMService.LoadFails pairs
  = None.
Proof.
  destruct pairs as [|[oil1 oil2] pairs]; [done|]. intros _.
  unfold LLMService.batchCompareSimilarity. cbn [fold_left mbind option_bind].
  cbn [LLMService.compareSimilarity].
  induction pairs as [|[a b] pairs IH]; [done|]. exact IH.
Qed.

(** X22.  On a service that is loaded, or not loaded with a load that succeeds,
    [batchCompareSimilarity] returns one result per pair, in order, with the
    two names of the pair and a score between 0 and 100: the result of the
    comparison when it resolves, and otherwise 60 or 30 as the two category
    fields are equal or not; two names that are both missing from the catalog
    get 60.  On a service that is not loaded and whose load fails, the first
    request stays queued: a batch of one pair or more does not return. *)
Theorem batchCompareSimilarity_results (essentialOils : Catalog)
    (run : string → string → option string) (trim : string → string) (now : string)
    (service : LLMService.ServiceState) (pairs : list (string * string)) :
  (service ≠ LLMService.LoadFails →
   ∃ results,
     LLMService.batchCompareSimilarity essentialOils run trim now service pairs
     = Some results ∧
     length results = length pairs ∧
     ∀ i oil1 oil2, pairs !! i = Some (oil1, oil2) →
       ∃ result,
         results !! i = Some result ∧
         LLMScentEmbeddings.oil1 result = oil1 ∧ LLMScentEmbeddings.oil2 result = oil2 ∧
         0 <= LLMScentEmbeddings.similarity result <= 100 ∧
         (∀ e, LLMService.compareSimilarity essentialOils run trim now service oil1 oil2
               = LLMService.Resolves e → result = e) ∧
         (LLMService.compareSimilarity essentialOils run trim now service oil1 oil2
          = LLMService.Rejects →
          LLMScentEmbeddings.similarity result
          = if bool_decide (category <$> lookupOil essentialOils oil1
                            = category <$> lookupOil essentialOils oil2)
            then 60 else 30) ∧
         (lookupOil essentialOils oil1 = None → lookupOil essentialOils oil2 = None →
          LLMScentEmbeddings.similarity result = 60)) ∧
  (service = LLMService.LoadFails → pairs ≠ [] →
   LLMService.batchCompareSimilarity essentialOils run trim now service pairs = None).
Proof.
  split; [|intros ->; apply batch_stays_queued].
  intros Hservice. rewrite batch_as_map by done. eexists. split; [reflexivity|].
  split; [by rewrite length_fmap|].
  intros i oil1 oil2 Hi. rewrite list_lookup_fmap, Hi. cbn [fmap option_fmap option_map].
  eexists. split; [reflexivity|].
  assert (Hcall : LLMService.compareSimilarity essentialOils run trim now service oil1 oil2
                  = LLMService.settled
                      (LLMService._compareSimilarity essentialOils run trim now oil1 oil2))
    by by destruct service.
  rewrite Hcall.
  destruct (LLMService._compareSimilarity essentialOils run trim now oil1 oil2)
    as [e|] eqn:Hcompare; cbn [LLMService.settled].
  - destruct (compareSimilarity_fields _ _ _ _ _ _ _ Hcompare) as (H1 & H2 & Hrange).
    split; [done|]. split; [done|]. split; [done|].
    split; [by intros e' [= <-]|]. split; [done|].
    intros Hnone1 _. unfold LLMService._compareSimilarity in Hcompare.
    by rewrite Hnone1 in Hcompare.
  - unfold LLMService.fallbackResult.
    cbn [LLMScentEmbeddings.similarity LLMScentEmbeddings.oil1 LLMScentEmbeddings.oil2].
    split; [done|]. split; [done|].
    split; [case_bool_decide; lra|]. split; [done|]. split; [done|].
    intros -> ->. by rewrite bool_decide_eq_true_2.
Qed.

(* ===================================================================== *)
(** * The fallback blend *)
(* ===================================================================== *)

Lemma head_filter_elem {A} (P : A → Prop) `{∀ x, Decision (P x)} (l : list A) x :
  head (filter P l) = Some x → x ∈ l ∧ P x.
Proof.
  intros Hhead. apply head_Some_elem_of in Hhead.
  apply list_elem_of_filter in Hhead. tauto.
Qed.

Lemma length_filter_split {A} (P : A → Prop) `{∀ x, Decision (P x)} (l : list A) :
  (length (filter P l) + length (filter (λ x, ¬ P x) l) = length l)%nat.
Proof.
  induction l as [|x l IH]; [done|].
  rewrite (filter_cons P), (filter_cons (λ x, ¬ P x)).
  destruct (decide (P x)) as [Hp|Hp].
  - rewrite decide_False by tauto. cbn [length]. lia.
  - rewrite decide_True by done. cbn [length]. lia.
Qed.

(** Names outside [used] survive the filter of [remaining]: with three
    distinct names in [oils], [used] and [remaining] together count three. *)
Lemma remaining_enough (used oils : list string) a b c :
  a ∈ oils → b ∈ oils → c ∈ oils → a ≠ b → a ≠ c → b ≠ c →
  (3 <= length used + length (filter (λ oil, oil ∉ used) oils))%nat.
Proof.
  intros Ha Hb Hc Hab Hac Hbc.
  assert (Hnd : NoDup [a; b; c]).
  { apply NoDup_cons_2; [|apply NoDup_cons_2; [|apply NoDup_singleton]].
    - rewrite !elem_of_cons, elem_of_nil. tauto.
    - rewrite list_elem_of_singleton. done. }
  pose proof (length_filter_split (λ oil, oil ∈ used) [a; b; c]) as Hsplit.
  assert (Hin : (length (filter (λ oil, oil ∈ used) [a; b; c]) <= length used)%nat).
  { apply submseteq_length, NoDup_submseteq; [by apply NoDup_filter|].
    intros x Hx. by apply list_elem_of_filter in Hx as [? _]. }
  assert (Hout : (length (filter (λ oil, oil ∉ used) [a; b; c])
                  <= length (filter (λ oil, oil ∉ used) oils))%nat).
  { apply submseteq_length, NoDup_submseteq; [by apply NoDup_filter|].
    intros x Hx. apply list_elem_of_filter in Hx as [Hx Hx'].
    apply list_elem_of_filter. split; [done|].
    rewrite !elem_of_cons, elem_of_nil in Hx'.
    destruct Hx' as [->|[->|[->|[]]]]; done. }
  cbn [length] in Hsplit. lia.
Qed.

Lemma used_count (t m b : option string) :
  length (omap (λ o, o) (filter (λ o, Server.truthy o) [t; m; b]))
  = ((if Server.truthy t then 1 else 0) + (if Server.truthy m then 1 else 0)
     + (if Server.truthy b then 1 else 0))%nat.
Proof.
  assert (Hone : ∀ (o : option string) l,
            length (omap (λ o, o) (if decide (Server.truthy o) then o :: l else l))
            = ((if Server.truthy o then 1 else 0) + length (omap (λ o, o) l))%nat).
  { intros [s|] l; cbn [Server.truthy]; [|done].
    destruct (decide (s = ""%string)); done. }
  rewrite !(filter_cons (λ o, Server.truthy o)), filter_nil.
  rewrite !Hone. cbn [omap list_omap length]. lia.
Qed.

Ltac blend_members :=
  repeat match goal with
         | H : _ ∈ _ :: _ |- _ => apply elem_of_cons in H as [->|H]
         | H : _ ∈ [] |- _ => by apply elem_of_nil in H
         end.

(** X23.  The oils selected by [generateDemoBlend] all come from its argument; they
    are listed as MIDDLE, BASE, TOP with 50, 30 and 20 percent; nothing is
    selected exactly when no oil is given; with three distinct names all three
    roles are filled and the percentages add up to 100; and a first oil that is
    both a middle and a base note takes both roles. *)
Theorem generateDemoBlend_selection (toLowerCase : string → string)
    (essentialOils : Catalog) (oils : list string) :
  let selected := Server.selectedOils toLowerCase essentialOils oils in
  (∀ s, s ∈ selected → Server.oil s ∈ oils) ∧
  sublist (Server.note <$> selected) [MIDDLE; BASE; TOP] ∧
  (∀ s, s ∈ selected →
     Server.percentage s
     = match Server.note s with MIDDLE => 50 | BASE => 30 | TOP => 20 end%N) ∧
  (selected = [] ↔ oils = []) ∧
  (∀ a b c, a ∈ oils → b ∈ oils → c ∈ oils → a ≠ b → a ≠ c → b ≠ c →
     length selected = 3%nat ∧ Server.totalPercentage selected = 100%N) ∧
  (∀ first rest, oils = first :: rest → first ≠ ""%string →
     Server.isMiddleNote toLowerCase essentialOils first = true →
     Server.isBaseNote toLowerCase essentialOils first = true →
     {| Server.oil := first; Server.note := MIDDLE; Server.percentage := 50 |} ∈ selected ∧
     {| Server.oil := first; Server.note := BASE; Server.percentage := 30 |} ∈ selected).
Proof.
  unfold Server.selectedOils.
  set (t := head (filter (λ oil, Server.isTopNote toLowerCase essentialOils oil) oils)).
  set (m := head (filter (λ oil, Server.isMiddleNote toLowerCase essentialOils oil) oils)).
  set (b := head (filter (λ oil, Server.isBaseNote toLowerCase essentialOils oil) oils)).
  set (used := omap (λ o, o) (filter (λ o, Server.truthy o) [t; m; b])).
  set (rem := filter (λ oil, oil ∉ used) oils).
  assert (Ht : ∀ v, t = Some v → v ∈ oils).
  { intros v Hv. by apply head_filter_elem in Hv as [? _]. }
  assert (Hm : ∀ v, m = Some v → v ∈ oils).
  { intros v Hv. by apply head_filter_elem in Hv as [? _]. }
  assert (Hb : ∀ v, b = Some v → v ∈ oils).
  { intros v Hv. by apply head_filter_elem in Hv as [? _]. }
  assert (Hrem : ∀ v, v ∈ rem → v ∈ oils).
  { intros v Hv. by apply list_elem_of_filter in Hv as [_ ?]. }
  assert (Hlen : ∀ a' b' c', a' ∈ oils → b' ∈ oils → c' ∈ oils → a' ≠ b' → a' ≠ c' → b' ≠ c' →
            (3 <= (if Server.truthy t then 1 else 0) + (if Server.truthy m then 1 else 0)
                  + (if Server.truthy b then 1 else 0) + length rem)%nat).
  { intros a' b' c' Ha' Hb' Hc' Hab Hac Hbc. rewrite <- used_count.
    by apply (remaining_enough used oils a' b' c'). }
  assert (Hempty : oils = [] → t = None ∧ m = None ∧ b = None ∧ rem = []).
  { intros ->. done. }
  assert (Hfresh : oils ≠ [] → Server.truthy t = false → Server.truthy m = false →
            Server.truthy b = false → rem ≠ []).
  { intros Hne Tt Tm Tb Hnil. destruct oils as [|o oils']; [done|].
    assert (Hused : used = []).
    { apply nil_length_inv. unfold used. rewrite used_count, Tt, Tm, Tb. done. }
    assert (Ho : o ∈ rem).
    { apply list_elem_of_filter. split; [rewrite Hused; apply not_elem_of_nil|].
      by apply elem_of_cons; left. }
    rewrite Hnil in Ho. by apply elem_of_nil in Ho. }
  assert (Hfirst : ∀ first rest, oils = first :: rest →
            Server.isMiddleNote toLowerCase essentialOils first = true →
            Server.isBaseNote toLowerCase essentialOils first = true →
            m = Some first ∧ b = Some first).
  { intros first rest -> Hmid Hbase. unfold m, b.
    rewrite (filter_cons (λ oil, Server.isMiddleNote toLowerCase essentialOils oil)).
    rewrite (filter_cons (λ oil, Server.isBaseNote toLowerCase essentialOils oil)).
    rewrite !decide_True by (by apply Is_true_true). done. }
  clearbody t m b rem. clear used.
  destruct t as [t|]; [destruct (decide (t = ""%string)) as [Het|Het] eqn:Hdt|];
    (destruct m as [m|]; [destruct (decide (m = ""%string)) as [Hem|Hem] eqn:Hdm|]);
    (destruct b as [b|]; [destruct (decide (b = ""%string)) as [Heb|Heb] eqn:Hdb|]);
    (destruct rem as [|x1 [|x2 [|x3 rem]]]);
    unfold Server.fillFrom, Server.truthy in *;
    rewrite ?Hdt, ?Hdm, ?Hdb in *;
    simpl in *.
  all: split; [intros s Hs; blend_members; cbn [Server.oil];
               first [ by apply Ht | by apply Hm | by apply Hb
                     | apply Hrem; rewrite !elem_of_cons; tauto ]|].
  all: split; [by repeat constructor|].
  all: split; [intros s Hs; blend_members; reflexivity|].
  all: split; [split;
                 [first [ done
                        | intros _; destruct oils as [|o oils']; [done|];
                          exfalso; by apply Hfresh ]
                 |first [ done
                        | intros Hnil; apply Hempty in Hnil;
                          destruct Hnil as (? & ? & ? & ?); done ]]|].
  all: split; [intros a' b' c' Ha' Hb' Hc' Hab Hac Hbc;
               first [ split; reflexivity
                     | exfalso; specialize (Hlen a' b' c' Ha' Hb' Hc' Hab Hac Hbc); lia ]|].
  all: intros first rest Hoils Hfne Hmid Hbase;
       destruct (Hfirst first rest Hoils Hmid Hbase) as [Hm' Hb'];
       try discriminate; injection Hm' as ->; injection Hb' as ->; try done;
       split; rewrite !elem_of_cons; tauto.
Qed.

(* ===================================================================== *)
(** * Note types: the visualization and the fallback blend *)
(* ===================================================================== *)

Import PerfumeryNotesVisualization.

(** X24.  For an oil of the catalog, the TOP rule of [generateDemoBlend] and the TOP
    rule of [determineNoteType] agree, and an oil that [determineNoteType]
    calls MIDDLE is neither top nor base for the blend; but a resinous oil is a
    middle note for the blend and BASE for the visualization, a heavy floral
    oil is both middle and base for the blend, and a spice oil that is not
    heavy passes none of the three filters of the blend. *)
Theorem note_rules_compared (toLowerCase : string → string) (essentialOils : Catalog)
    (oil : string) (d : OilData) :
  lookupOil essentialOils (toLowerCase oil) = Some d →
  (Server.isTopNote toLowerCase essentialOils oil = true ↔ determineNoteType d = TOP) ∧
  (determineNoteType d = MIDDLE →
     Server.isBaseNote toLowerCase essentialOils oil = false ∧
     Server.isTopNote toLowerCase essentialOils oil = false) ∧
  (category d = "resinous"%string →
     Server.isMiddleNote toLowerCase essentialOils oil = true ∧
     determineNoteType d = BASE) ∧
  (category d = "floral"%string → intensity d = heavy →
     Server.isMiddleNote toLowerCase essentialOils oil = true ∧
     Server.isBaseNote toLowerCase essentialOils oil = true ∧
     determineNoteType d = BASE) ∧
  (category d = "spice"%string → intensity d ≠ heavy →
     Server.isTopNote toLowerCase essentialOils oil = false ∧
     Server.isMiddleNote toLowerCase essentialOils oil = false ∧
     Server.isBaseNote toLowerCase essentialOils oil = false ∧
     determineNoteType d = MIDDLE).
Proof.
  intros Hd. unfold Server.isTopNote, Server.isMiddleNote, Server.isBaseNote,
    determineNoteType. rewrite Hd.
  destruct (intensity d) eqn:Hint;
    repeat case_bool_decide; cbn [orb andb];
    repeat split; try done; try congruence; intros; try congruence.
Qed.

(* ===================================================================== *)
(** * Classification and coordinates *)
(* ===================================================================== *)

Lemma oilsOf_push nt nt' item st :
  oilsOf nt (push nt' item st)
  = if decide (nt = nt') then oilsOf nt st ++ [item] else oilsOf nt st.
Proof. by destruct nt, nt'. Qed.

(** [classifyOilsByPerfumeryNotes] appends to each array the catalog entries
    of its note type, in catalog order. *)
Lemma classify_spec (essentialOils : Catalog) (st : Classification) nt :
  oilsOf nt (classifyOilsByPerfumeryNotes essentialOils st)
  = oilsOf nt st ++
    ((λ p : string * OilData, {| name := p.1; data := p.2; noteType := nt |})
     <$> filter (λ p : string * OilData, determineNoteType p.2 = nt) essentialOils).
Proof.
  unfold classifyOilsByPerfumeryNotes. revert st.
  induction essentialOils as [|[nm d] rest IH]; intros st; cbn [fold_left].
  - by rewrite filter_nil, fmap_nil, app_nil_r.
  - rewrite IH, oilsOf_push.
    rewrite (filter_cons (λ p : string * OilData, determineNoteType p.2 = nt)). cbn [snd].
    destruct (decide (nt = determineNoteType d)) as [->|Hne].
    + rewrite decide_True by done. rewrite fmap_cons, <- app_assoc. done.
    + rewrite decide_False by done. done.
Qed.

Lemma note_type_split (essentialOils : Catalog) :
  (length (filter (λ p : string * OilData, determineNoteType p.2 = TOP) essentialOils)
   + length (filter (λ p : string * OilData, determineNoteType p.2 = MIDDLE) essentialOils)
   + length (filter (λ p : string * OilData, determineNoteType p.2 = BASE) essentialOils)
   = length essentialOils)%nat.
Proof.
  induction essentialOils as [|[nm d] rest IH]; [done|].
  rewrite !(filter_cons (λ p : string * OilData, determineNoteType p.2 = _)). cbn [snd].
  destruct (determineNoteType d);
    repeat case_decide; try done; cbn [length]; lia.
Qed.

(** The keys of [embeddings] after the loop over one array. *)
Lemma placeOils_dom (random : nat → R) nt (total : nat) (center : R * R)
    (pairs : list (nat * Classified)) (s : gmap string Embedded * nat) :
  dom (fold_left (λ '(embeddings, draws) '(index, oil),
         let angle := INR index / INR total * 2 * PI in
         let radius := 0.3 + random draws * 0.2 in
         (<[name oil := {| x := center.1 + radius * cos angle;
                           y := center.2 + radius * sin angle;
                           embeddedNoteType := nt;
                           oilData := data oil |}]> embeddings,
          S draws)) pairs s).1
  = dom s.1 ∪ list_to_set ((λ p, name p.2) <$> pairs).
Proof.
  revert s. induction pairs as [|[index oil] pairs IH]; intros [embeddings draws];
    cbn [fold_left].
  - rewrite fmap_nil. cbn [list_to_set fst]. by rewrite union_empty_r_L.
  - rewrite IH. cbn [fst snd]. rewrite dom_insert_L, fmap_cons. cbn [list_to_set snd].
    rewrite (union_comm_L {[name oil]} (dom embeddings)), <- union_assoc_L. done.
Qed.

Lemma imap_pair_snd {A} (l : list A) : (λ p : nat * A, p.2) <$> imap pair l = l.
Proof.
  apply list_eq. intros i. rewrite list_lookup_fmap, list_lookup_imap.
  by destruct (l !! i).
Qed.

Lemma generateCoordinates_dom (random : nat → R) (st : Classification) :
  dom (generateCoordinates random st)
  = list_to_set (name <$> topOils st) ∪ list_to_set (name <$> middleOils st)
    ∪ list_to_set (name <$> baseOils st).
Proof.
  unfold generateCoordinates, placeOils. cbn [fold_left oilsOf].
  rewrite !placeOils_dom. cbn [fst]. rewrite dom_empty_L, union_empty_l_L.
  rewrite !(list_fmap_compose (λ p : nat * Classified, p.2) name), !imap_pair_snd. done.
Qed.

(** The names in the three arrays after one more classification. *)
Lemma classify_names (essentialOils : Catalog) (st : Classification) :
  let st' := classifyOilsByPerfumeryNotes essentialOils st in
  (list_to_set (name <$> topOils st') ∪ list_to_set (name <$> middleOils st')
   ∪ list_to_set (name <$> baseOils st') : gset string)
  = list_to_set (name <$> topOils st) ∪ list_to_set (name <$> middleOils st)
    ∪ list_to_set (name <$> baseOils st) ∪ list_to_set essentialOils.*1.
Proof.
  cbn zeta.
  pose proof (classify_spec essentialOils st TOP) as Htop.
  pose proof (classify_spec essentialOils st MIDDLE) as Hmid.
  pose proof (classify_spec essentialOils st BASE) as Hbase.
  cbn [oilsOf] in Htop, Hmid, Hbase. rewrite Htop, Hmid, Hbase.
  apply set_eq. intros nm.
  rewrite !elem_of_union, !elem_of_list_to_set, !fmap_app, !elem_of_app.
  rewrite <- !list_fmap_compose.
  rewrite !list_elem_of_fmap.
  split.
  - intros [[[H|(p & -> & Hp)]|[H|(p & -> & Hp)]]|[H|(p & -> & Hp)]]; auto;
      right; exists p; apply list_elem_of_filter in Hp as [_ Hp]; done.
  - intros [[[H|H]|H]|(p & -> & Hp)]; auto.
    destruct (determineNoteType p.2) eqn:Hnt.
    + left. left. right. exists p. split; [done|]. by apply list_elem_of_filter.
    + left. right. right. exists p. split; [done|]. by apply list_elem_of_filter.
    + right. right. exists p. split; [done|]. by apply list_elem_of_filter.
Qed.

Lemma classify_counts (essentialOils : Catalog) (st : Classification) :
  let st' := classifyOilsByPerfumeryNotes essentialOils st in
  (length (topOils st') + length (middleOils st') + length (baseOils st')
   = length (topOils st) + length (middleOils st) + length (baseOils st)
     + length essentialOils)%nat.
Proof.
  cbn zeta.
  pose proof (classify_spec essentialOils st TOP) as Htop.
  pose proof (classify_spec essentialOils st MIDDLE) as Hmid.
  pose proof (classify_spec essentialOils st BASE) as Hbase.
  cbn [oilsOf] in Htop, Hmid, Hbase. rewrite Htop, Hmid, Hbase.
  rewrite !length_app, !length_fmap.
  pose proof (note_type_split essentialOils). lia.
Qed.

(** X25.  On a fresh instance and a catalog with distinct names,
    [generateVisualizationData] puts every item into the array of its note
    type, in catalog order, and reports as many oils as the catalog has, in
    total and over the three note types; a second call on the same instance
    still reports that total, while its three counts add up to twice the
    catalog. *)
Theorem generateVisualizationData_counts (random random' : nat → R)
    (essentialOils : Catalog) :
  NoDup essentialOils.*1 →
  let '(st1, _, meta1) := generateVisualizationData random essentialOils fresh in
  let '(_, _, meta2) := generateVisualizationData random' essentialOils st1 in
  (∀ nt, oilsOf nt st1
         = (λ p : string * OilData, {| name := p.1; data := p.2; noteType := nt |})
           <$> filter (λ p : string * OilData, determineNoteType p.2 = nt) essentialOils) ∧
  totalOils meta1 = length essentialOils ∧
  (topNotes meta1 + middleNotes meta1 + baseNotes meta1 = length essentialOils)%nat ∧
  totalOils meta2 = length essentialOils ∧
  (topNotes meta2 + middleNotes meta2 + baseNotes meta2 = 2 * length essentialOils)%nat.
Proof.
  intros Hnodup. unfold generateVisualizationData. cbn [totalOils topNotes middleNotes baseNotes].
  set (st1 := classifyOilsByPerfumeryNotes essentialOils fresh).
  set (st2 := classifyOilsByPerfumeryNotes essentialOils st1).
  pose proof (classify_names essentialOils fresh) as Hn1.
  pose proof (classify_counts essentialOils fresh) as Hc1.
  pose proof (classify_names essentialOils st1) as Hn2.
  pose proof (classify_counts essentialOils st1) as Hc2.
  cbn zeta in Hn1, Hc1, Hn2, Hc2. fold st1 in Hn1, Hc1, Hn2, Hc2. fold st2 in Hn2, Hc2.
  cbn [fresh topOils middleOils baseOils fmap list_fmap list_to_set length] in Hn1, Hc1.
  rewrite !union_empty_l_L in Hn1.
  rewrite Hn1 in Hn2. rewrite union_idemp_L in Hn2.
  assert (Hsize : ∀ rnd st,
            list_to_set (name <$> topOils st) ∪ list_to_set (name <$> middleOils st)
              ∪ list_to_set (name <$> baseOils st) = (list_to_set essentialOils.*1 : gset string) →
            size (generateCoordinates rnd st) = length essentialOils).
  { intros rnd st Hnames. rewrite <- size_dom, generateCoordinates_dom, Hnames.
    rewrite size_list_to_set by done. by rewrite length_fmap. }
  split; [|split; [by apply Hsize|split; [lia|split; [by apply Hsize|lia]]]].
  intros nt. unfold st1. rewrite classify_spec. by destruct nt.
Qed.

(** Every value written by the loop over one array lies between 0.3 and 0.5
    from the center of the array's note type. *)
Lemma placeOils_values (random : nat → R) (essentialOils : Catalog) nt (total : nat)
    (pairs : list (nat * Classified)) (s : gmap string Embedded * nat) :
  (∀ k, 0 <= random k < 1) →
  (∀ p, p ∈ pairs → determineNoteType (data p.2) = nt ∧
                    (name p.2, data p.2) ∈ essentialOils) →
  let good := λ (oilName : string) (e : Embedded),
    embeddedNoteType e = determineNoteType (oilData e) ∧
    (oilName, oilData e) ∈ essentialOils ∧
    ∃ radius, 0.3 <= radius < 0.5 ∧
      (x e - (clusterCenters (embeddedNoteType e)).1) ^ 2
      + (y e - (clusterCenters (embeddedNoteType e)).2) ^ 2 = radius ^ 2 in
  map_Forall good s.1 →
  map_Forall good
    (fold_left (λ '(embeddings, draws) '(index, oil),
       let angle := INR index / INR total * 2 * PI in
       let radius := 0.3 + random draws * 0.2 in
       (<[name oil := {| x := (clusterCenters nt).1 + radius * cos angle;
                         y := (clusterCenters nt).2 + radius * sin angle;
                         embeddedNoteType := nt;
                         oilData := data oil |}]> embeddings,
        S draws)) pairs s).1.
Proof.
  intros Hrandom Hpairs good. revert s.
  induction pairs as [|[index oil] pairs IH]; intros [embeddings draws] Hgood;
    cbn [fold_left]; [done|].
  apply IH.
  - intros p Hp. apply Hpairs. by apply elem_of_cons; right.
  - cbn [fst] in *. apply map_Forall_insert_2; [|done].
    destruct (Hpairs (index, oil)) as [Hnt Hin]; [by apply elem_of_cons; left|].
    cbn [snd] in Hnt, Hin. unfold good.
    cbn [embeddedNoteType oilData x y]. split; [done|]. split; [done|].
    exists (0.3 + random draws * 0.2). split; [specialize (Hrandom draws); lra|].
    set (r := 0.3 + random draws * 0.2).
    set (angle := INR index / INR total * 2 * PI).
    pose proof (sin2_cos2 angle) as Hunit. unfold Rsqr in Hunit.
    replace ((clusterCenters nt).1 + r * cos angle - (clusterCenters nt).1)
      with (r * cos angle) by lra.
    replace ((clusterCenters nt).2 + r * sin angle - (clusterCenters nt).2)
      with (r * sin angle) by lra.
    replace ((r * cos angle) ^ 2 + (r * sin angle) ^ 2)
      with (r ^ 2 * (sin angle * sin angle + cos angle * cos angle)) by ring.
    rewrite Hunit. ring.
Qed.

(** X26.  When the random numbers lie in [0, 1), [generateVisualizationData] on a
    fresh instance gives every item of the catalog a point; each point carries
    the note type of its oil and lies at a distance of at least 0.3 and less
    than 0.5 from the center of that note type. *)
Theorem generateCoordinates_around_centers (random : nat → R) (essentialOils : Catalog) :
  (∀ k, 0 <= random k < 1) →
  let '(_, embeddings, _) := generateVisualizationData random essentialOils fresh in
  (∀ oilName d, (oilName, d) ∈ essentialOils → is_Some (embeddings !! oilName)) ∧
  (∀ oilName e, embeddings !! oilName = Some e →
     embeddedNoteType e = determineNoteType (oilData e) ∧
     (oilName, oilData e) ∈ essentialOils ∧
     ∃ radius, 0.3 <= radius < 0.5 ∧
       (x e - (clusterCenters (embeddedNoteType e)).1) ^ 2
       + (y e - (clusterCenters (embeddedNoteType e)).2) ^ 2 = radius ^ 2).
Proof.
  intros Hrandom. unfold generateVisualizationData.
  set (st := classifyOilsByPerfumeryNotes essentialOils fresh).
  split.
  - intros oilName d Hin. apply elem_of_dom. rewrite generateCoordinates_dom.
    pose proof (classify_names essentialOils fresh) as Hnames. cbn zeta in Hnames.
    fold st in Hnames. rewrite Hnames. apply elem_of_union. right.
    apply elem_of_list_to_set, list_elem_of_fmap. by exists (oilName, d).
  - assert (Hlists : ∀ nt p, p ∈ imap pair (oilsOf nt st) →
              determineNoteType (data p.2) = nt ∧ (name p.2, data p.2) ∈ essentialOils).
    { intros nt [index oil] Hp. apply list_elem_of_lookup in Hp as [i Hi].
      rewrite list_lookup_imap in Hi.
      destruct (oilsOf nt st !! i) as [oil'|] eqn:Hoil; [|done].
      cbn in Hi. injection Hi as <- <-. cbn [snd].
      apply list_elem_of_lookup_2 in Hoil. unfold st in Hoil.
      rewrite classify_spec in Hoil.
      replace (oilsOf nt fresh) with (@nil Classified) in Hoil by (by destruct nt).
      rewrite app_nil_l in Hoil.
      apply list_elem_of_fmap in Hoil as ([nm d] & -> & Hp).
      apply list_elem_of_filter in Hp as [Hnt Hin]. done. }
    intros oilName e He. revert oilName e He.
    unfold generateCoordinates, placeOils. cbn [fold_left].
    apply (placeOils_values random essentialOils BASE); [done|apply Hlists|].
    apply (placeOils_values random essentialOils MIDDLE); [done|apply Hlists|].
    apply (placeOils_values random essentialOils TOP); [done|apply Hlists|].
    cbn [fst]. apply map_Forall_empty.
Qed.

(* ===================================================================== *)
(** * Further statements at concrete inputs *)
(* ===================================================================== *)

Lemma generateSimilarityMatrix_complete_witness :
  ∃ final,
    LLMScentEmbeddings.generateSimilarityMatrix Samples.plainStringify Samples.plainParse
      "2025-01-01T00:00:00.000Z" Samples.steadyOracle Samples.pairCatalog
      {| LLMScentEmbeddings.similarityMatrix := ∅;
         LLMScentEmbeddings.disk :=
           {| LLMScentEmbeddings.content := Some Samples.arrayCache;
              LLMScentEmbeddings.writable := true |} |}
    = Some final ∧
    is_Some (LLMScentEmbeddings.cacheLookup (LLMScentEmbeddings.similarityMatrix final)
               "bergamot" "lavender").
Proof.
  destruct (generateSimilarityMatrix_complete Samples.plainStringify Samples.plainParse
              "2025-01-01T00:00:00.000Z" Samples.steadyOracle Samples.pairCatalog
              {| LLMScentEmbeddings.similarityMatrix := ∅;
                 LLMScentEmbeddings.disk :=
                   {| LLMScentEmbeddings.content := Some Samples.arrayCache;
                      LLMScentEmbeddings.writable := true |} |})
    as (final & Hgen & Hpairs).
  - reflexivity.
  - exists final. split; [exact Hgen|]. apply (Hpairs 1%nat 0%nat); cbn; lia.
Defined.

Lemma generateSimilarityMatrix_keeps_cache_witness :
  ∃ final e,
    LLMScentEmbeddings.generateSimilarityMatrix Samples.plainStringify Samples.plainParse
      "2025-01-01T00:00:00.000Z" Samples.failingOracle Samples.catalog
      {| LLMScentEmbeddings.similarityMatrix :=
           LLMScentEmbeddings.ObjectValue Samples.oneEntry;
         LLMScentEmbeddings.disk :=
           {| LLMScentEmbeddings.content := None;
              LLMScentEmbeddings.writable := true |} |}
    = Some final ∧
    LLMScentEmbeddings.similarityMatrix final !! "bergamot|lavender"%string = Some e ∧
    LLMScentEmbeddings.similarity e = 80.
Proof.
  destruct (generateSimilarityMatrix_keeps_cache Samples.plainStringify Samples.plainParse
              "2025-01-01T00:00:00.000Z" Samples.failingOracle Samples.catalog
              {| LLMScentEmbeddings.similarityMatrix :=
                   LLMScentEmbeddings.ObjectValue Samples.oneEntry;
                 LLMScentEmbeddings.disk :=
                   {| LLMScentEmbeddings.content := None;
                      LLMScentEmbeddings.writable := true |} |})
    as (final & Hgen & Hkeep).
  - reflexivity.
  - exists final. eexists. split; [exact Hgen|]. split.
    + apply Hkeep. apply lookup_singleton_eq.
    + reflexivity.
Defined.

Lemma primitive_cache_aborts_witness :
  LLMScentEmbeddings.generateSimilarityMatrix Samples.plainStringify Samples.plainParse
    "2025-01-01T00:00:00.000Z" Samples.steadyOracle Samples.pairCatalog
    {| LLMScentEmbeddings.similarityMatrix := ∅;
       LLMScentEmbeddings.disk :=
         {| LLMScentEmbeddings.content := Some Samples.primitiveCache;
            LLMScentEmbeddings.writable := true |} |}
  = None.
Proof.
  destruct (primitive_cache_aborts Samples.plainStringify Samples.plainParse
              "2025-01-01T00:00:00.000Z" Samples.steadyOracle Samples.pairCatalog
              {| LLMScentEmbeddings.similarityMatrix := ∅;
                 LLMScentEmbeddings.disk :=
                   {| LLMScentEmbeddings.content := Some Samples.primitiveCache;
                      LLMScentEmbeddings.writable := true |} |}
              Samples.primitiveCache Samples.primitiveCache)
    as (_ & Hthrows & _).
  - reflexivity.
  - reflexivity.
  - reflexivity.
  - apply Hthrows. cbn. lia.
Defined.

Lemma array_cache_is_not_persisted_witness :
  ∃ final,
    LLMScentEmbeddings.generateSimilarityMatrix Samples.plainStringify Samples.plainParse
      "2025-01-01T00:00:00.000Z" Samples.steadyOracle Samples.pairCatalog
      {| LLMScentEmbeddings.similarityMatrix := ∅;
         LLMScentEmbeddings.disk :=
           {| LLMScentEmbeddings.content := Some Samples.arrayCache;
              LLMScentEmbeddings.writable := true |} |}
    = Some final ∧
    LLMScentEmbeddings.similarityMatrix
      (LLMScentEmbeddings.loadCache Samples.plainParse
         {| LLMScentEmbeddings.similarityMatrix := ∅;
            LLMScentEmbeddings.disk := LLMScentEmbeddings.disk final |}).1
      !! "bergamot|lavender"%string = None.
Proof.
  destruct (array_cache_is_not_persisted Samples.plainStringify Samples.plainParse
              "2025-01-01T00:00:00.000Z" Samples.steadyOracle Samples.pairCatalog
              {| LLMScentEmbeddings.similarityMatrix := ∅;
                 LLMScentEmbeddings.disk :=
                   {| LLMScentEmbeddings.content := Some Samples.arrayCache;
                      LLMScentEmbeddings.writable := true |} |}
              Samples.arrayCache Samples.arrayCache)
    as (final & entries & Hgen & _ & Hreload).
  - reflexivity.
  - reflexivity.
  - reflexivity.
  - reflexivity.
  - reflexivity.
  - exists final. split; [exact Hgen|apply Hreload].
Defined.

Lemma generation_waits_for_every_request_witness :
  LLMScentEmbeddings.generateWithProcesses Samples.plainStringify Samples.plainParse
    "2025-01-01T00:00:00.000Z" Samples.pairCatalog Samples.noJson Samples.failingRuns
    {| LLMScentEmbeddings.similarityMatrix := ∅;
       LLMScentEmbeddings.disk :=
         {| LLMScentEmbeddings.content := None;
            LLMScentEmbeddings.writable := true |} |}
  = LLMScentEmbeddings.Returns <$>
      LLMScentEmbeddings.generateSimilarityMatrix Samples.plainStringify Samples.plainParse
        "2025-01-01T00:00:00.000Z" Samples.failingOracle Samples.pairCatalog
        {| LLMScentEmbeddings.similarityMatrix := ∅;
           LLMScentEmbeddings.disk :=
             {| LLMScentEmbeddings.content := None;
                LLMScentEmbeddings.writable := true |} |}.
Proof.
  destruct (generation_waits_for_every_request Samples.plainStringify Samples.plainParse
              "2025-01-01T00:00:00.000Z" Samples.pairCatalog Samples.noJson
              Samples.failingRuns
              {| LLMScentEmbeddings.similarityMatrix := ∅;
                 LLMScentEmbeddings.disk :=
                   {| LLMScentEmbeddings.content := None;
                      LLMScentEmbeddings.writable := true |} |})
    as [Hsettled _].
  rewrite Hsettled; [reflexivity|]. intros a b. discriminate.
Defined.

Lemma generated_scores_within_bounds_witness :
  ∃ final,
    LLMScentEmbeddings.generateSimilarityMatrix Samples.plainStringify Samples.plainParse
      "2025-01-01T00:00:00.000Z" Samples.steadyOracle Samples.pairCatalog
      {| LLMScentEmbeddings.similarityMatrix := ∅;
         LLMScentEmbeddings.disk :=
           {| LLMScentEmbeddings.content := None;
              LLMScentEmbeddings.writable := true |} |}
    = Some final ∧
    LLMScentEmbeddings.scoresWithinBounds (LLMScentEmbeddings.similarityMatrix final).
Proof.
  destruct (generated_scores_within_bounds Samples.plainStringify Samples.plainParse
              "2025-01-01T00:00:00.000Z" Samples.steadyOracle Samples.pairCatalog
              {| LLMScentEmbeddings.similarityMatrix := ∅;
                 LLMScentEmbeddings.disk :=
                   {| LLMScentEmbeddings.content := None;
                      LLMScentEmbeddings.writable := true |} |})
    as (final & Hgen & Hbounds & _).
  - reflexivity.
  - intros key e He. cbn in He. by apply lookup_empty_Some in He.
  - intros a b e [= <-]. simpl. lra.
  - exists final. split; [exact Hgen|exact Hbounds].
Defined.

Lemma generated_matrix_is_persisted_witness :
  ∃ final,
    LLMScentEmbeddings.generateSimilarityMatrix Samples.plainStringify Samples.plainParse
      "2025-01-01T00:00:00.000Z" Samples.steadyOracle Samples.pairCatalog
      {| LLMScentEmbeddings.similarityMatrix := ∅;
         LLMScentEmbeddings.disk :=
           {| LLMScentEmbeddings.content := None;
              LLMScentEmbeddings.writable := true |} |}
    = Some final ∧
    LLMScentEmbeddings.loadCache Samples.plainParse
      {| LLMScentEmbeddings.similarityMatrix := ∅;
         LLMScentEmbeddings.disk := LLMScentEmbeddings.disk final |}
    = ({| LLMScentEmbeddings.similarityMatrix := LLMScentEmbeddings.similarityMatrix final;
          LLMScentEmbeddings.disk := LLMScentEmbeddings.disk final |}, true).
Proof.
  destruct (generated_matrix_is_persisted Samples.plainStringify Samples.plainParse
              "2025-01-01T00:00:00.000Z" Samples.steadyOracle Samples.pairCatalog
              {| LLMScentEmbeddings.similarityMatrix := ∅;
                 LLMScentEmbeddings.disk :=
                   {| LLMScentEmbeddings.content := None;
                      LLMScentEmbeddings.writable := true |} |})
    as (final & Hgen & Hload).
  - reflexivity.
  - reflexivity.
  - reflexivity.
  - exists final. split; [exact Hgen|apply Hload].
Defined.

Lemma complete_cache_decides_witness :
  ∃ final,
    LLMScentEmbeddings.generateSimilarityMatrix Samples.plainStringify Samples.plainParse
      "2025-01-01T00:00:00.000Z" Samples.failingOracle Samples.pairCatalog
      {| LLMScentEmbeddings.similarityMatrix :=
           LLMScentEmbeddings.ObjectValue Samples.oneEntry;
         LLMScentEmbeddings.disk :=
           {| LLMScentEmbeddings.content := None;
              LLMScentEmbeddings.writable := true |} |}
    = Some final ∧
    LLMScentEmbeddings.similarityMatrix final
    = LLMScentEmbeddings.ObjectValue Samples.oneEntry.
Proof.
  apply (complete_cache_decides Samples.plainStringify Samples.plainParse
           "2025-01-01T00:00:00.000Z" Samples.failingOracle Samples.pairCatalog).
  intros i j Hij Hj. cbn [length LLMScentEmbeddings.oilNames catalogKeys fmap list_fmap
    Samples.pairCatalog] in Hj.
  assert (i = 0%nat ∧ j = 1%nat) as [-> ->] by lia.
  eexists. apply lookup_singleton_eq.
Defined.

Lemma corrupt_cache_is_no_cache_witness :
  ∃ final final',
    LLMScentEmbeddings.generateSimilarityMatrix Samples.maybeStringify Samples.maybeParse
      "2025-01-01T00:00:00.000Z" Samples.failingOracle Samples.catalog
      {| LLMScentEmbeddings.similarityMatrix := LLMScentEmbeddings.ObjectValue ∅;
         LLMScentEmbeddings.disk :=
           {| LLMScentEmbeddings.content := Some None;
              LLMScentEmbeddings.writable := true |} |} = Some final ∧
    LLMScentEmbeddings.generateSimilarityMatrix Samples.maybeStringify Samples.maybeParse
      "2025-01-01T00:00:00.000Z" Samples.failingOracle Samples.catalog
      {| LLMScentEmbeddings.similarityMatrix := LLMScentEmbeddings.ObjectValue ∅;
         LLMScentEmbeddings.disk :=
           {| LLMScentEmbeddings.content := None;
              LLMScentEmbeddings.writable := false |} |} = Some final' ∧
    LLMScentEmbeddings.similarityMatrix final = LLMScentEmbeddings.similarityMatrix final'.
Proof.
  apply (corrupt_cache_is_no_cache Samples.maybeStringify Samples.maybeParse).
  reflexivity.
Defined.

Lemma getSimilarityKey_inj_witness :
  LLMScentEmbeddings.getSimilarityKey "lavender" "bergamot"
  = LLMScentEmbeddings.getSimilarityKey "bergamot" "lavender" ↔
  ("lavender" = "bergamot" ∧ "bergamot" = "lavender")%string ∨
  ("lavender" = "lavender" ∧ "bergamot" = "bergamot")%string.
Proof.
  apply (getSimilarityKey_inj "lavender" "bergamot" "bergamot" "lavender");
    reflexivity.
Defined.

Lemma all_rejected_distances_witness :
  ∃ final,
    LLMScentEmbeddings.generateSimilarityMatrix Samples.plainStringify Samples.plainParse
      "2025-01-01T00:00:00.000Z" Samples.failingOracle Samples.catalog
      {| LLMScentEmbeddings.similarityMatrix := ∅;
         LLMScentEmbeddings.disk :=
           {| LLMScentEmbeddings.content := None;
              LLMScentEmbeddings.writable := true |} |}
    = Some final ∧
    get2 (LLMScentEmbeddings.createDistanceMatrix
            (LLMScentEmbeddings.oilNames Samples.catalog)
            (LLMScentEmbeddings.similarityMatrix final)) 0 2 = Some 0.4 ∧
    get2 (LLMScentEmbeddings.createDistanceMatrix
            (LLMScentEmbeddings.oilNames Samples.catalog)
            (LLMScentEmbeddings.similarityMatrix final)) 0 1 = Some 0.7.
Proof.
  destruct (all_rejected_distances Samples.plainStringify Samples.plainParse
              "2025-01-01T00:00:00.000Z" Samples.failingOracle Samples.catalog
              {| LLMScentEmbeddings.similarityMatrix := ∅;
                 LLMScentEmbeddings.disk :=
                   {| LLMScentEmbeddings.content := None;
                      LLMScentEmbeddings.writable := true |} |})
    as (final & Hgen & Hcells).
  - vm_compute. repeat constructor; rewrite ?elem_of_cons, ?elem_of_nil;
      intros H; repeat destruct H as [H|H]; done.
  - repeat constructor.
  - reflexivity.
  - reflexivity.
  - exists final. split; [exact Hgen|]. split.
    + destruct (Hcells 0%nat 2%nat) as (d1 & d2 & Hd1 & Hd2 & Hcell);
        [simpl; lia|simpl; lia|lia|].
      injection Hd1 as <-. injection Hd2 as <-. rewrite Hcell.
      by rewrite decide_True.
    + destruct (Hcells 0%nat 1%nat) as (d1 & d2 & Hd1 & Hd2 & Hcell);
        [simpl; lia|simpl; lia|lia|].
      injection Hd1 as <-. injection Hd2 as <-. rewrite Hcell.
      by rewrite decide_False.
Defined.

Lemma generated_table_gives_distances_witness :
  ∃ d,
    get2 (AINotesVisualization.distanceMatrix Samples.twoOils
            (AINotesVisualization.generateAISimilarityMatrix
               Samples.halfOracle Samples.twoOils ∅)) 0 1 = Some d ∧
    0 <= d <= 1.
Proof.
  destruct (generated_table_gives_distances Samples.halfOracle Samples.twoOils)
    with (i := 0%nat) (j := 1%nat) as (d & Hcell & Hrange & _).
  - intros a b. unfold Samples.halfOracle. lra.
  - simpl. lia.
  - simpl. lia.
  - exists d. split; [exact Hcell|exact Hrange].
Defined.

Lemma generated_table_symmetric_witness :
  FastAIDemo.generateSimilarities Samples.halfOracle Samples.twoOils ∅
    !! FastAIDemo.pairKey "lavender" "bergamot"
  = FastAIDemo.generateSimilarities Samples.halfOracle Samples.twoOils ∅
      !! FastAIDemo.pairKey "bergamot" "lavender".
Proof.
  refine (proj1 (generated_table_symmetric Samples.halfOracle Samples.twoOils ∅ _ _)
            "lavender" "bergamot" _ _)%string.
  - unfold Samples.twoOils. apply NoDup_cons_2; [|apply NoDup_singleton].
    rewrite list_elem_of_singleton. done.
  - apply twoOils_keys_distinct.
  - unfold Samples.twoOils. rewrite !elem_of_cons. by left.
  - unfold Samples.twoOils. rewrite !elem_of_cons. right. by left.
Defined.

Lemma getFallbackSimilarity_range_witness :
  ∃ v,
    FastAIDemo.getFallbackSimilarity Samples.catalog "lavender" "bergamot" = Some v ∧
    0.075 <= v <= 0.6.
Proof.
  eexists. split; [reflexivity|].
  edestruct (getFallbackSimilarity_range Samples.catalog "lavender" "bergamot")
    as (data1 & data2 & Hd1 & Hd2 & Hrange & _ & Hdiff); [reflexivity|].
  injection Hd1 as <-. injection Hd2 as <-.
  split; [apply Hrange|apply Hdiff; done].
Defined.

Lemma centerDistanceMatrix_zero_sums_witness :
  square 2 (LLMScentEmbeddings.centerDistanceMatrix Samples.halfApart) ∧
  sumOf (LLMScentEmbeddings.centerDistanceMatrix Samples.halfApart !!! 0%nat) = 0.
Proof.
  destruct (centerDistanceMatrix_zero_sums Samples.halfApart 2) as (Hsq & Hrows & _).
  - split; [reflexivity|]. repeat constructor.
  - split; [exact Hsq|]. apply Hrows. lia.
Defined.

Lemma tfidf_weights_bounded_witness :
  ∃ vec w,
    ("lavender"%string, vec) ∈ ScentEmbeddings.vectorize Samples.catalog ∧ w ∈ vec ∧
    0 <= w <= ln (INR 3).
Proof.
  eexists _, _. split; [apply list_elem_of_here|]. split; [apply list_elem_of_here|].
  eapply (tfidf_weights_bounded Samples.catalog "lavender"); apply list_elem_of_here.
Defined.



Lemma compareSimilarity_score_witness :
  ∃ e,
    LLMService.compareSimilarity Samples.catalog Samples.scoreReply Samples.sameText
      "2025-01-01T00:00:00.000Z" LLMService.Loaded "lavender" "rose"
    = LLMService.Resolves e ∧
    LLMScentEmbeddings.similarity e = 85.
Proof.
  eexists. split; [reflexivity|].
  edestruct (compareSimilarity_score Samples.catalog Samples.scoreReply Samples.sameText
               "2025-01-01T00:00:00.000Z" LLMService.Loaded "lavender" "rose")
    as (_ & _ & _ & response & Hreply & _ & Hscore); [reflexivity|].
  injection Hreply as <-.
  rewrite (Hscore "" "85" " - both floral")%string; [|reflexivity|reflexivity|done|reflexivity|reflexivity].
  reflexivity.
Defined.

Lemma batchCompareSimilarity_results_witness :
  (∃ results,
     LLMService.batchCompareSimilarity Samples.catalog Samples.scoreReply Samples.sameText
       "2025-01-01T00:00:00.000Z" LLMService.LoadSucceeds
       [("lavender", "rose"); ("rose", "bergamot")]%string
     = Some results ∧ length results = 2%nat) ∧
  LLMService.batchCompareSimilarity Samples.catalog Samples.scoreReply Samples.sameText
    "2025-01-01T00:00:00.000Z" LLMService.LoadFails
    [("lavender", "rose"); ("rose", "bergamot")]%string
  = None.
Proof.
  split.
  - destruct (batchCompareSimilarity_results Samples.catalog Samples.scoreReply
                Samples.sameText "2025-01-01T00:00:00.000Z" LLMService.LoadSucceeds
                [("lavender", "rose"); ("rose", "bergamot")]%string)
      as [Hreturns _].
    destruct Hreturns as (results & Hbatch & Hlength & _); [done|].
    exists results. split; [exact Hbatch|exact Hlength].
  - destruct (batchCompareSimilarity_results Samples.catalog Samples.scoreReply
                Samples.sameText "2025-01-01T00:00:00.000Z" LLMService.LoadFails
                [("lavender", "rose"); ("rose", "bergamot")]%string)
      as [_ Hqueued].
    apply Hqueued; done.
Defined.

Lemma note_rules_compared_witness :
  Server.isTopNote Samples.sameText Samples.catalog "bergamot" = true ↔
  PerfumeryNotesVisualization.determineNoteType Samples.bergamot = TOP.
Proof.
  refine (proj1 (note_rules_compared Samples.sameText Samples.catalog "bergamot"
                   Samples.bergamot _)).
  reflexivity.
Defined.

Lemma generateVisualizationData_counts_witness :
  PerfumeryNotesVisualization.totalOils
    (PerfumeryNotesVisualization.generateVisualizationData Samples.sameDraws Samples.catalog
       PerfumeryNotesVisualization.fresh).2 = 3%nat.
Proof.
  pose proof (generateVisualizationData_counts Samples.sameDraws Samples.sameDraws
                Samples.catalog) as Hcounts.
  destruct (PerfumeryNotesVisualization.generateVisualizationData Samples.sameDraws
              Samples.catalog PerfumeryNotesVisualization.fresh) as [[st1 emb1] meta1].
  destruct (PerfumeryNotesVisualization.generateVisualizationData Samples.sameDraws
              Samples.catalog st1) as [[st2 emb2] meta2].
  apply Hcounts.
  cbn. apply NoDup_cons_2; [|apply NoDup_cons_2; [|apply NoDup_singleton]].
  - rewrite !elem_of_cons, elem_of_nil. intros [H|[H|[]]]; done.
  - rewrite list_elem_of_singleton. done.
Defined.

Lemma generateCoordinates_around_centers_witness :
  is_Some ((PerfumeryNotesVisualization.generateVisualizationData Samples.sameDraws
              Samples.catalog PerfumeryNotesVisualization.fresh).1.2
           !! "lavender"%string).
Proof.
  assert (Hdraws : ∀ k, 0 <= Samples.sameDraws k < 1).
  { intros k. unfold Samples.sameDraws. lra. }
  pose proof (generateCoordinates_around_centers Samples.sameDraws Samples.catalog Hdraws)
    as Hcoords.
  destruct (PerfumeryNotesVisualization.generateVisualizationData Samples.sameDraws
              Samples.catalog PerfumeryNotesVisualization.fresh) as [[st embeddings] meta].
  apply (proj1 Hcoords "lavender"%string Samples.lavender).
  apply list_elem_of_here.
Defined.
